(** * Nexus: the scheduler's plan derivation and the backend's batching executor

    A shallow embedding of
      - [src/nexus/scheduler/backend_rpc_client.cpp] (class [BackendRpcClient]):
        [PrepareLoadModel], the two [LoadModel] overloads, [UpdateModelTable];
      - [src/nexus/backend/model_exec.cpp] (class [ModelExecutor]):
        [AddTask], [Execute], [GetBatchInput], [RemoveTask].

    Numbers are modelled at the width the C++ declares them: [uint32_t] and
    [uint64_t] as [Z] with the wrap-around written out, [float] and [double]
    as IEEE-754 binary32 and binary64 values ([spec_float] of the standard
    library, rounding to nearest even).  Operations that C++ leaves undefined,
    that dereference a null pointer or that throw, end in [Throw]. *)

From Stdlib Require Import ZArith Bool List String Lia Sorted.
From Stdlib Require Import Floats.SpecFloat DecimalString.
From stdpp Require Import base option list gmap strings.

Local Open Scope Z_scope.

(** ** Outcomes of a call *)

Inductive error : Type :=
  | NullDeref                       (* a null pointer is read through *)
  | OutOfRange                      (* std::out_of_range, from [.at()] *)
  | ProfileOutOfRange (batch : Z)   (* a profile query outside its table *)
  | Undefined                       (* undefined behaviour in C++ *)
  | YamlError                       (* YAML::Exception, from [.as<T>()] *)
  | OutOfFuel.                      (* the model's loop bound was reached *)

Inductive result (A : Type) : Type :=
  | Ret (a : A)
  | Throw (e : error).

Arguments Ret {A} a.
Arguments Throw {A} e.

#[global] Instance result_ret : MRet result := fun _ a => Ret a.
#[global] Instance result_bind : MBind result := fun _ _ f m =>
  match m with
  | Ret a => f a
  | Throw e => Throw e
  end.

Definition returns {A : Type} (m : result A) : Prop := exists a, m = Ret a.

(** ** Machine integers and floating-point numbers *)

Module Num.

Definition UINT32_MAX : Z := 2 ^ 32 - 1.
Definition wrap32 (z : Z) : Z := z mod 2 ^ 32.
Definition wrap64 (z : Z) : Z := z mod 2 ^ 64.

(** [float] is binary32 (24 bits of mantissa, infinities at exponent 128),
    [double] is binary64 (53 and 1024). *)
Definition float : Type := spec_float.
Definition double : Type := spec_float.

Definition fzero : float := S754_zero false.

(** The value [m * 2^e] rounded to the format. *)
Definition f32_round (m e : Z) : float := binary_normalize 24 128 m e false.
Definition f64_round (m e : Z) : double := binary_normalize 53 1024 m e false.

(** Integer to floating point, as in an implicit conversion. *)
Definition f32_of_Z (z : Z) : float := f32_round z 0.
Definition f64_of_Z (z : Z) : double := f64_round z 0.

(** [float] to [double] (exact) and [double] to [float] (rounds). *)
Definition f64_of_f32 (x : float) : double :=
  match x with
  | S754_finite s m e => f64_round (cond_Zopp s (Zpos m)) e
  | _ => x
  end.
Definition f32_of_f64 (x : double) : float :=
  match x with
  | S754_finite s m e => f32_round (cond_Zopp s (Zpos m)) e
  | _ => x
  end.

Definition f32_add : float -> float -> float := SFadd 24 128.
Definition f32_sub : float -> float -> float := SFsub 24 128.
Definition f32_div : float -> float -> float := SFdiv 24 128.
Definition f64_mul : double -> double -> double := SFmul 53 1024.
Definition f64_sub : double -> double -> double := SFsub 53 1024.
Definition f64_div : double -> double -> double := SFdiv 53 1024.

(** Comparisons; every one of them is [false] on a NaN. *)
Definition f_eqb : spec_float -> spec_float -> bool := SFeqb.
Definition f_ltb : spec_float -> spec_float -> bool := SFltb.
Definition f_leb : spec_float -> spec_float -> bool := SFleb.
Definition f_gtb (x y : spec_float) : bool := SFltb y x.

(** Floating point to integer: the fractional part is discarded. *)
Definition f_trunc (x : spec_float) : option Z :=
  match x with
  | S754_zero _ => Some 0
  | S754_finite s m e => Some (cond_Zopp s (Z.shiftl (Zpos m) e))
  | S754_infinity _ | S754_nan => None
  end.

(** The conversion is undefined when the truncated value does not fit
    the destination type. *)
Definition f_to_int (x : spec_float) : result Z :=
  match f_trunc x with
  | Some z => if (- 2 ^ 31 <=? z) && (z <? 2 ^ 31) then Ret z else Throw Undefined
  | None => Throw Undefined
  end.
Definition f_to_uint32 (x : spec_float) : result Z :=
  match f_trunc x with
  | Some z => if (0 <=? z) && (z <? 2 ^ 32) then Ret z else Throw Undefined
  | None => Throw Undefined
  end.

(** [plus_f_le t x d]: over the reals, [t + x <= d], for integers
    [t], [d] and the exact value of [x] (the mantissa times a power of two,
    cleared of its denominator when the exponent is negative). *)
Definition plus_f_le (t : Z) (x : spec_float) (d : Z) : Prop :=
  match x with
  | S754_zero _ => t <= d
  | S754_finite s m e =>
      if 0 <=? e then t + cond_Zopp s (Zpos m * 2 ^ e) <= d
      else t * 2 ^ (- e) + cond_Zopp s (Zpos m) <= d * 2 ^ (- e)
  | S754_infinity s => if s then True else False
  | S754_nan => False
  end.

End Num.
Import Num.

(** ** Data model of the scheduler *)

(** [ModelSession] and [ModelInstanceConfig] are protobuf messages; a field
    that was never set reads as zero or as the empty string.  The messages
    are declared in the protocol files, outside the sources: the fields are
    given the types of the locals that the code stores into them
    ([uint32_t] for the batches and the memory usage, [float] for the
    latency, the throughput and the workload). *)
Record ModelSession : Type := {
  framework : string;
  model_name : string;
  version : Z;          (* uint32 *)
  latency_sla : Z;      (* uint32, milliseconds *)
  image_height : Z;     (* uint32, 0 when absent *)
  image_width : Z       (* uint32, 0 when absent *)
}.

Definition empty_session : ModelSession :=
  {| framework := ""; model_name := ""; version := 0; latency_sla := 0;
     image_height := 0; image_width := 0 |}.

Record ModelInstanceConfig : Type := {
  model_session : ModelSession;
  batch : Z;                 (* uint32 *)
  max_batch : Z;             (* uint32 *)
  memory_usage : Z;          (* uint32 *)
  forward_latency : float;
  throughput : float;
  workload : float
}.

Definition empty_config : ModelInstanceConfig :=
  {| model_session := empty_session; batch := 0; max_batch := 0;
     memory_usage := 0; forward_latency := fzero; throughput := fzero;
     workload := fzero |}.

Definition set_model_session (s : ModelSession) (c : ModelInstanceConfig) :=
  {| model_session := s; batch := batch c; max_batch := max_batch c;
     memory_usage := memory_usage c; forward_latency := forward_latency c;
     throughput := throughput c; workload := workload c |}.
Definition set_batch (b : Z) (c : ModelInstanceConfig) :=
  {| model_session := model_session c; batch := b; max_batch := max_batch c;
     memory_usage := memory_usage c; forward_latency := forward_latency c;
     throughput := throughput c; workload := workload c |}.
Definition set_max_batch (b : Z) (c : ModelInstanceConfig) :=
  {| model_session := model_session c; batch := batch c; max_batch := b;
     memory_usage := memory_usage c; forward_latency := forward_latency c;
     throughput := throughput c; workload := workload c |}.
Definition set_memory_usage (m : Z) (c : ModelInstanceConfig) :=
  {| model_session := model_session c; batch := batch c; max_batch := max_batch c;
     memory_usage := m; forward_latency := forward_latency c;
     throughput := throughput c; workload := workload c |}.
Definition set_forward_latency (x : float) (c : ModelInstanceConfig) :=
  {| model_session := model_session c; batch := batch c; max_batch := max_batch c;
     memory_usage := memory_usage c; forward_latency := x;
     throughput := throughput c; workload := workload c |}.
Definition set_throughput (x : float) (c : ModelInstanceConfig) :=
  {| model_session := model_session c; batch := batch c; max_batch := max_batch c;
     memory_usage := memory_usage c; forward_latency := forward_latency c;
     throughput := x; workload := workload c |}.
Definition set_workload (x : float) (c : ModelInstanceConfig) :=
  {| model_session := model_session c; batch := batch c; max_batch := max_batch c;
     memory_usage := memory_usage c; forward_latency := forward_latency c;
     throughput := throughput c; workload := x |}.

(** ** The profile oracle *)

(** Modelled from the spec: the class [ModelProfile] of
    [nexus/common/model_db.h] is not part of the sources.  Section 3 and
    section 4.1 of the specification describe it: a table keyed by batch size
    that yields the forward latency in microseconds and the memory usage in
    bytes, and scalar preprocess and postprocess latencies.  Entry [i] of
    [forward_table] is the row of batch [i + 1], so [max_known_batch] is the
    length of the table. *)
Record ModelProfile : Type := {
  forward_table : list (float * Z);
  preprocess_latency : Z;     (* microseconds, as read into a uint32_t *)
  postprocess_latency : Z
}.

Definition max_known_batch (p : ModelProfile) : Z :=
  Z.of_nat (length (forward_table p)).

Definition in_profile_range (p : ModelProfile) (b : Z) : Prop :=
  1 <= b <= max_known_batch p.

Definition profile_row (p : ModelProfile) (b : Z) : option (float * Z) :=
  if 1 <=? b then forward_table p !! Z.to_nat (b - 1) else None.

(** Modelled from the spec: "forward_latency(batch): table lookup; batch must
    be in [1, max_known_batch]; out-of-range fails with ProfileOutOfRange". *)
Definition GetForwardLatency (p : ModelProfile) (b : Z) : result float :=
  match profile_row p b with
  | Some row => Ret (fst row)
  | None => Throw (ProfileOutOfRange b)
  end.

(** Modelled from the spec: "memory_usage(batch): bytes", the same table. *)
Definition GetMemoryUsage (p : ModelProfile) (b : Z) : result Z :=
  match profile_row p b with
  | Some row => Ret (snd row)
  | None => Throw (ProfileOutOfRange b)
  end.

Definition GetPreprocessLatency (p : ModelProfile) : Z := preprocess_latency p.
Definition GetPostprocessLatency (p : ModelProfile) : Z := postprocess_latency p.

(** [fits_sla p sla_us b]: preprocess + forward(b) + postprocess <= sla_us. *)
Definition fits_sla (p : ModelProfile) (sla_us : float) (row : float * Z) : bool :=
  f_leb (f32_add (f32_add (f32_of_Z (preprocess_latency p)) (fst row))
                 (f32_of_Z (postprocess_latency p)))
        sla_us.

(** The greatest batch of the table whose row fits, 0 when none does:
    [scan] walks the rows with the batch of the current row in [b] and the
    greatest fitting batch so far in [best]. *)
Fixpoint greatest_fitting (p : ModelProfile) (sla_us : float)
    (rows : list (float * Z)) (b best : Z) : Z :=
  match rows with
  | [] => best
  | row :: rows' =>
      greatest_fitting p sla_us rows' (b + 1)
        (if fits_sla p sla_us row then b else best)
  end.

Definition GetMaxBatch (p : ModelProfile) (sla_ms : Z) : Z :=
  greatest_fitting p (f32_of_Z (sla_ms * 1000)) (forward_table p) 1 0.

(** Modelled from the spec: "max_throughput(sla_ms) -> (max_batch, req_per_s):
    max_batch is the greatest b such that preprocess + forward(b) +
    postprocess <= sla_ms * 1000; throughput is b * 1e6 / (sla_ms * 1000) at
    that b". *)
Definition GetMaxThroughput (p : ModelProfile) (sla_ms : Z) : Z * float :=
  let b := GetMaxBatch p sla_ms in
  (b, f32_of_f64 (f64_div (f64_mul (f64_of_Z b) (f64_of_Z 1000000))
                          (f64_of_Z (sla_ms * 1000)))).

(** Modelled from the spec: [ModelSessionToProfileID] is declared outside the
    sources; section 6 gives the format
    "<framework>:<model_name>:<version>[:<H>x<W>]". *)
Definition decimal (z : Z) : string := NilZero.string_of_uint (N.to_uint (Z.to_N z)).

Definition ModelSessionToProfileID (s : ModelSession) : string :=
  let base := framework s +:+ ":" +:+ model_name s +:+ ":" +:+ decimal (version s) in
  if 0 <? image_height s
  then base +:+ ":" +:+ decimal (image_height s) +:+ "x" +:+ decimal (image_width s)
  else base.

(** The profile database: [GetModelProfile gpu_device profile_id] is the
    profile, or [None] for the null pointer of a missing one. *)
Definition ModelDatabase : Type := string -> string -> option ModelProfile.

(** ** BackendRpcClient *)

Inductive CtrlStatus : Type :=
  | CTRL_OK
  | CTRL_SERVER_UNREACHABLE
  | CTRL_ERROR (code : Z).          (* the model-level error codes *)

Definition CtrlStatus_eqb (a b : CtrlStatus) : bool :=
  match a, b with
  | CTRL_OK, CTRL_OK => true
  | CTRL_SERVER_UNREACHABLE, CTRL_SERVER_UNREACHABLE => true
  | CTRL_ERROR x, CTRL_ERROR y => x =? y
  | _, _ => false
  end.

(** The mutable record behind [mutex_].  The members are declared in
    [backend_rpc_client.h], outside the sources; the two cycles are
    initialised with [0.] and are taken as [float], like the locals that the
    code adds to them. *)
Record BackendRpcClient : Type := {
  node_id : Z;
  gpu_device : string;
  exec_cycle_us : float;
  duty_cycle_us : float;
  model_table_config : list ModelInstanceConfig;
  dirty_model_table : bool;
  last_time : Z
}.

(** The state the constructor leaves. *)
Definition new_client (id : Z) (gpu : string) (now : Z) : BackendRpcClient :=
  {| node_id := id; gpu_device := gpu; exec_cycle_us := fzero;
     duty_cycle_us := fzero; model_table_config := [];
     dirty_model_table := false; last_time := now |}.

(** *** PrepareLoadModel *)

(** [(batch - 1) * 1e6 / workload], computed in [double] and stored in a
    [float]. *)
Definition min_duty_cycle (batch : Z) (workload : float) : float :=
  f32_of_f64 (f64_div (f64_mul (f64_of_Z (wrap32 (batch - 1))) (f64_of_Z 1000000))
                      (f64_of_f32 workload)).

(** The test that leaves the residue loop:
    [min_duty_cycle + fwd_lat + preprocess + postprocess > latency_sla_us]. *)
Definition exceeds_sla (preprocess postprocess : Z) (latency_sla_us workload : float)
    (batch : Z) (fwd_lat : float) : bool :=
  f_gtb (f32_add (f32_add (f32_add (min_duty_cycle batch workload) fwd_lat)
                          (f32_of_Z preprocess))
                 (f32_of_Z postprocess))
        latency_sla_us.

(** [for (; batch <= max_batch; ++batch) { ...; if (...) break; }]: the value
    of [batch] when the loop is left. *)
Fixpoint residue_loop (fuel : nat) (profile : ModelProfile)
    (preprocess postprocess : Z) (latency_sla_us workload : float)
    (max_batch batch : Z) : result Z :=
  match fuel with
  | O => Throw OutOfFuel
  | S fuel' =>
      if batch <=? max_batch then
        fwd_lat ← GetForwardLatency profile batch;
        if exceeds_sla preprocess postprocess latency_sla_us workload batch fwd_lat
        then Ret batch
        else residue_loop fuel' profile preprocess postprocess latency_sla_us
               workload max_batch (wrap32 (batch + 1))
      else Ret batch
  end.

(** [batch * 1e6 / duty_cycle], computed in [double] and stored in a [float]. *)
Definition batch_throughput (batch : Z) (duty_cycle : float) : float :=
  f32_of_f64 (f64_div (f64_mul (f64_of_Z batch) (f64_of_Z 1000000))
                      (f64_of_f32 duty_cycle)).

(** [latency_sla_us - fwd_lat - preprocess - postprocess]. *)
Definition residue_duty_cycle (latency_sla_us fwd_lat : float)
    (preprocess postprocess : Z) : float :=
  f32_sub (f32_sub (f32_sub latency_sla_us fwd_lat) (f32_of_Z preprocess))
          (f32_of_Z postprocess).

(** [float latency_sla_us = model_sess.latency_sla() * 1000]: a product of
    [uint32_t], converted to [float]. *)
Definition sla_us_of (model_sess : ModelSession) : float :=
  f32_of_Z (wrap32 (latency_sla model_sess * 1000)).

(** The out-parameters [config] and [occupancy] come in with the values the
    caller left in them and are returned as the call leaves them.
    [std::tie(max_batch, max_throughput)] receives the throughput of the
    profile, a [float], in a [uint32_t]; [set_memory_usage(fwd_latency)]
    converts the [float] to the integer type of the field.  The mutex is not
    modelled: the call runs alone. *)
Definition PrepareLoadModel (db : ModelDatabase) (c : BackendRpcClient)
    (model_sess : ModelSession) (workload : float)
    (config : ModelInstanceConfig) (occupancy : float)
    : result (ModelInstanceConfig * float) :=
  let profile_id := ModelSessionToProfileID model_sess in
  match db (gpu_device c) profile_id with
  | None => Ret (set_batch 0 config, occupancy)
  | Some profile =>
      let config := set_model_session model_sess config in
      let latency_sla_us := sla_us_of model_sess in
      let '(max_batch, tp) := GetMaxThroughput profile (latency_sla model_sess) in
      max_throughput ← f_to_uint32 tp;
      if f_eqb (exec_cycle_us c) fzero then
        if f_eqb workload fzero || f_leb (f32_of_Z max_throughput) workload then
          fwd_latency ← GetForwardLatency profile max_batch;
          memory_usage ← GetMemoryUsage profile max_batch;
          let config := set_batch max_batch config in
          let config := set_max_batch max_batch config in
          let config := set_forward_latency fwd_latency config in
          stored ← f_to_uint32 fwd_latency;
          let config := set_memory_usage stored config in
          let config := set_throughput (f32_of_Z max_throughput) config in
          let config := set_workload (f32_of_Z max_throughput) config in
          Ret (config, f32_of_Z 1)
        else
          let preprocess := GetPreprocessLatency profile in
          let postprocess := GetPostprocessLatency profile in
          left ← residue_loop (S (S (Z.to_nat max_batch))) profile preprocess
                   postprocess latency_sla_us workload max_batch 1;
          let batch := wrap32 (left - 1) in
          if batch =? 0 then Ret (set_batch 0 config, occupancy)
          else
            fwd_lat ← GetForwardLatency profile batch;
            mem ← GetMemoryUsage profile batch;
            let memory_usage := wrap32 mem in
            let duty_cycle :=
              residue_duty_cycle latency_sla_us fwd_lat preprocess postprocess in
            let throughput := batch_throughput batch duty_cycle in
            let config := set_batch batch config in
            let config := set_max_batch max_batch config in
            let config := set_forward_latency fwd_lat config in
            let config := set_memory_usage memory_usage config in
            let config := set_throughput throughput config in
            let config := set_workload workload config in
            Ret (config, f32_div fwd_lat duty_cycle)
      else
        if f_eqb workload fzero then Ret (set_batch 0 config, occupancy)
        else Ret (set_batch 0 config, occupancy)
  end.

(** *** LoadModel *)

(** [latency_sla() * 1e3 - exec_cycle_us_], computed in [double] and stored
    in a [float]. *)
Definition sla_minus_exec (sess : ModelSession) (exec : float) : float :=
  f32_of_f64 (f64_sub (f64_mul (f64_of_Z (latency_sla sess)) (f64_of_Z 1000))
                      (f64_of_f32 exec)).

(** [LoadModel(const ModelInstanceConfig&)]. *)
Definition LoadModel (config : ModelInstanceConfig) (c : BackendRpcClient)
    : BackendRpcClient :=
  if f_gtb (exec_cycle_us c) fzero then c
  else
    let exec := forward_latency config in
    let duty := sla_minus_exec (model_session config) exec in
    {| node_id := node_id c; gpu_device := gpu_device c;
       exec_cycle_us := exec; duty_cycle_us := duty;
       model_table_config := model_table_config c ++ [config];
       dirty_model_table := true; last_time := last_time c |}.

(** One entry of the workload file, read through [YAML::Node]: the keys
    [framework], [model_name], [version], [latency_sla] and [batch] hold
    values of their types; the image size is optional. *)
Record WorkloadEntry : Type := {
  y_framework : string;
  y_model_name : string;
  y_version : Z;
  y_latency_sla : Z;
  y_image_height : option Z;
  y_image_width : option Z;
  y_batch : Z
}.

Definition entry_session (model_info : WorkloadEntry) : result ModelSession :=
  match y_image_height model_info with
  | None =>
      Ret {| framework := y_framework model_info;
             model_name := y_model_name model_info;
             version := y_version model_info;
             latency_sla := y_latency_sla model_info;
             image_height := 0; image_width := 0 |}
  | Some h =>
      match y_image_width model_info with
      | None => Throw YamlError
      | Some w =>
          Ret {| framework := y_framework model_info;
                 model_name := y_model_name model_info;
                 version := y_version model_info;
                 latency_sla := y_latency_sla model_info;
                 image_height := h; image_width := w |}
      end
  end.

(** The loop over [model_table_config_] that refreshes every entry's
    throughput and workload. *)
Definition refresh_throughput (duty_cycle : float) (cfg : ModelInstanceConfig)
    : ModelInstanceConfig :=
  let throughput := batch_throughput (batch cfg) duty_cycle in
  set_workload throughput (set_throughput throughput cfg).

(** [LoadModel(const YAML::Node&)].  [profile] is not tested before
    [profile->GetMemoryUsage(max_batch)]. *)
Definition LoadModel_yaml (db : ModelDatabase) (model_info : WorkloadEntry)
    (c : BackendRpcClient) : result BackendRpcClient :=
  sess ← entry_session model_info;
  let profile_id := ModelSessionToProfileID sess in
  let profile := db (gpu_device c) profile_id in
  let batch := y_batch model_info in
  let max_batch := batch in
  match profile with
  | None => Throw NullDeref
  | Some profile =>
      mem ← GetMemoryUsage profile max_batch;
      let memory_usage := wrap32 mem in
      fwd_latency ← GetForwardLatency profile batch;
      let config := set_model_session sess empty_config in
      let config := set_batch batch config in
      let config := set_max_batch max_batch config in
      let config := set_memory_usage memory_usage config in
      let config := set_forward_latency fwd_latency config in
      let exec := f32_add (exec_cycle_us c) fwd_latency in
      let duty := f32_add (duty_cycle_us c) fwd_latency in
      Ret {| node_id := node_id c; gpu_device := gpu_device c;
             exec_cycle_us := exec; duty_cycle_us := duty;
             model_table_config :=
               map (refresh_throughput duty) (model_table_config c ++ [config]);
             dirty_model_table := true; last_time := last_time c |}
  end.

(** *** UpdateModelTable *)

(** What [stub_->UpdateModelTable(&context, request, &reply)] comes back
    with: a transport failure, or a reply carrying a status. *)
Inductive RpcOutcome : Type :=
  | RpcFailed (error_code : Z)
  | RpcReplied (status : CtrlStatus).

(** The remote end, as far as this client sees it. *)
Definition BackendStub : Type := list ModelInstanceConfig -> RpcOutcome.

Definition GetModelTableNoLock (c : BackendRpcClient)
    (model_table : list ModelInstanceConfig) : list ModelInstanceConfig :=
  fold_left (fun acc model_config => acc ++ [model_config])
            (model_table_config c) model_table.

(** The result carries the client afterwards, the returned status and the
    requests that went out over the control RPC. *)
Definition UpdateModelTable (stub : BackendStub) (now : Z) (c : BackendRpcClient)
    : BackendRpcClient * CtrlStatus * list (list ModelInstanceConfig) :=
  if negb (dirty_model_table c) then (c, CTRL_OK, [])
  else
    let request := GetModelTableNoLock c [] in
    match stub request with
    | RpcFailed _ => (c, CTRL_SERVER_UNREACHABLE, [request])
    | RpcReplied status =>
        let dirty :=
          if CtrlStatus_eqb status CTRL_OK then false else dirty_model_table c in
        ({| node_id := node_id c; gpu_device := gpu_device c;
            exec_cycle_us := exec_cycle_us c; duty_cycle_us := duty_cycle_us c;
            model_table_config := model_table_config c;
            dirty_model_table := dirty; last_time := now |},
         status, [request])
    end.

(** ** Data model of the backend *)

(** A time point of [Clock], counted in microseconds. *)
Definition TimePoint : Type := Z.

(** Tasks live on the heap and are held through [std::shared_ptr]: the
    processing map, a batch and the postprocess queue all name the same
    object.  A pointer is the address of the task in [heap]. *)
Definition ptr : Type := positive.

Record Input : Type := {
  in_tid : Z;             (* [tid]: id of the owning task *)
  in_index : Z;           (* [index]: position among the task's inputs *)
  deadline : TimePoint
}.

Inductive Output : Type :=
  | RealOutput (index : Z) (payload : Z)
  | VirtualOutput (index : Z).

Inductive Stage : Type := kPreprocess | kExecute | kPostprocess | kDone.

Record Task : Type := {
  tid : Z;
  status : CtrlStatus;    (* [result.status()] *)
  inputs : list Input;
  outputs : list Output;  (* attached so far, in order of attachment *)
  stage : Stage;
  timer : list string     (* labels recorded, latest last *)
}.

Definition set_stage (s : Stage) (t : Task) : Task :=
  {| tid := tid t; status := status t; inputs := inputs t;
     outputs := outputs t; stage := s; timer := timer t |}.
Definition set_outputs (o : list Output) (t : Task) : Task :=
  {| tid := tid t; status := status t; inputs := inputs t;
     outputs := o; stage := stage t; timer := timer t |}.
Definition Record_timer (label : string) (t : Task) : Task :=
  {| tid := tid t; status := status t; inputs := inputs t;
     outputs := outputs t; stage := stage t; timer := timer t ++ [label] |}.

(** Modelled from the spec: the class [Task] is declared outside the
    sources.  "Every input produces exactly one output (real or virtual).  A
    task is complete when all its outputs are attached": attaching an output
    answers whether the task now has as many outputs as inputs. *)
Definition AddOutput (output : Output) (t : Task) : Task * bool :=
  let t' := set_outputs (outputs t ++ [output]) t in
  (t', (length (outputs t') =? length (inputs t'))%nat).

Definition AddVirtualOutput (i : Z) (t : Task) : Task * bool :=
  AddOutput (VirtualOutput i) t.

(** The part of [ModelInstance] the executor reads: the planned batch, the
    maximal batch, and the forward pass, which leaves one output per input
    of the batch. *)
Record ModelInstance : Type := {
  m_batch : Z;            (* [model_->batch()], uint32 *)
  m_max_batch : Z;        (* [model_->max_batch()], uint32 *)
  Forward : list Input -> list Output
}.

(** Modelled from the spec: [BatchTask] is declared outside the sources; "a
    batch id, ... a parallel list of (task, input-index) back-pointers, and
    output arrays". *)
Record BatchTask : Type := {
  bt_batch_id : Z;
  bt_max_batch : Z;
  bt_items : list (Input * ptr);     (* inputs appended, each with its task *)
  bt_outputs : list Output
}.

Definition new_BatchTask (id max : Z) : BatchTask :=
  {| bt_batch_id := id; bt_max_batch := max; bt_items := []; bt_outputs := [] |}.
Definition batch_size (b : BatchTask) : Z := Z.of_nat (length (bt_items b)).
Definition AppendInput (input : Input) (task : ptr) (b : BatchTask) : BatchTask :=
  {| bt_batch_id := bt_batch_id b; bt_max_batch := bt_max_batch b;
     bt_items := bt_items b ++ [(input, task)]; bt_outputs := bt_outputs b |}.
Definition set_bt_outputs (o : list Output) (b : BatchTask) : BatchTask :=
  {| bt_batch_id := bt_batch_id b; bt_max_batch := bt_max_batch b;
     bt_items := bt_items b; bt_outputs := o |}.

(** What an observer of the executor sees happen. *)
Inductive Event : Type :=
  | BatchCreated (batch_id : Z)
  | ForwardRun (batch_id : Z) (size : Z).

(** The executor with the objects it shares: the heap of tasks and the
    postprocess queue [task_queue_], both reached through references.
    [events] is a ghost history, latest last.  The calls are modelled one at
    a time; the mutex [mu_] is not part of the state. *)
Record ModelExecutor : Type := {
  model_ : ModelInstance;
  profile_ : option ModelProfile;
  input_queue_ : list Input;           (* earliest deadline first *)
  processing_tasks_ : gmap Z ptr;
  batch_id_ : Z;                       (* atomic uint64 *)
  task_queue_ : list ptr;              (* tasks pushed, in order of pushing *)
  heap : gmap ptr Task;
  events : list Event
}.

Definition set_input_queue (q : list Input) (ex : ModelExecutor) : ModelExecutor :=
  {| model_ := model_ ex; profile_ := profile_ ex; input_queue_ := q;
     processing_tasks_ := processing_tasks_ ex; batch_id_ := batch_id_ ex;
     task_queue_ := task_queue_ ex; heap := heap ex; events := events ex |}.
Definition set_processing_tasks (m : gmap Z ptr) (ex : ModelExecutor) : ModelExecutor :=
  {| model_ := model_ ex; profile_ := profile_ ex; input_queue_ := input_queue_ ex;
     processing_tasks_ := m; batch_id_ := batch_id_ ex;
     task_queue_ := task_queue_ ex; heap := heap ex; events := events ex |}.
Definition set_batch_id (id : Z) (ex : ModelExecutor) : ModelExecutor :=
  {| model_ := model_ ex; profile_ := profile_ ex; input_queue_ := input_queue_ ex;
     processing_tasks_ := processing_tasks_ ex; batch_id_ := id;
     task_queue_ := task_queue_ ex; heap := heap ex; events := events ex |}.
Definition set_task_queue (q : list ptr) (ex : ModelExecutor) : ModelExecutor :=
  {| model_ := model_ ex; profile_ := profile_ ex; input_queue_ := input_queue_ ex;
     processing_tasks_ := processing_tasks_ ex; batch_id_ := batch_id_ ex;
     task_queue_ := q; heap := heap ex; events := events ex |}.
Definition set_heap (h : gmap ptr Task) (ex : ModelExecutor) : ModelExecutor :=
  {| model_ := model_ ex; profile_ := profile_ ex; input_queue_ := input_queue_ ex;
     processing_tasks_ := processing_tasks_ ex; batch_id_ := batch_id_ ex;
     task_queue_ := task_queue_ ex; heap := h; events := events ex |}.
Definition log_event (e : Event) (ex : ModelExecutor) : ModelExecutor :=
  {| model_ := model_ ex; profile_ := profile_ ex; input_queue_ := input_queue_ ex;
     processing_tasks_ := processing_tasks_ ex; batch_id_ := batch_id_ ex;
     task_queue_ := task_queue_ ex; heap := heap ex; events := events ex ++ [e] |}.

(** The state the constructor leaves, given the heap and the queue it is
    handed. *)
Definition new_executor (model : ModelInstance) (profile : option ModelProfile)
    (queue : list ptr) (h : gmap ptr Task) : ModelExecutor :=
  {| model_ := model; profile_ := profile; input_queue_ := [];
     processing_tasks_ := ∅; batch_id_ := 0; task_queue_ := queue;
     heap := h; events := [] |}.

(** [*task], for a task held by pointer. *)
Definition deref (task : ptr) (ex : ModelExecutor) : result Task :=
  match heap ex !! task with
  | Some t => Ret t
  | None => Throw NullDeref
  end.

Definition store (task : ptr) (t : Task) (ex : ModelExecutor) : ModelExecutor :=
  set_heap (<[task := t]> (heap ex)) ex.

(** Modelled from the spec: the comparator of [input_queue_] is declared
    outside the sources; the queue is "ordered by earliest deadline first",
    "the comparator being ascending deadline; tie-break by task id then input
    index".  [input_before x y]: [x] comes out before [y]. *)
Definition input_before (x y : Input) : bool :=
  (deadline x <? deadline y)
  || ((deadline x =? deadline y)
      && ((in_tid x <? in_tid y)
          || ((in_tid x =? in_tid y) && (in_index x <? in_index y)))).

(** [pq_push] keeps the list in the order of the comparator, so that [top]
    is its head. *)
Fixpoint pq_push (x : Input) (q : list Input) : list Input :=
  match q with
  | [] => [x]
  | y :: q' => if input_before x y then x :: q else y :: pq_push x q'
  end.

(** ** ModelExecutor *)

(** [processing_tasks_.emplace(tid, task)] leaves the map as it is when the
    key is taken. *)
Definition emplace (k : Z) (task : ptr) (m : gmap Z ptr) : gmap Z ptr :=
  match m !! k with
  | Some _ => m
  | None => <[k := task]> m
  end.

Definition AddTask (task : ptr) (ex : ModelExecutor) : result ModelExecutor :=
  t ← deref task ex;
  let ex := set_processing_tasks (emplace (tid t) task (processing_tasks_ ex)) ex in
  Ret (set_input_queue
         (fold_left (fun q input => pq_push input q) (inputs t) (input_queue_ ex))
         ex).

Definition RemoveTask (task : ptr) (ex : ModelExecutor) : result ModelExecutor :=
  t ← deref task ex;
  let ex := store task (set_stage kPostprocess t) ex in
  let ex := set_task_queue (task_queue_ ex ++ [task]) ex in
  Ret (set_processing_tasks (delete (tid t) (processing_tasks_ ex)) ex).

(** [min(input_queue_.size(), model_->batch())]. *)
Definition batch_size_limit (ex : ModelExecutor) : Z :=
  let n := Z.of_nat (length (input_queue_ ex)) in
  if n >? m_batch (model_ ex) then m_batch (model_ ex) else n.

(** [finish = Clock::now() + std::chrono::microseconds(int(latency))] when a
    profile is present; without one [finish] stays default-constructed and
    is not read. *)
Definition finish_time (now : TimePoint) (ex : ModelExecutor) (size : Z)
    : result TimePoint :=
  match profile_ ex with
  | Some profile =>
      latency ← GetForwardLatency profile size;
      us ← f_to_int latency;
      Ret (now + us)
  | None => Ret 0
  end.

(** The test that turns a popped input into a virtual output. *)
Definition dropped (ex : ModelExecutor) (finish : TimePoint) (t : Task)
    (input : Input) : bool :=
  negb (CtrlStatus_eqb (status t) CTRL_OK)
  || (bool_decide (is_Some (profile_ ex)) && (deadline input <? finish)).

(** The body of the loop, for the input just popped. *)
Definition process_input (finish : TimePoint) (input : Input)
    (ex : ModelExecutor) (batch_task : BatchTask)
    : result (ModelExecutor * BatchTask) :=
  match processing_tasks_ ex !! in_tid input with
  | None => Throw OutOfRange
  | Some task =>
      t ← deref task ex;
      let t := Record_timer "exec" t in
      let ex := store task t ex in
      if dropped ex finish t input then
        let '(t', complete) := AddVirtualOutput (in_index input) t in
        let ex := store task t' ex in
        if complete then
          ex' ← RemoveTask task ex;
          Ret (ex', batch_task)
        else Ret (ex, batch_task)
      else Ret (ex, AppendInput input task batch_task)
  end.

(** [while (batch_task->batch_size() < batch_size && !input_queue_.empty())],
    by recursion on the queue, which loses its head at every turn. *)
Fixpoint batch_loop (queue : list Input) (size : Z) (finish : TimePoint)
    (ex : ModelExecutor) (batch_task : BatchTask)
    : result (ModelExecutor * BatchTask) :=
  match queue with
  | [] => Ret (ex, batch_task)
  | input :: rest =>
      if batch_size batch_task <? size then
        r ← process_input finish input (set_input_queue rest ex) batch_task;
        batch_loop rest size finish (fst r) (snd r)
      else Ret (ex, batch_task)
  end.

Definition GetBatchInput (now : TimePoint) (ex : ModelExecutor)
    (batch_task : BatchTask) : result (ModelExecutor * BatchTask) :=
  let size := batch_size_limit ex in
  finish ← finish_time now ex size;
  batch_loop (input_queue_ ex) size finish ex batch_task.

(** The loop over the outputs of the forward pass; [tasks[i]] past the end
    of [tasks] is undefined. *)
Fixpoint fan_out (outs : list Output) (tasks : list ptr) (ex : ModelExecutor)
    : result ModelExecutor :=
  match outs with
  | [] => Ret ex
  | output :: outs' =>
      match tasks with
      | [] => Throw Undefined
      | task :: tasks' =>
          t ← deref task ex;
          let '(t', complete) := AddOutput output t in
          let ex := store task t' ex in
          ex' ← (if complete then RemoveTask task ex else Ret ex);
          fan_out outs' tasks' ex'
      end
  end.

(** [batch_id_.fetch_add(1)] and the construction of the batch task. *)
Definition allocate_batch (ex : ModelExecutor) : ModelExecutor * BatchTask :=
  let batch_id := batch_id_ ex in
  let ex := set_batch_id (wrap64 (batch_id + 1)) ex in
  (log_event (BatchCreated batch_id) ex,
   new_BatchTask batch_id (m_max_batch (model_ ex))).

Definition Execute (now : TimePoint) (ex : ModelExecutor) : result ModelExecutor :=
  let '(ex, batch_task) := allocate_batch ex in
  r ← GetBatchInput now ex batch_task;
  let '(ex, batch_task) := r in
  if batch_size batch_task =? 0 then Ret ex
  else
    let batch_task :=
      set_bt_outputs (Forward (model_ ex) (map fst (bt_items batch_task)))
                     batch_task in
    let ex := log_event (ForwardRun (bt_batch_id batch_task) (batch_size batch_task))
                        ex in
    fan_out (bt_outputs batch_task) (map snd (bt_items batch_task)) ex.

(** * Properties

    The notions the statements below are written with. *)

(** ** Of the scheduler *)

(** [residue_ok ... b]: batch [b] is in the profile and passes the test of
    the loop, that is, the sum is not greater than the SLA. *)
Definition residue_ok (profile : ModelProfile) (preprocess postprocess : Z)
    (latency_sla_us workload : float) (b : Z) : bool :=
  match GetForwardLatency profile b with
  | Ret fwd_lat =>
      negb (exceeds_sla preprocess postprocess latency_sla_us workload b fwd_lat)
  | Throw _ => false
  end.

(** The batch the claim describes: the largest of [1, max_batch] that passes,
    or 0 when none passes. *)
Definition largest_residue_batch (profile : ModelProfile) (preprocess postprocess : Z)
    (latency_sla_us workload : float) (max_batch b : Z) : Prop :=
  (1 <= b <= max_batch /\
   residue_ok profile preprocess postprocess latency_sla_us workload b = true /\
   forall b', b < b' <= max_batch ->
     residue_ok profile preprocess postprocess latency_sla_us workload b' = false)
  \/
  (b = 0 /\
   forall b', 1 <= b' <= max_batch ->
     residue_ok profile preprocess postprocess latency_sla_us workload b' = false).

(** The claim: on an idle backend, with a profile and
    [0 < workload < max_throughput], the batch of the returned config is the
    largest that passes. *)
Definition residue_batch_is_largest : Prop :=
  forall (db : ModelDatabase) (c : BackendRpcClient) (model_sess : ModelSession)
         (workload : float) (config : ModelInstanceConfig) (occupancy : float)
         (profile : ModelProfile) (max_batch : Z) (tp : float)
         (max_throughput : Z) (config' : ModelInstanceConfig) (occupancy' : float),
    db (gpu_device c) (ModelSessionToProfileID model_sess) = Some profile ->
    f_eqb (exec_cycle_us c) fzero = true ->
    GetMaxThroughput profile (latency_sla model_sess) = (max_batch, tp) ->
    f_to_uint32 tp = Ret max_throughput ->
    f_ltb fzero workload = true ->
    f_ltb workload (f32_of_Z max_throughput) = true ->
    PrepareLoadModel db c model_sess workload config occupancy
      = Ret (config', occupancy') ->
    largest_residue_batch profile (GetPreprocessLatency profile)
      (GetPostprocessLatency profile) (sla_us_of model_sess) workload
      max_batch (batch config').

(** The invariant of section 3 for a record with exactly one loaded config. *)
Definition single_model_invariant (c : BackendRpcClient) : Prop :=
  forall cfg, model_table_config c = [cfg] ->
    exec_cycle_us c = forward_latency cfg /\
    duty_cycle_us c = sla_minus_exec (model_session cfg) (exec_cycle_us c).

(** ** Of the executor *)

(** [same_frame ex ex']: the model, the profile, the batch counter and the
    history are the same in both states. *)
Definition same_frame (ex ex' : ModelExecutor) : Prop :=
  model_ ex' = model_ ex /\ profile_ ex' = profile_ ex /\
  batch_id_ ex' = batch_id_ ex /\ events ex' = events ex.

(** What the loop does with the input it has just popped, between the state
    [ex] before and [ex'] after: the owning task [t], held at [task], gets a
    virtual output at the input's index when its status is not OK or when a
    profile is present and the deadline is before [finish], and is removed to
    postprocess when that output completes it; otherwise the input is
    appended to the batch. *)
Definition popped_input_outcome (finish : TimePoint) (input : Input)
    (ex : ModelExecutor) (bt : BatchTask) (ex' : ModelExecutor) (bt' : BatchTask)
    : Prop :=
  exists (task : ptr) (t : Task),
    processing_tasks_ ex !! in_tid input = Some task /\
    heap ex !! task = Some t /\
    let t1 := Record_timer "exec" t in
    let t2 := set_outputs (outputs t ++ [VirtualOutput (in_index input)]) t1 in
    if negb (CtrlStatus_eqb (status t) CTRL_OK)
       || (bool_decide (is_Some (profile_ ex)) && (deadline input <? finish))
    then
      bt' = bt /\
      if (length (outputs t2) =? length (inputs t))%nat
      then heap ex' = <[task := set_stage kPostprocess t2]> (heap ex) /\
           task_queue_ ex' = task_queue_ ex ++ [task] /\
           processing_tasks_ ex' = delete (tid t) (processing_tasks_ ex)
      else heap ex' = <[task := t2]> (heap ex) /\
           task_queue_ ex' = task_queue_ ex /\
           processing_tasks_ ex' = processing_tasks_ ex
    else
      bt' = AppendInput input task bt /\
      heap ex' = <[task := t1]> (heap ex) /\
      task_queue_ ex' = task_queue_ ex /\
      processing_tasks_ ex' = processing_tasks_ ex.

(** [handled size finish popped ex bt ex' bt']: from the state [ex] and the
    batch [bt] the loop takes the inputs [popped], one turn each and in this
    order, to the state [ex'] and the batch [bt'].  Every turn starts with a
    batch below [size] and does to its input what [popped_input_outcome] says
    for the cutoff [finish]; the profile stays the same.  The input queue is
    not part of the relation. *)
Fixpoint handled (size : Z) (finish : TimePoint) (popped : list Input)
    (ex : ModelExecutor) (bt : BatchTask) (ex' : ModelExecutor) (bt' : BatchTask)
    : Prop :=
  match popped with
  | [] =>
      bt' = bt /\ heap ex' = heap ex /\ task_queue_ ex' = task_queue_ ex /\
      processing_tasks_ ex' = processing_tasks_ ex
  | input :: rest =>
      batch_size bt < size /\
      exists ex1 bt1,
        popped_input_outcome finish input ex bt ex1 bt1 /\
        profile_ ex1 = profile_ ex /\
        handled size finish rest ex1 bt1 ex' bt'
  end.

(** The batch ids handed out, and the forward passes run, in order. *)
Definition created_ids (evs : list Event) : list Z :=
  omap (fun e => match e with
                 | BatchCreated id => Some id
                 | ForwardRun _ _ => None
                 end) evs.

Definition forward_runs (evs : list Event) : list (Z * Z) :=
  omap (fun e => match e with
                 | BatchCreated _ => None
                 | ForwardRun id size => Some (id, size)
                 end) evs.

(** The states an executor goes through: from its constructor, by its own
    three operations, and by what the other holders of the tasks and of the
    postprocess queue do to them. *)
Inductive reachable : ModelExecutor -> Prop :=
  | reach_new (model : ModelInstance) (profile : option ModelProfile)
      (queue : list ptr) (h : gmap ptr Task) :
      reachable (new_executor model profile queue h)
  | reach_AddTask (task : ptr) (ex ex' : ModelExecutor) :
      reachable ex -> AddTask task ex = Ret ex' -> reachable ex'
  | reach_Execute (now : TimePoint) (ex ex' : ModelExecutor) :
      reachable ex -> Execute now ex = Ret ex' -> reachable ex'
  | reach_RemoveTask (task : ptr) (ex ex' : ModelExecutor) :
      reachable ex -> RemoveTask task ex = Ret ex' -> reachable ex'
  | reach_others (queue : list ptr) (h : gmap ptr Task) (ex : ModelExecutor) :
      reachable ex -> reachable (set_task_queue queue (set_heap h ex)).

(** The input queue is in order when the deadlines never decrease from the
    head on. *)
Definition deadline_sorted (q : list Input) : Prop :=
  Sorted (fun a b => deadline a <= deadline b) q.

(** [pending k l]: how many inputs of [l] belong to task [k]. *)
Definition pending (k : Z) (l : list Input) : nat :=
  length (filter (fun i => in_tid i = k) l).

(** The accounting that ties the executor together while [items] are in the
    batch under construction: every task of the processing map is on the
    heap under its own id, and its inputs are each in exactly one place, in
    the input queue, in the batch, or answered by an output; no two ids share
    a task; every queued input and every input of the batch has its task in
    the map. *)
Record accounted (ex : ModelExecutor) (items : list (Input * ptr)) : Prop := {
  acc_tasks : forall k p,
    processing_tasks_ ex !! k = Some p ->
    exists t, heap ex !! p = Some t /\ tid t = k /\
      (pending k (input_queue_ ex) + pending k (items.*1) + length (outputs t)
       = length (inputs t))%nat;
  acc_inj : forall k1 k2 p,
    processing_tasks_ ex !! k1 = Some p ->
    processing_tasks_ ex !! k2 = Some p -> k1 = k2;
  acc_queue : forall i,
    i ∈ input_queue_ ex -> is_Some (processing_tasks_ ex !! in_tid i);
  acc_items : forall i p,
    (i, p) ∈ items -> processing_tasks_ ex !! in_tid i = Some p
}.

Definition well_formed (ex : ModelExecutor) : Prop := accounted ex [].

(** The conditions under which the queries of batch formation succeed: no
    profile, or a profile with a row for the batch size whose latency fits an
    [int]. *)
Definition finish_defined (now : TimePoint) (ex : ModelExecutor) : Prop :=
  returns (finish_time now ex (batch_size_limit ex)).

(** The forward pass answers every input of the batch. *)
Definition forward_total (ex : ModelExecutor) : Prop :=
  forall ins, length (Forward (model_ ex) ins) = length ins.

(** The claim: [AddTask] fails exactly on a duplicate task id. *)
Definition AddTask_fails_iff_duplicate : Prop :=
  forall (task : ptr) (ex : ModelExecutor) (t : Task),
    heap ex !! task = Some t ->
    ((exists e, AddTask task ex = Throw e) <->
     is_Some (processing_tasks_ ex !! tid t)).

(** The claim: a second [RemoveTask] of the same task leaves the processing
    map and the postprocess queue as the first call left them. *)
Definition RemoveTask_idempotent : Prop :=
  forall (task : ptr) (ex ex1 ex2 : ModelExecutor),
    RemoveTask task ex = Ret ex1 ->
    RemoveTask task ex1 = Ret ex2 ->
    processing_tasks_ ex2 = processing_tasks_ ex1 /\
    task_queue_ ex2 = task_queue_ ex1.

(** The claim: with a profile, every input of the batch is due no earlier
    than the start of the batch plus the forward latency of the batch
    size. *)
Definition batch_meets_forward_latency : Prop :=
  forall (now : TimePoint) (ex ex' : ModelExecutor) (bt bt' : BatchTask)
         (p : ModelProfile) (latency : float),
    profile_ ex = Some p ->
    bt_items bt = [] ->
    GetForwardLatency p (batch_size_limit ex) = Ret latency ->
    GetBatchInput now ex bt = Ret (ex', bt') ->
    forall input task, (input, task) ∈ bt_items bt' ->
      plus_f_le now latency (deadline input).

(** The claim: an [Execute] that runs no forward pass changes nothing but
    the batch counter. *)
Definition empty_Execute_only_allocates : Prop :=
  forall (now : TimePoint) (ex ex' : ModelExecutor),
    Execute now ex = Ret ex' ->
    forward_runs (events ex') = forward_runs (events ex) ->
    ex' = fst (allocate_batch ex).

(** ** Concrete profiles, clients and executors *)

Module Examples.

(** The profile of the specification's scenarios 1 and 2: forward(1) = 5000,
    forward(2) = 7000, ..., forward(8) = 20000 microseconds; preprocess and
    postprocess take 1000 microseconds each. *)
Definition scenario_profile : ModelProfile :=
  {| forward_table :=
       [ (f32_of_Z 5000, 100); (f32_of_Z 7000, 200); (f32_of_Z 9000, 300);
         (f32_of_Z 11000, 400); (f32_of_Z 13000, 500); (f32_of_Z 15000, 600);
         (f32_of_Z 17000, 700); (f32_of_Z 20000, 800) ];
     preprocess_latency := 1000;
     postprocess_latency := 1000 |}.

(** A profile whose forward latency is not monotone in the batch. *)
Definition bumpy_profile : ModelProfile :=
  {| forward_table :=
       [ (f32_of_Z 5000, 100); (f32_of_Z 30000, 200); (f32_of_Z 6000, 300) ];
     preprocess_latency := 1000;
     postprocess_latency := 1000 |}.

Definition session (sla_ms : Z) : ModelSession :=
  {| framework := "tensorflow"; model_name := "resnet"; version := 1;
     latency_sla := sla_ms; image_height := 0; image_width := 0 |}.

Definition db_of (p : ModelProfile) : ModelDatabase :=
  fun gpu profile_id =>
    if String.eqb gpu "gpu0" && String.eqb profile_id "tensorflow:resnet:1"
    then Some p else None.

Definition scenario_db : ModelDatabase := db_of scenario_profile.
Definition bumpy_db : ModelDatabase := db_of bumpy_profile.

Definition idle_client : BackendRpcClient := new_client 1 "gpu0" 0.

(** The client after the dynamic [LoadModel] of a plan with a forward
    latency of 5000 microseconds: one config, table dirty. *)
Definition loaded_client : BackendRpcClient :=
  LoadModel (set_forward_latency (f32_of_Z 5000) empty_config) idle_client.

(** A database without any profile. *)
Definition empty_db : ModelDatabase := fun _ _ => None.

Definition entry (sla_ms b : Z) : WorkloadEntry :=
  {| y_framework := "tensorflow"; y_model_name := "resnet"; y_version := 1;
     y_latency_sla := sla_ms; y_image_height := None; y_image_width := None;
     y_batch := b |}.

Definition input_of (id d : Z) : Input :=
  {| in_tid := id; in_index := 0; deadline := d |}.

(** A task with one input, due at [d]. *)
Definition task_of (id : Z) (st : CtrlStatus) (d : TimePoint) : Task :=
  {| tid := id; status := st; inputs := [input_of id d]; outputs := [];
     stage := kExecute; timer := [] |}.

Definition echo_model (b : Z) : ModelInstance :=
  {| m_batch := b; m_max_batch := b;
     Forward := fun ins => map (fun i => RealOutput (in_index i) 0) ins |}.

(** Two tasks on the heap that carry the same task id 7. *)
Definition twin_heap : gmap ptr Task :=
  <[2%positive := task_of 7 CTRL_OK 200]> (<[1%positive := task_of 7 CTRL_OK 100]> ∅).

Definition fresh_executor : ModelExecutor :=
  new_executor (echo_model 4) None [] twin_heap.

(** The executor after [AddTask] of the first twin. *)
Definition holding_executor : ModelExecutor :=
  set_input_queue [input_of 7 100]
    (set_processing_tasks (<[7 := 1%positive]> ∅) fresh_executor).

(** forward(1) = 10000.5 microseconds. *)
Definition half_profile : ModelProfile :=
  {| forward_table := [(f32_round 20001 (-1), 100)];
     preprocess_latency := 1000; postprocess_latency := 1000 |}.

(** One task in flight, with [st] as its status and its one input due at
    [d], in an executor that plans batches of one. *)
Definition single_executor (profile : option ModelProfile) (st : CtrlStatus)
    (d : TimePoint) : ModelExecutor :=
  set_input_queue [input_of 7 d]
    (set_processing_tasks (<[7 := 1%positive]> ∅)
       (new_executor (echo_model 1) profile []
          (<[1%positive := task_of 7 st d]> ∅))).

(** An executor without a profile, just constructed. *)
Definition idle_executor : ModelExecutor :=
  new_executor (echo_model 4) None [] ∅.

End Examples.

(** * The rest of the two classes, and the profiler's statistics *)

(** ** BackendRpcClient: liveness, idleness, reading the table *)

Definition set_last_time (t : Z) (c : BackendRpcClient) : BackendRpcClient :=
  {| node_id := node_id c; gpu_device := gpu_device c;
     exec_cycle_us := exec_cycle_us c; duty_cycle_us := duty_cycle_us c;
     model_table_config := model_table_config c;
     dirty_model_table := dirty_model_table c; last_time := t |}.

(** [GetModelTable]: [GetModelTableNoLock] under the lock. *)
Definition GetModelTable (c : BackendRpcClient)
    (model_table : list ModelInstanceConfig) : list ModelInstanceConfig :=
  GetModelTableNoLock c model_table.

(** [UpdateStats]: the statistics are not read. *)
Definition UpdateStats {Stats : Type} (stats : Stats) (now : Z)
    (c : BackendRpcClient) : BackendRpcClient :=
  set_last_time now c.

Definition IsIdle (c : BackendRpcClient) : bool := f_eqb (exec_cycle_us c) fzero.

Inductive NodeType : Type := BACKEND_NODE | FRONTEND_NODE.

Record CheckAliveRequest : Type := {
  ca_node_type : NodeType;
  ca_node_id : Z
}.

(** What [stub_->CheckAlive] answers to a request. *)
Definition CheckAliveStub : Type := CheckAliveRequest -> RpcOutcome.

(** [IsAlive].  [timeout] is the member [timeout_], which the constructor
    sets and nothing changes, in the unit of [last_time]; [now] is the clock
    at entry and [now'] the clock after the RPC.  The result carries the
    client afterwards, the answer and the requests sent. *)
Definition IsAlive (timeout : Z) (stub : CheckAliveStub) (now now' : Z)
    (c : BackendRpcClient) : BackendRpcClient * bool * list CheckAliveRequest :=
  let elapse := now - last_time c in
  if elapse <? timeout then (c, true, [])
  else
    let request := {| ca_node_type := BACKEND_NODE; ca_node_id := node_id c |} in
    match stub request with
    | RpcFailed _ => (c, false, [request])
    | RpcReplied _ => (set_last_time now' c, true, [request])
    end.

(** ** The profiler: [ModelProfiler::GetStats] *)

Definition f32_mul : float -> float -> float := SFmul 24 128.

(** [sqrt], the [double] function of [<cmath>], on a [float] argument and
    stored in a [float]. *)
Definition f32_sqrt (x : float) : float :=
  f32_of_f64 (SFsqrt 53 1024 (f64_of_f32 x)).

(** [for (...) mean += lats[i]]. *)
Definition sum_lats (lats : list Z) (mean : float) : float :=
  fold_left (fun acc x => f32_add acc (f32_of_Z x)) lats mean.

(** [for (...) std += (lats[i] - mean) * (lats[i] - mean)]. *)
Definition sum_squares (lats : list Z) (mean std : float) : float :=
  fold_left (fun acc x =>
               f32_add acc (f32_mul (f32_sub (f32_of_Z x) mean)
                                    (f32_sub (f32_of_Z x) mean)))
            lats std.

(** [GetStats<uint64_t>]: the mean and the standard deviation of the
    measured latencies.  [lats.size()] is a [size_t]: [lats.size() - 1] wraps
    at 64 bits. *)
Definition GetStats (lats : list Z) : float * float :=
  let size := Z.of_nat (length lats) in
  let mean := sum_lats lats fzero in
  let mean := f32_div mean (f32_of_Z size) in
  let std := sum_squares lats mean fzero in
  let std := f32_sqrt (f32_div std (f32_of_Z (wrap64 (size - 1)))) in
  (mean, std).

Definition f_is_finite (x : spec_float) : bool :=
  match x with
  | S754_zero _ | S754_finite _ _ _ => true
  | S754_infinity _ | S754_nan => false
  end.

(** ** Notions for the statements about the rest of the code *)

(** What the static loader keeps, load after load: the exec cycle is the sum
    of the forward latencies of the table, added in the order of loading; the
    duty cycle is the exec cycle; every config serves, and is offered,
    [batch * 1e6 / duty_cycle_us] requests per second. *)
Definition static_invariant (c : BackendRpcClient) : Prop :=
  exec_cycle_us c
    = fold_left f32_add (map forward_latency (model_table_config c)) fzero /\
  duty_cycle_us c = exec_cycle_us c /\
  Forall (fun cfg =>
            throughput cfg = batch_throughput (batch cfg) (duty_cycle_us c) /\
            workload cfg = throughput cfg)
         (model_table_config c).

(** ** Notions for the statements about the rest of the executor *)

(** [batch_item ex finish input]: what the loop of [GetBatchInput] appends to
    the batch for a popped input: the input with the task registered under
    its id, when that task is on the heap and the input is not dropped. *)
Definition batch_item (ex : ModelExecutor) (finish : TimePoint) (input : Input)
    : option (Input * ptr) :=
  match processing_tasks_ ex !! in_tid input with
  | Some task =>
      match heap ex !! task with
      | Some t => if dropped ex finish t input then None else Some (input, task)
      | None => None
      end
  | None => None
  end.

(** [registered ex input]: the id of the input leads to a task on the
    heap. *)
Definition registered (ex : ModelExecutor) (input : Input) : Prop :=
  exists task t,
    processing_tasks_ ex !! in_tid input = Some task /\ heap ex !! task = Some t.

(** [later ex0 ex]: [ex] comes after [ex0] in a run of the executor: the
    profile is the same, the processing map has only lost entries, and every
    task has kept its status. *)
Definition later (ex0 ex : ModelExecutor) : Prop :=
  profile_ ex = profile_ ex0 /\
  (forall k p, processing_tasks_ ex !! k = Some p ->
               processing_tasks_ ex0 !! k = Some p) /\
  (forall p, status <$> heap ex !! p = status <$> heap ex0 !! p).

(** A task is complete when it has as many outputs as inputs. *)
Definition complete (t : Task) : Prop :=
  length (outputs t) = length (inputs t).

(** [tidy ex]: every task of the processing map is on the heap under its
    own id, and no two ids share a task. *)
Definition tidy (ex : ModelExecutor) : Prop :=
  (forall k p, processing_tasks_ ex !! k = Some p ->
     exists t, heap ex !! p = Some t /\ tid t = k) /\
  (forall k1 k2 p, processing_tasks_ ex !! k1 = Some p ->
     processing_tasks_ ex !! k2 = Some p -> k1 = k2).

(** [busy ex]: every task of the processing map still waits for an
    output. *)
Definition busy (ex : ModelExecutor) : Prop :=
  forall k p t, processing_tasks_ ex !! k = Some p -> heap ex !! p = Some t ->
    ~ complete t.

(** [in_service ex]: the executor is well formed and busy. *)
Definition in_service (ex : ModelExecutor) : Prop :=
  well_formed ex /\ busy ex.

(** Every task on the heap has status OK. *)
Definition healthy (ex : ModelExecutor) : Prop :=
  forall p t, heap ex !! p = Some t -> status t = CTRL_OK.

(** [handed_over ex ex' pushed]: between [ex] and [ex'] the tasks [pushed]
    went to postprocessing, each once: they are the tasks that left the
    processing map, which lost nothing else and gained nothing, and each is
    complete and marked for postprocessing in [ex']. *)
Definition handed_over (ex ex' : ModelExecutor) (pushed : list ptr) : Prop :=
  task_queue_ ex' = task_queue_ ex ++ pushed /\
  NoDup pushed /\
  (forall k p, processing_tasks_ ex' !! k = Some p ->
     processing_tasks_ ex !! k = Some p /\ p ∉ pushed) /\
  (forall p, p ∈ pushed ->
     exists k t, processing_tasks_ ex !! k = Some p /\
       processing_tasks_ ex' !! k = None /\
       heap ex' !! p = Some t /\ tid t = k /\
       stage t = kPostprocess /\ complete t) /\
  (forall k p, processing_tasks_ ex !! k = Some p ->
     processing_tasks_ ex' !! k = None -> p ∈ pushed).

(** What one turn of either loop of [Execute] does to the tasks: it rewrites
    one task [t] of the processing map, which was waiting for an output, and
    either leaves it in the map, still incomplete, or, the task being
    complete, marks it for postprocessing, pushes it and erases its id. *)
Definition step_effect (ex ex' : ModelExecutor) : Prop :=
  exists k p t t',
    processing_tasks_ ex !! k = Some p /\ heap ex !! p = Some t /\ tid t = k /\
    ~ complete t /\
    heap ex' = <[p := t']> (heap ex) /\ tid t' = k /\
    ((processing_tasks_ ex' = processing_tasks_ ex /\
      task_queue_ ex' = task_queue_ ex /\ ~ complete t') \/
     (processing_tasks_ ex' = delete k (processing_tasks_ ex) /\
      task_queue_ ex' = task_queue_ ex ++ [p] /\
      stage t' = kPostprocess /\ complete t')).

Module Scenes.

(** Three tasks in flight in an executor that plans batches of [b]: task 8
    has status [st] and one input, due at 100; task 9 has two inputs, due at
    200 and 400; task 7 has one input, due at 300. *)
Definition input_at (id i d : Z) : Input :=
  {| in_tid := id; in_index := i; deadline := d |}.

Definition task_with (id : Z) (st : CtrlStatus) (ins : list Input) : Task :=
  {| tid := id; status := st; inputs := ins; outputs := [];
     stage := kExecute; timer := [] |}.

Definition trio_heap (st : CtrlStatus) : gmap ptr Task :=
  <[3%positive := task_with 9 CTRL_OK [input_at 9 0 200; input_at 9 1 400]]>
    (<[2%positive := task_with 8 st [input_at 8 0 100]]>
       (<[1%positive := task_with 7 CTRL_OK [input_at 7 0 300]]> ∅)).

Definition trio_executor (b : Z) (st : CtrlStatus)
    (profile : option ModelProfile) : ModelExecutor :=
  set_input_queue
    [input_at 8 0 100; input_at 9 0 200; input_at 7 0 300; input_at 9 1 400]
    (set_processing_tasks
       (<[9 := 3%positive]> (<[8 := 2%positive]> (<[7 := 1%positive]> ∅)))
       (new_executor (Examples.echo_model b) profile [] (trio_heap st))).

(** A task without inputs, and an executor that has registered it. *)
Definition hollow_heap : gmap ptr Task :=
  <[1%positive := task_with 7 CTRL_OK []]> ∅.

Definition hollow_executor : ModelExecutor :=
  set_processing_tasks (<[7 := 1%positive]> ∅)
    (new_executor (Examples.echo_model 2) None [] hollow_heap).

End Scenes.

(** * Proof steps for the outcome monad *)

(** [run_bind] runs the outermost bind of the goal, once its argument is a
    [Ret] or a [Throw]; [run_binds] runs all of them. *)
Ltac run_bind := unfold mbind at 1, result_bind at 1; cbv zeta.
Ltac run_binds := unfold mbind, result_bind; cbv zeta.

(** * The scheduler *)

(** ** Facts about the comparisons *)

Lemma SFcompare_antisym (x y : spec_float) :
  SFcompare y x = option_map CompOpp (SFcompare x y).
Proof.
  destruct x as [sx|sx| |sx mx ex], y as [sy|sy| |sy my ey]; simpl;
    try reflexivity;
    try (destruct sx; reflexivity);
    try (destruct sy; reflexivity);
    try (destruct sx, sy; reflexivity).
  destruct sx, sy; simpl; try reflexivity;
    rewrite (Z.compare_antisym ey ex);
    destruct (ey ?= ex) eqn:E; simpl; try reflexivity;
    rewrite (Pos.compare_cont_antisym mx my Eq); simpl;
    destruct (Pos.compare_cont Eq mx my); reflexivity.
Qed.

Lemma f_ltb_not_eqb (x y : spec_float) : f_ltb x y = true -> f_eqb y x = false.
Proof.
  unfold f_ltb, f_eqb, SFltb, SFeqb. rewrite (SFcompare_antisym x y).
  destruct (SFcompare x y) as [[]|]; simpl; congruence.
Qed.

Lemma f_ltb_not_leb (x y : spec_float) : f_ltb x y = true -> f_leb y x = false.
Proof.
  unfold f_ltb, f_leb, SFltb, SFleb. rewrite (SFcompare_antisym x y).
  destruct (SFcompare x y) as [[]|]; simpl; congruence.
Qed.

(** ** Facts about the profile *)

Lemma profile_row_in_range (p : ModelProfile) (b : Z) :
  in_profile_range p b -> exists row, profile_row p b = Some row.
Proof.
  unfold in_profile_range, max_known_batch, profile_row. intros [H1 H2].
  destruct (Z.leb_spec 1 b) as [_|Hlt]; [|lia].
  destruct (lookup_lt_is_Some_2 (forward_table p) (Z.to_nat (b - 1))) as [row Hrow];
    [lia|]. exists row. exact Hrow.
Qed.

Lemma profile_row_range (p : ModelProfile) (b : Z) (row : float * Z) :
  profile_row p b = Some row -> in_profile_range p b.
Proof.
  unfold in_profile_range, max_known_batch, profile_row.
  destruct (Z.leb_spec 1 b) as [H1|]; [|discriminate].
  intros H. apply lookup_lt_Some in H. lia.
Qed.

Lemma GetForwardLatency_in_range (p : ModelProfile) (b : Z) :
  in_profile_range p b -> exists fwd, GetForwardLatency p b = Ret fwd.
Proof.
  intros H. destruct (profile_row_in_range p b H) as [row Hrow].
  unfold GetForwardLatency. rewrite Hrow. eauto.
Qed.

Lemma GetMemoryUsage_in_range (p : ModelProfile) (b : Z) :
  in_profile_range p b -> exists mem, GetMemoryUsage p b = Ret mem.
Proof.
  intros H. destruct (profile_row_in_range p b H) as [row Hrow].
  unfold GetMemoryUsage. rewrite Hrow. eauto.
Qed.

Lemma GetForwardLatency_out_of_range (p : ModelProfile) (b : Z) :
  ~ in_profile_range p b -> GetForwardLatency p b = Throw (ProfileOutOfRange b).
Proof.
  intros H. unfold GetForwardLatency.
  destruct (profile_row p b) as [row|] eqn:E; [|reflexivity].
  destruct H. eapply profile_row_range, E.
Qed.

Lemma greatest_fitting_bounds (p : ModelProfile) (sla_us : float)
    (rows : list (float * Z)) (b best : Z) :
  let r := greatest_fitting p sla_us rows b best in
  r = best \/ b <= r < b + Z.of_nat (length rows).
Proof.
  revert b best. induction rows as [|row rows IH]; intros b best; simpl.
  - left. reflexivity.
  - destruct (IH (b + 1) (if fits_sla p sla_us row then b else best)) as [E|E].
    + rewrite E. destruct (fits_sla p sla_us row); [right; lia | left; reflexivity].
    + right. lia.
Qed.

Lemma GetMaxBatch_bounds (p : ModelProfile) (sla_ms : Z) :
  0 <= GetMaxBatch p sla_ms <= max_known_batch p.
Proof.
  unfold GetMaxBatch, max_known_batch.
  pose proof (greatest_fitting_bounds p (f32_of_Z (sla_ms * 1000)) (forward_table p) 1 0) as H.
  simpl in H. lia.
Qed.

(** ** The residue loop *)

Section ResidueLoop.

Variables (profile : ModelProfile) (pre post : Z) (sla w : float) (max_batch : Z).

(** The counter cannot wrap around, and every batch the loop can reach has a
    row in the profile. *)
Hypothesis no_wrap : max_batch < UINT32_MAX.
Hypothesis known : forall b, 1 <= b <= max_batch -> in_profile_range profile b.

(** With fuel for every remaining batch the loop returns; it leaves at the
    first batch that fails the test, or past [max_batch] when none does. *)
Lemma residue_loop_spec (fuel : nat) (batch : Z) :
  1 <= batch <= max_batch + 1 ->
  (Z.to_nat (max_batch + 1 - batch) < fuel)%nat ->
  exists left,
    residue_loop fuel profile pre post sla w max_batch batch = Ret left /\
    batch <= left <= max_batch + 1 /\
    (forall b, batch <= b < left -> residue_ok profile pre post sla w b = true) /\
    (left <= max_batch -> residue_ok profile pre post sla w left = false).
Proof.
  pose proof no_wrap as Hmax. unfold UINT32_MAX in Hmax.
  revert batch. induction fuel as [|fuel' IH]; intros batch Hb Hfuel; [lia|].
  simpl. destruct (Z.leb_spec batch max_batch) as [Hle|Hgt].
  - destruct (GetForwardLatency_in_range profile batch) as [fwd Hfwd];
      [apply known; lia|].
    rewrite Hfwd. simpl.
    destruct (exceeds_sla pre post sla w batch fwd) eqn:Hex.
    + exists batch. split; [reflexivity|]. split; [lia|]. split; [intros; lia|].
      intros _. unfold residue_ok. rewrite Hfwd, Hex. reflexivity.
    + assert (Hw : wrap32 (batch + 1) = batch + 1)
        by (unfold wrap32; apply Z.mod_small; lia).
      rewrite Hw.
      destruct (IH (batch + 1)) as (left & Hl & Hbnd & Hok & Hfail); [lia|lia|].
      exists left. split; [exact Hl|]. split; [lia|]. split; [|exact Hfail].
      intros b Hbl. destruct (Z.eq_dec b batch) as [->|Hne].
      * unfold residue_ok. rewrite Hfwd, Hex. reflexivity.
      * apply Hok. lia.
  - exists batch. split; [reflexivity|]. split; [lia|]. split; intros; lia.
Qed.

End ResidueLoop.

Lemma f_to_uint32_trunc (x : float) (z : Z) :
  f_to_uint32 x = Ret z -> f_trunc x = Some z /\ 0 <= z < 2 ^ 32.
Proof.
  unfold f_to_uint32. destruct (f_trunc x) as [t|]; [|discriminate].
  destruct (Z.leb_spec 0 t), (Z.ltb_spec t (2 ^ 32)); cbn; try discriminate.
  intros [= <-]. split; [reflexivity | lia].
Qed.

(** C1 (amended).  [PrepareLoadModel] on an idle backend
    ([exec_cycle_us == 0]) with a profile, for a workload above 0 and
    [max_batch < UINT32_MAX] (which keeps the 32-bit counter of the loop from
    wrapping).  The code compares the workload with [max_throughput], the
    [uint32_t] that [std::tie] stores of the profile's throughput: the
    throughput with its fraction dropped.

    When [workload < max_throughput], the call returns, and the batch [b] of
    the returned config is the end of the longest run of batches from 1 that
    pass the test of the loop: [0 <= b <= max_batch], every batch of [1, b]
    keeps [(b' - 1) * 1e6 / workload + forward(b') + preprocess +
    postprocess] within [sla_us] (as the code evaluates it, in single
    precision), and batch [b + 1] does not when [b < max_batch]; [b] is 0
    when no batch passes.  When [b >= 1] the config has [forward_latency =
    forward(b)], [throughput = b * 1e6 / D] and the occupancy is
    [forward(b) / D], for [D = sla_us - forward(b) - preprocess -
    postprocess].

    When [max_throughput <= workload], which holds as well for a workload
    between [max_throughput] and the throughput of the profile, the loop is
    not run: the plan is the saturating one, with [batch = max_batch] and
    occupancy 1.

    [sla_us] is [latency_sla * 1000] as the code computes it, a product of
    [uint32_t] that wraps at 32 bits, converted to [float]; it is the SLA in
    microseconds as long as that is below [2 ^ 32]. *)
Theorem PrepareLoadModel_residue
    (db : ModelDatabase) (c : BackendRpcClient) (model_sess : ModelSession)
    (workload : float) (config : ModelInstanceConfig) (occupancy : float)
    (profile : ModelProfile) (max_batch : Z) (tp : float) (max_throughput : Z) :
  db (gpu_device c) (ModelSessionToProfileID model_sess) = Some profile ->
  f_eqb (exec_cycle_us c) fzero = true ->
  GetMaxThroughput profile (latency_sla model_sess) = (max_batch, tp) ->
  f_to_uint32 tp = Ret max_throughput ->
  f_ltb fzero workload = true ->
  max_batch < UINT32_MAX ->
  let pre := GetPreprocessLatency profile in
  let post := GetPostprocessLatency profile in
  let sla := sla_us_of model_sess in
  let ok := residue_ok profile pre post sla workload in
  (f_trunc tp = Some max_throughput /\ 0 <= max_throughput < 2 ^ 32) /\
  (0 <= latency_sla model_sess * 1000 < 2 ^ 32 ->
   sla = f32_of_Z (latency_sla model_sess * 1000)) /\
  (f_ltb workload (f32_of_Z max_throughput) = true ->
   exists config' occupancy',
     PrepareLoadModel db c model_sess workload config occupancy
       = Ret (config', occupancy') /\
     0 <= batch config' <= max_batch /\
     (forall b', 1 <= b' <= batch config' -> ok b' = true) /\
     (batch config' < max_batch -> ok (batch config' + 1) = false) /\
     ((forall b', 1 <= b' <= max_batch -> ok b' = false) -> batch config' = 0) /\
     (1 <= batch config' ->
      exists fwd_lat,
        GetForwardLatency profile (batch config') = Ret fwd_lat /\
        let D := residue_duty_cycle sla fwd_lat pre post in
        forward_latency config' = fwd_lat /\
        throughput config' = batch_throughput (batch config') D /\
        occupancy' = f32_div fwd_lat D)) /\
  (f_leb (f32_of_Z max_throughput) workload = true ->
   forall (fwd_latency : float) (stored : Z),
     GetForwardLatency profile max_batch = Ret fwd_latency ->
     f_to_uint32 fwd_latency = Ret stored ->
     exists config',
       PrepareLoadModel db c model_sess workload config occupancy
         = Ret (config', f32_of_Z 1) /\
       batch config' = max_batch).
Proof.
  intros Hdb Hidle Hmax Htp Hpos Hbound pre post sla ok.
  split; [exact (f_to_uint32_trunc tp max_throughput Htp)|].
  split.
  { intros Hsla. unfold sla, sla_us_of, wrap32.
    rewrite Z.mod_small by exact Hsla. reflexivity. }
  split.
  2:{ intros Hle fwd_latency stored Hfwd Hstored.
      assert (Hmem : exists mem, GetMemoryUsage profile max_batch = Ret mem).
      { unfold GetForwardLatency in Hfwd. unfold GetMemoryUsage.
        destruct (profile_row profile max_batch); [eauto | discriminate]. }
      destruct Hmem as [mem Hmem].
      unfold PrepareLoadModel. rewrite Hdb, Hmax. cbv beta iota zeta.
      rewrite Htp. unfold mbind at 1, result_bind at 1. rewrite Hidle, Hle.
      rewrite orb_true_r, Hfwd. unfold mbind at 1, result_bind at 1.
      rewrite Hmem. run_bind. rewrite Hstored. unfold mbind, result_bind.
      eexists. split; reflexivity. }
  intros Hlt.
  assert (Hrange : forall b, 1 <= b <= max_batch -> in_profile_range profile b).
  { intros b Hb. unfold in_profile_range.
    pose proof (GetMaxBatch_bounds profile (latency_sla model_sess)) as Hmb.
    unfold GetMaxThroughput in Hmax. injection Hmax as Hmb' _. lia. }
  assert (Hmb0 : 0 <= max_batch).
  { pose proof (GetMaxBatch_bounds profile (latency_sla model_sess)) as Hmb.
    unfold GetMaxThroughput in Hmax. injection Hmax as Hmb' _. lia. }
  destruct (residue_loop_spec profile pre post sla workload max_batch Hbound Hrange
              (S (S (Z.to_nat max_batch))) 1) as (left & Hloop & Hbnd & Hok & Hfail);
    [lia|lia|].
  unfold PrepareLoadModel. rewrite Hdb, Hmax. cbv beta iota zeta.
  rewrite Htp. unfold mbind at 1, result_bind at 1. rewrite Hidle.
  rewrite (f_ltb_not_eqb _ _ Hpos), (f_ltb_not_leb _ _ Hlt).
  cbv beta iota delta [orb].
  fold pre post sla. rewrite Hloop. unfold mbind at 1, result_bind at 1.
  assert (Hw : wrap32 (left - 1) = left - 1)
    by (unfold wrap32; apply Z.mod_small; unfold UINT32_MAX in Hbound; lia).
  rewrite Hw.
  destruct (Z.eqb_spec (left - 1) 0) as [H0|H0].
  - eexists _, _. split; [reflexivity|]. simpl.
    assert (left = 1) by lia. subst left.
    split; [lia|]. split; [intros; lia|]. split.
    + intros Hm. apply Hfail. lia.
    + split; [reflexivity | intros; lia].
  - destruct (GetForwardLatency_in_range profile (left - 1)) as [fwd Hfwd];
      [apply Hrange; lia|].
    destruct (GetMemoryUsage_in_range profile (left - 1)) as [mem Hmem];
      [apply Hrange; lia|].
    rewrite Hfwd, Hmem. unfold mbind, result_bind.
    eexists _, _. split; [reflexivity|]. cbn [batch set_batch set_max_batch
      set_forward_latency set_memory_usage set_throughput set_workload
      forward_latency throughput].
    split; [lia|]. split; [intros b' Hb'; apply Hok; lia|]. split.
    + intros Hm. replace (left - 1 + 1) with left by lia. apply Hfail. lia.
    + split.
      * intros Hnone. specialize (Hok (left - 1)). rewrite Hnone in Hok by lia.
        assert (false = true) by (apply Hok; lia). discriminate.
      * intros _. exists fwd. rewrite Hfwd. repeat split; reflexivity.
Qed.

(** An SLA of 50 ms and 50 requests per second give batch 2.  An SLA of 30 ms
    gives the profile a throughput of 266.67 requests per second for batch 8,
    of which the code holds 266: a workload of 266.5, below the throughput of
    the profile, gets the saturating plan. *)
Lemma PrepareLoadModel_residue_witness :
  (Examples.scenario_db (gpu_device Examples.idle_client)
     (ModelSessionToProfileID (Examples.session 50))
     = Some Examples.scenario_profile /\
   f_eqb (exec_cycle_us Examples.idle_client) fzero = true /\
   f_ltb fzero (f32_of_Z 50) = true /\
   f_ltb (f32_of_Z 50) (f32_of_Z 160) = true /\
   8 < UINT32_MAX) /\
  (exists config' occupancy',
     PrepareLoadModel Examples.scenario_db Examples.idle_client
       (Examples.session 50) (f32_of_Z 50) empty_config fzero
       = Ret (config', occupancy') /\
     batch config' = 2) /\
  (f_ltb fzero (f32_round 533 (-1)) = true /\
   f_leb (f32_of_Z 266) (f32_round 533 (-1)) = true /\
   f_ltb (f32_round 533 (-1)) (snd (GetMaxThroughput Examples.scenario_profile 30))
     = true /\
   f_trunc (snd (GetMaxThroughput Examples.scenario_profile 30)) = Some 266) /\
  exists config',
    PrepareLoadModel Examples.scenario_db Examples.idle_client
      (Examples.session 30) (f32_round 533 (-1)) empty_config fzero
      = Ret (config', f32_of_Z 1) /\
    batch config' = 8.
Proof.
  split; [repeat split; reflexivity|]. split; [|split].
  - destruct (proj1 (proj2 (proj2
                (PrepareLoadModel_residue
                   Examples.scenario_db Examples.idle_client
                   (Examples.session 50) (f32_of_Z 50) empty_config fzero
                   Examples.scenario_profile 8
                   (snd (GetMaxThroughput Examples.scenario_profile 50)) 160
                   eq_refl eq_refl eq_refl eq_refl eq_refl eq_refl)))
              eq_refl)
      as (config' & occupancy' & Hret & _).
    exists config', occupancy'. split; [exact Hret|].
    vm_compute in Hret. injection Hret as <- _. reflexivity.
  - split; [reflexivity|]. split; [reflexivity|]. split; [reflexivity|].
    exact (proj1 (proj1
             (PrepareLoadModel_residue
                Examples.scenario_db Examples.idle_client
                (Examples.session 30) (f32_round 533 (-1)) empty_config fzero
                Examples.scenario_profile 8
                (snd (GetMaxThroughput Examples.scenario_profile 30)) 266
                eq_refl eq_refl eq_refl eq_refl eq_refl eq_refl))).
  - exact (proj2 (proj2 (proj2
             (PrepareLoadModel_residue
                Examples.scenario_db Examples.idle_client
                (Examples.session 30) (f32_round 533 (-1)) empty_config fzero
                Examples.scenario_profile 8
                (snd (GetMaxThroughput Examples.scenario_profile 30)) 266
                eq_refl eq_refl eq_refl eq_refl eq_refl eq_refl)))
             eq_refl (f32_of_Z 20000) 20000 eq_refl eq_refl).
Defined.

(** C1 as stated fails where the forward latency is not monotone in the
    batch.  With forward = 5000, 30000, 6000 microseconds for batches 1, 2, 3,
    an SLA of 40 ms and 64 requests per second, the loop stops at batch 2,
    which fails (15625 + 30000 + 2000 > 40000), and the plan keeps batch 1,
    although batch 3 passes (31250 + 6000 + 2000 <= 40000). *)
Lemma PrepareLoadModel_residue_not_largest :
  (exists config' occupancy',
     PrepareLoadModel Examples.bumpy_db Examples.idle_client
       (Examples.session 40) (f32_of_Z 64) empty_config fzero
       = Ret (config', occupancy') /\
     batch config' = 1) /\
  residue_ok Examples.bumpy_profile 1000 1000
    (sla_us_of (Examples.session 40)) (f32_of_Z 64) 3 = true /\
  ~ residue_batch_is_largest.
Proof.
  assert (Hret : exists config' occupancy',
             PrepareLoadModel Examples.bumpy_db Examples.idle_client
               (Examples.session 40) (f32_of_Z 64) empty_config fzero
               = Ret (config', occupancy') /\
             batch config' = 1)
    by (eexists _, _; split; [vm_compute; reflexivity | reflexivity]).
  split; [exact Hret|].
  split; [vm_compute; reflexivity|].
  destruct Hret as (config' & occupancy' & Hret & Hbatch).
  intros H.
  specialize (H Examples.bumpy_db Examples.idle_client (Examples.session 40)
                (f32_of_Z 64) empty_config fzero Examples.bumpy_profile 3
                (snd (GetMaxThroughput Examples.bumpy_profile 40)) 75
                config' occupancy'
                eq_refl eq_refl eq_refl eq_refl eq_refl eq_refl Hret).
  rewrite Hbatch in H.
  destruct H as [(_ & _ & Hnone)|(H0 & _)]; [|discriminate H0].
  specialize (Hnone 3 ltac:(lia)). vm_compute in Hnone. discriminate Hnone.
Qed.

(** ** The saturating branch *)

(** C2 (what the code does).  On an idle backend with a profile and
    [workload == 0] or [max_throughput <= workload], when the profile has a
    row for [max_batch], the returned config has [batch = max_batch],
    [max_batch = max_batch], [forward_latency = forward(max_batch)],
    [throughput = workload = max_throughput] and the occupancy is 1.0; its
    [memory_usage], though, is [stored], the forward latency cut to an
    integer: [profile->GetMemoryUsage(max_batch)] is read into a local that
    is never used, and [set_memory_usage] is handed [fwd_latency]. *)
Theorem PrepareLoadModel_saturating
    (db : ModelDatabase) (c : BackendRpcClient) (model_sess : ModelSession)
    (offered : float) (config : ModelInstanceConfig) (occupancy : float)
    (profile : ModelProfile) (max_b : Z) (tp : float) (max_throughput : Z)
    (fwd_latency : float) (stored : Z) :
  db (gpu_device c) (ModelSessionToProfileID model_sess) = Some profile ->
  f_eqb (exec_cycle_us c) fzero = true ->
  GetMaxThroughput profile (latency_sla model_sess) = (max_b, tp) ->
  f_to_uint32 tp = Ret max_throughput ->
  f_eqb offered fzero = true \/ f_leb (f32_of_Z max_throughput) offered = true ->
  GetForwardLatency profile max_b = Ret fwd_latency ->
  f_to_uint32 fwd_latency = Ret stored ->
  exists config',
    PrepareLoadModel db c model_sess offered config occupancy
      = Ret (config', f32_of_Z 1) /\
    batch config' = max_b /\
    max_batch config' = max_b /\
    forward_latency config' = fwd_latency /\
    throughput config' = f32_of_Z max_throughput /\
    workload config' = f32_of_Z max_throughput /\
    memory_usage config' = stored.
Proof.
  intros Hdb Hidle Hmax Htp Hsat Hfwd Hstored.
  assert (Hmem : exists mem, GetMemoryUsage profile max_b = Ret mem).
  { unfold GetForwardLatency in Hfwd. unfold GetMemoryUsage.
    destruct (profile_row profile max_b); [eauto | discriminate]. }
  destruct Hmem as [mem Hmem].
  assert (Hcond : f_eqb offered fzero || f_leb (f32_of_Z max_throughput) offered = true)
    by (apply orb_true_iff; exact Hsat).
  unfold PrepareLoadModel. rewrite Hdb, Hmax. cbv beta iota zeta.
  rewrite Htp. unfold mbind at 1, result_bind at 1. rewrite Hidle, Hcond.
  rewrite Hfwd. unfold mbind at 1, result_bind at 1.
  rewrite Hmem. run_bind.
  rewrite Hstored. unfold mbind, result_bind.
  eexists. split; [reflexivity|]. repeat split; reflexivity.
Qed.

(** In the first scenario of the specification the profile gives 800 bytes
    for batch 8, and the config comes back with the 20000 of the forward
    latency. *)
Lemma PrepareLoadModel_saturating_witness :
  (Examples.scenario_db (gpu_device Examples.idle_client)
     (ModelSessionToProfileID (Examples.session 50))
     = Some Examples.scenario_profile /\
   f_eqb (exec_cycle_us Examples.idle_client) fzero = true /\
   f_leb (f32_of_Z 160) (f32_of_Z 10000) = true /\
   GetForwardLatency Examples.scenario_profile 8 = Ret (f32_of_Z 20000) /\
   GetMemoryUsage Examples.scenario_profile 8 = Ret 800) /\
  exists config',
    PrepareLoadModel Examples.scenario_db Examples.idle_client
      (Examples.session 50) (f32_of_Z 10000) empty_config fzero
      = Ret (config', f32_of_Z 1) /\
    batch config' = 8 /\
    memory_usage config' = 20000.
Proof.
  split; [repeat split; reflexivity|].
  destruct (PrepareLoadModel_saturating
              Examples.scenario_db Examples.idle_client
              (Examples.session 50) (f32_of_Z 10000) empty_config fzero
              Examples.scenario_profile 8
              (snd (GetMaxThroughput Examples.scenario_profile 50)) 160
              (f32_of_Z 20000) 20000
              eq_refl eq_refl eq_refl eq_refl (or_intror eq_refl) eq_refl eq_refl)
    as (config' & Hret & Hbatch & _ & _ & _ & _ & Hmem).
  exists config'. split; [exact Hret|]. split; assumption.
Defined.

(** ** LoadModel *)

(** C3 (amended).  The dynamic [LoadModel] keeps the invariant of the
    single-model state: whenever the record afterwards holds exactly one
    config, [exec_cycle_us] is that config's [forward_latency] and
    [duty_cycle_us = sla_us - exec_cycle_us]; on a record that holds no model
    and is idle it leaves exactly the loaded config.  The static [LoadModel]
    for a workload-file entry, on a record as the constructor leaves it and
    with a profile that has a row for the entry's batch, returns and leaves
    exactly one config, with [exec_cycle_us = forward(batch)] and
    [duty_cycle_us = exec_cycle_us]: both cycles grow by the forward latency,
    the SLA does not enter. *)
Theorem LoadModel_single_model :
  (forall (config : ModelInstanceConfig) (c : BackendRpcClient),
      single_model_invariant c ->
      single_model_invariant (LoadModel config c)) /\
  (forall (config : ModelInstanceConfig) (c : BackendRpcClient),
      model_table_config c = [] ->
      f_gtb (exec_cycle_us c) fzero = false ->
      model_table_config (LoadModel config c) = [config]) /\
  (forall (db : ModelDatabase) (model_info : WorkloadEntry) (c : BackendRpcClient)
          (sess : ModelSession) (profile : ModelProfile),
      model_table_config c = [] ->
      exec_cycle_us c = fzero -> duty_cycle_us c = fzero ->
      entry_session model_info = Ret sess ->
      db (gpu_device c) (ModelSessionToProfileID sess) = Some profile ->
      in_profile_range profile (y_batch model_info) ->
      exists c' cfg fwd_latency,
        LoadModel_yaml db model_info c = Ret c' /\
        model_table_config c' = [cfg] /\
        batch cfg = y_batch model_info /\
        GetForwardLatency profile (batch cfg) = Ret fwd_latency /\
        forward_latency cfg = fwd_latency /\
        exec_cycle_us c' = f32_add fzero fwd_latency /\
        duty_cycle_us c' = exec_cycle_us c').
Proof.
  split; [|split].
  - intros config c Hinv. unfold LoadModel.
    destruct (f_gtb (exec_cycle_us c) fzero); [exact Hinv|].
    intros cfg Hcfg. cbn in Hcfg |- *.
    destruct (model_table_config c) as [|x [|y l]]; cbn in Hcfg.
    + injection Hcfg as <-. split; reflexivity.
    + discriminate Hcfg.
    + discriminate Hcfg.
  - intros config c Hempty Hidle. unfold LoadModel. rewrite Hidle. cbn.
    rewrite Hempty. reflexivity.
  - intros db model_info c sess profile Hempty Hexec Hduty Hsess Hdb Hrange.
    destruct (GetForwardLatency_in_range profile _ Hrange) as [fwd Hfwd].
    destruct (GetMemoryUsage_in_range profile _ Hrange) as [mem Hmem].
    unfold LoadModel_yaml. rewrite Hsess. unfold mbind at 1, result_bind at 1.
    cbv zeta. rewrite Hdb, Hmem. unfold mbind at 1, result_bind at 1.
    rewrite Hfwd. unfold mbind, result_bind. rewrite Hempty, Hexec, Hduty.
    eexists _, _, fwd. split; [reflexivity|]. simpl.
    split; [reflexivity|]. split; [reflexivity|]. split; [exact Hfwd|].
    repeat split; reflexivity.
Qed.

Lemma in_range_scenario_1 : in_profile_range Examples.scenario_profile 1.
Proof. unfold in_profile_range, max_known_batch. simpl. lia. Qed.

Lemma single_model_invariant_idle : single_model_invariant Examples.idle_client.
Proof. intros cfg Hcfg. discriminate Hcfg. Qed.

Lemma LoadModel_single_model_witness :
  (single_model_invariant Examples.idle_client /\
   model_table_config Examples.idle_client = [] /\
   f_gtb (exec_cycle_us Examples.idle_client) fzero = false /\
   in_profile_range Examples.scenario_profile 1) /\
  single_model_invariant
    (LoadModel (set_forward_latency (f32_of_Z 5000) empty_config)
               Examples.idle_client) /\
  model_table_config
    (LoadModel (set_forward_latency (f32_of_Z 5000) empty_config)
               Examples.idle_client)
    = [set_forward_latency (f32_of_Z 5000) empty_config] /\
  exists c',
    LoadModel_yaml Examples.scenario_db (Examples.entry 50 1)
      Examples.idle_client = Ret c' /\
    duty_cycle_us c' = exec_cycle_us c'.
Proof.
  split.
  { split; [apply single_model_invariant_idle|].
    split; [reflexivity|]. split; [reflexivity|]. apply in_range_scenario_1. }
  split; [|split].
  - apply (proj1 LoadModel_single_model), single_model_invariant_idle.
  - apply (proj1 (proj2 LoadModel_single_model)); reflexivity.
  - destruct (proj2 (proj2 LoadModel_single_model)
                Examples.scenario_db (Examples.entry 50 1)
                Examples.idle_client (Examples.session 50) Examples.scenario_profile)
      as (c' & cfg & fwd & Hret & _ & _ & _ & _ & _ & Hduty);
      try reflexivity; [apply in_range_scenario_1|].
    exists c'. split; assumption.
Defined.

(** C3 as stated fails for the static loader: an entry with an SLA of 50 ms
    and batch 1, forward(1) = 5000, leaves one config, [exec_cycle_us = 5000]
    and [duty_cycle_us = 5000], where [sla_us - exec_cycle_us] is 45000.  *)
Lemma LoadModel_yaml_breaks_invariant :
  exists c' cfg,
    LoadModel_yaml Examples.scenario_db (Examples.entry 50 1)
      Examples.idle_client = Ret c' /\
    model_table_config c' = [cfg] /\
    exec_cycle_us c' = f32_of_Z 5000 /\
    duty_cycle_us c' = f32_of_Z 5000 /\
    sla_minus_exec (model_session cfg) (exec_cycle_us c') = f32_of_Z 45000 /\
    ~ single_model_invariant c'.
Proof.
  eexists _, _. split; [vm_compute; reflexivity|].
  split; [reflexivity|]. split; [reflexivity|]. split; [reflexivity|].
  split; [vm_compute; reflexivity|].
  intros H. destruct (H _ eq_refl) as [_ Hduty]. vm_compute in Hduty. discriminate.
Qed.

(** ** UpdateModelTable *)

Lemma fold_left_snoc {A : Type} (l acc : list A) :
  fold_left (fun acc x => acc ++ [x]) l acc = acc ++ l.
Proof.
  revert acc. induction l as [|x l IH]; intros acc; simpl.
  - symmetry. apply app_nil_r.
  - rewrite IH, <- app_assoc. reflexivity.
Qed.

Lemma GetModelTableNoLock_empty (c : BackendRpcClient) :
  GetModelTableNoLock c [] = model_table_config c.
Proof. unfold GetModelTableNoLock. apply fold_left_snoc. Qed.

Lemma CtrlStatus_eqb_eq (a b : CtrlStatus) : CtrlStatus_eqb a b = true <-> a = b.
Proof.
  destruct a, b; simpl; split; intros H; try discriminate; try reflexivity.
  - apply Z.eqb_eq in H. congruence.
  - injection H as ->. apply Z.eqb_refl.
Qed.

(** C6.  [UpdateModelTable] on a table that is not dirty changes nothing,
    sends nothing and returns [CTRL_OK].  On a dirty table it sends the
    current [model_table_config]; when the transport fails it returns
    [CTRL_SERVER_UNREACHABLE] and the record, its dirty flag included, is as
    before; when a reply comes it returns the status of the reply, and the
    dirty flag is cleared if and only if that status is [CTRL_OK]. *)
Theorem UpdateModelTable_spec (stub : BackendStub) (now : Z) (c : BackendRpcClient) :
  let '(c', status, sent) := UpdateModelTable stub now c in
  (dirty_model_table c = false -> c' = c /\ status = CTRL_OK /\ sent = []) /\
  (dirty_model_table c = true ->
   sent = [model_table_config c] /\
   model_table_config c' = model_table_config c /\
   match stub (model_table_config c) with
   | RpcFailed _ =>
       status = CTRL_SERVER_UNREACHABLE /\ c' = c
   | RpcReplied reply_status =>
       status = reply_status /\
       last_time c' = now /\
       (dirty_model_table c' = false <-> reply_status = CTRL_OK)
   end).
Proof.
  unfold UpdateModelTable. rewrite GetModelTableNoLock_empty.
  destruct (dirty_model_table c) eqn:Hd; cbn [negb].
  - destruct (stub (model_table_config c)) as [code|reply_status].
    + split; [discriminate|]. intros _. repeat split; reflexivity.
    + split; [discriminate|]. intros _. cbn. repeat split.
      * destruct (CtrlStatus_eqb reply_status CTRL_OK) eqn:E.
        -- intros _. apply CtrlStatus_eqb_eq. exact E.
        -- discriminate.
      * intros ->. reflexivity.
  - split; [intros _; repeat split | discriminate].
Qed.

Lemma UpdateModelTable_spec_witness :
  dirty_model_table Examples.loaded_client = true /\
  dirty_model_table
    (fst (fst (UpdateModelTable (fun _ => RpcReplied CTRL_OK) 7
                 Examples.loaded_client))) = false /\
  snd (fst (UpdateModelTable (fun _ => RpcReplied CTRL_OK) 7
              Examples.loaded_client)) = CTRL_OK /\
  snd (UpdateModelTable (fun _ => RpcReplied CTRL_OK) 7 Examples.loaded_client)
    = [model_table_config Examples.loaded_client].
Proof.
  split; [reflexivity|].
  pose proof (UpdateModelTable_spec (fun _ => RpcReplied CTRL_OK) 7
                Examples.loaded_client) as H.
  destruct (UpdateModelTable _ _ _) as [[c' status] sent].
  destruct H as [_ H]. destruct (H eq_refl) as (Hsent & _ & Hs & _ & Hd).
  cbn [fst snd]. split; [apply Hd; reflexivity|]. split; [exact Hs | exact Hsent].
Defined.

(** ** A missing profile *)

(** C8 (what the code does).  When the database has no profile for the
    session on this GPU, [PrepareLoadModel] returns the config with [batch =
    0] and touches nothing else, but the static [LoadModel] reads through the
    null pointer: [profile->GetMemoryUsage(max_batch)] comes before any
    test of [profile]. *)
Theorem missing_profile
    (db : ModelDatabase) (c : BackendRpcClient) (model_sess : ModelSession)
    (workload : float) (config : ModelInstanceConfig) (occupancy : float)
    (model_info : WorkloadEntry) (sess : ModelSession) :
  db (gpu_device c) (ModelSessionToProfileID model_sess) = None ->
  entry_session model_info = Ret sess ->
  db (gpu_device c) (ModelSessionToProfileID sess) = None ->
  PrepareLoadModel db c model_sess workload config occupancy
    = Ret (set_batch 0 config, occupancy) /\
  LoadModel_yaml db model_info c = Throw NullDeref.
Proof.
  intros Hnone Hsess Hnone'. split.
  - unfold PrepareLoadModel. rewrite Hnone. reflexivity.
  - unfold LoadModel_yaml. rewrite Hsess. unfold mbind, result_bind.
    cbv zeta. rewrite Hnone'. reflexivity.
Qed.

Lemma missing_profile_witness :
  Examples.empty_db (gpu_device Examples.idle_client)
    (ModelSessionToProfileID (Examples.session 50)) = None /\
  entry_session (Examples.entry 50 1) = Ret (Examples.session 50) /\
  PrepareLoadModel Examples.empty_db Examples.idle_client (Examples.session 50)
    (f32_of_Z 50) empty_config fzero = Ret (set_batch 0 empty_config, fzero) /\
  LoadModel_yaml Examples.empty_db (Examples.entry 50 1) Examples.idle_client
    = Throw NullDeref.
Proof.
  split; [reflexivity|]. split; [reflexivity|].
  apply (missing_profile Examples.empty_db Examples.idle_client
           (Examples.session 50) (f32_of_Z 50) empty_config fzero
           (Examples.entry 50 1) (Examples.session 50)); reflexivity.
Defined.

(** * The executor *)

(** ** The input queue *)

Lemma input_before_le (x y : Input) :
  input_before x y = true -> deadline x <= deadline y.
Proof.
  unfold input_before. intros H. apply orb_true_iff in H.
  destruct H as [H|H]; [apply Z.ltb_lt in H; lia|].
  apply andb_true_iff in H. destruct H as [H _]. apply Z.eqb_eq in H. lia.
Qed.

Lemma input_before_ge (x y : Input) :
  input_before x y = false -> deadline y <= deadline x.
Proof.
  unfold input_before. intros H. apply orb_false_iff in H.
  destruct H as [H _]. apply Z.ltb_ge in H. exact H.
Qed.

Lemma pq_push_perm (x : Input) (q : list Input) : pq_push x q ≡ₚ x :: q.
Proof.
  induction q as [|y q IH]; cbn [pq_push]; [reflexivity|].
  destruct (input_before x y); [reflexivity|].
  rewrite IH. apply Permutation_swap.
Qed.

Lemma push_all_perm (l q : list Input) :
  fold_left (fun q input => pq_push input q) l q ≡ₚ q ++ l.
Proof.
  revert q. induction l as [|x l IH]; intros q; simpl.
  - rewrite app_nil_r. reflexivity.
  - rewrite IH, pq_push_perm. simpl. apply Permutation_middle.
Qed.

Lemma pq_push_HdRel (a x : Input) (q : list Input) :
  deadline a <= deadline x ->
  HdRel (fun a b => deadline a <= deadline b) a q ->
  HdRel (fun a b => deadline a <= deadline b) a (pq_push x q).
Proof.
  intros Hax Hq. destruct q as [|y q]; cbn [pq_push].
  - constructor. exact Hax.
  - destruct (input_before x y); constructor.
    + exact Hax.
    + inversion Hq; assumption.
Qed.

Lemma pq_push_sorted (x : Input) (q : list Input) :
  deadline_sorted q -> deadline_sorted (pq_push x q).
Proof.
  unfold deadline_sorted. induction q as [|y q IH]; intros Hq; cbn [pq_push].
  - repeat constructor.
  - inversion Hq as [|? ? Hs Hh]; subst.
    destruct (input_before x y) eqn:Hcmp.
    + constructor; [exact Hq|]. constructor. apply input_before_le, Hcmp.
    + constructor; [apply IH, Hs|].
      apply pq_push_HdRel; [apply input_before_ge, Hcmp | exact Hh].
Qed.

Lemma push_all_sorted (l q : list Input) :
  deadline_sorted q ->
  deadline_sorted (fold_left (fun q input => pq_push input q) l q).
Proof.
  revert q. induction l as [|x l IH]; intros q Hq; cbn [fold_left].
  - exact Hq.
  - apply IH, pq_push_sorted, Hq.
Qed.

(** ** AddTask *)

(** C10 (amended).  [AddTask] of a task held by a valid pointer always
    returns.  Every input of the task is pushed into the input queue (the
    queue afterwards is the queue before plus the task's inputs).  When no
    task with the same id is in the processing map, the task is inserted
    under its id; when one is, the map is left as it is, the earlier task
    stays, and the call does not fail.  A queue in deadline order stays in
    deadline order. *)
Theorem AddTask_spec (task : ptr) (ex : ModelExecutor) (t : Task) :
  heap ex !! task = Some t ->
  exists ex',
    AddTask task ex = Ret ex' /\
    input_queue_ ex' ≡ₚ input_queue_ ex ++ inputs t /\
    (deadline_sorted (input_queue_ ex) -> deadline_sorted (input_queue_ ex')) /\
    (processing_tasks_ ex !! tid t = None ->
     processing_tasks_ ex' = <[tid t := task]> (processing_tasks_ ex)) /\
    (is_Some (processing_tasks_ ex !! tid t) ->
     processing_tasks_ ex' = processing_tasks_ ex) /\
    heap ex' = heap ex /\ task_queue_ ex' = task_queue_ ex /\
    batch_id_ ex' = batch_id_ ex /\ events ex' = events ex.
Proof.
  intros Ht. unfold AddTask, deref. rewrite Ht. unfold mbind, result_bind.
  eexists. split; [reflexivity|]. simpl. split; [apply push_all_perm|].
  split; [apply push_all_sorted|].
  unfold emplace. split; [intros ->; reflexivity|].
  split; [intros [p ->]; reflexivity|]. repeat split; reflexivity.
Qed.

Lemma AddTask_spec_witness :
  heap Examples.fresh_executor !! 1%positive
    = Some (Examples.task_of 7 CTRL_OK 100) /\
  exists ex',
    AddTask 1%positive Examples.fresh_executor = Ret ex' /\
    input_queue_ ex' ≡ₚ [Examples.input_of 7 100] /\
    processing_tasks_ ex' = <[7 := 1%positive]> ∅.
Proof.
  split; [reflexivity|].
  destruct (AddTask_spec 1%positive Examples.fresh_executor
              (Examples.task_of 7 CTRL_OK 100) eq_refl)
    as (ex' & Hret & Hq & _ & Hnew & _).
  exists ex'. split; [exact Hret|]. split; [exact Hq|].
  apply Hnew. reflexivity.
Defined.

(** C10 as stated fails on a duplicate id: with task id 7 in the
    processing map, [AddTask] of a second task with id 7 returns normally,
    keeps the first task in the map and queues the input of the second. *)
Lemma AddTask_duplicate_succeeds :
  processing_tasks_ Examples.holding_executor !! 7 = Some 1%positive /\
  heap Examples.holding_executor !! 2%positive
    = Some (Examples.task_of 7 CTRL_OK 200) /\
  (exists ex',
     AddTask 2%positive Examples.holding_executor = Ret ex' /\
     processing_tasks_ ex' !! 7 = Some 1%positive /\
     input_queue_ ex' = [Examples.input_of 7 100; Examples.input_of 7 200]) /\
  ~ AddTask_fails_iff_duplicate.
Proof.
  split; [reflexivity|]. split; [reflexivity|]. split.
  - eexists. split; [reflexivity|]. split; reflexivity.
  - intros H.
    destruct (proj2 (H 2%positive Examples.holding_executor
                       (Examples.task_of 7 CTRL_OK 200) eq_refl))
      as [e He]; [exists 1%positive; reflexivity|].
    discriminate He.
Qed.

(** ** RemoveTask *)

(** C7 (amended).  [RemoveTask] of a task held by a valid pointer sets the
    task's stage to postprocess, pushes the task into the shared postprocess
    queue and erases its id from the processing map.  A second [RemoveTask]
    of the same task leaves the heap, the processing map and the input queue
    as the first call left them, and pushes the task into the postprocess
    queue once more. *)
Theorem RemoveTask_spec (task : ptr) (ex : ModelExecutor) (t : Task) :
  heap ex !! task = Some t ->
  exists ex1 ex2,
    RemoveTask task ex = Ret ex1 /\
    heap ex1 = <[task := set_stage kPostprocess t]> (heap ex) /\
    task_queue_ ex1 = task_queue_ ex ++ [task] /\
    processing_tasks_ ex1 = delete (tid t) (processing_tasks_ ex) /\
    input_queue_ ex1 = input_queue_ ex /\
    RemoveTask task ex1 = Ret ex2 /\
    heap ex2 = heap ex1 /\
    processing_tasks_ ex2 = processing_tasks_ ex1 /\
    input_queue_ ex2 = input_queue_ ex1 /\
    task_queue_ ex2 = task_queue_ ex1 ++ [task].
Proof.
  intros Ht. unfold RemoveTask at 1, deref. rewrite Ht.
  run_binds.
  eexists _, _. split; [reflexivity|].
  split; [reflexivity|]. split; [reflexivity|]. split; [reflexivity|].
  split; [reflexivity|].
  unfold RemoveTask, deref. simpl. rewrite lookup_insert_eq.
  run_binds. split; [reflexivity|]. simpl.
  split; [apply insert_insert_eq|]. split; [apply delete_delete_eq|].
  split; reflexivity.
Qed.

Lemma RemoveTask_spec_witness :
  heap Examples.holding_executor !! 1%positive
    = Some (Examples.task_of 7 CTRL_OK 100) /\
  exists ex1 ex2,
    RemoveTask 1%positive Examples.holding_executor = Ret ex1 /\
    RemoveTask 1%positive ex1 = Ret ex2 /\
    task_queue_ ex1 = [1%positive] /\
    task_queue_ ex2 = [1%positive; 1%positive].
Proof.
  split; [reflexivity|].
  destruct (RemoveTask_spec 1%positive Examples.holding_executor
              (Examples.task_of 7 CTRL_OK 100) eq_refl)
    as (ex1 & ex2 & H1 & _ & Hq1 & _ & _ & H2 & _ & _ & _ & Hq2).
  exists ex1, ex2. split; [exact H1|]. split; [exact H2|].
  split; [exact Hq1|]. rewrite Hq2, Hq1. reflexivity.
Defined.

(** C7 as stated fails: after the second call the postprocess queue holds
    the task twice. *)
Lemma RemoveTask_twice_pushes_twice :
  (exists ex1 ex2,
     RemoveTask 1%positive Examples.holding_executor = Ret ex1 /\
     RemoveTask 1%positive ex1 = Ret ex2 /\
     task_queue_ ex1 = [1%positive] /\
     task_queue_ ex2 = [1%positive; 1%positive]) /\
  ~ RemoveTask_idempotent.
Proof.
  split.
  - eexists _, _. split; [reflexivity|]. split; [reflexivity|].
    split; reflexivity.
  - intros H.
    destruct (H 1%positive Examples.holding_executor _ _ eq_refl eq_refl)
      as [_ Hq].
    discriminate Hq.
Qed.

(** ** What batch formation leaves alone *)

Lemma same_frame_refl (ex : ModelExecutor) : same_frame ex ex.
Proof. repeat split. Qed.

Lemma same_frame_trans (a b c : ModelExecutor) :
  same_frame a b -> same_frame b c -> same_frame a c.
Proof.
  unfold same_frame. intros (? & ? & ? & ?) (? & ? & ? & ?).
  repeat split; congruence.
Qed.

Lemma RemoveTask_frame (task : ptr) (ex ex' : ModelExecutor) :
  RemoveTask task ex = Ret ex' ->
  same_frame ex ex' /\ input_queue_ ex' = input_queue_ ex.
Proof.
  unfold RemoveTask, deref. destruct (heap ex !! task) as [t|]; [|discriminate].
  run_binds. intros [= <-]. repeat split.
Qed.

Lemma process_input_frame (finish : TimePoint) (input : Input)
    (ex ex' : ModelExecutor) (bt bt' : BatchTask) :
  process_input finish input ex bt = Ret (ex', bt') ->
  same_frame ex ex' /\ input_queue_ ex' = input_queue_ ex.
Proof.
  unfold process_input.
  destruct (processing_tasks_ ex !! in_tid input) as [task|]; [|discriminate].
  unfold deref. destruct (heap ex !! task) as [t|]; [|discriminate].
  run_bind.
  destruct (dropped _ finish _ input).
  - destruct (AddVirtualOutput (in_index input) (Record_timer "exec" t))
      as [t' complete].
    destruct complete.
    + destruct (RemoveTask task _) as [ex1|e] eqn:Hrm; [|discriminate].
      unfold mbind, result_bind. intros [= <- <-].
      apply RemoveTask_frame in Hrm. exact Hrm.
    + intros [= <- <-]. repeat split.
  - intros [= <- <-]. repeat split.
Qed.

Lemma batch_loop_frame (queue : list Input) (size : Z) (finish : TimePoint) :
  forall (ex ex' : ModelExecutor) (bt bt' : BatchTask),
    batch_loop queue size finish ex bt = Ret (ex', bt') -> same_frame ex ex'.
Proof.
  induction queue as [|input rest IH]; intros ex ex' bt bt'; simpl.
  - intros [= <- <-]. apply same_frame_refl.
  - destruct (batch_size bt <? size); [|intros [= <- <-]; apply same_frame_refl].
    destruct (process_input finish input (set_input_queue rest ex) bt)
      as [[ex1 bt1]|e] eqn:Hstep; [|discriminate].
    unfold mbind, result_bind. simpl. intros Hloop.
    apply process_input_frame in Hstep. destruct Hstep as [Hstep _].
    apply IH in Hloop. eapply same_frame_trans; [|exact Hloop]. exact Hstep.
Qed.

Lemma GetBatchInput_frame (now : TimePoint) (ex ex' : ModelExecutor)
    (bt bt' : BatchTask) :
  GetBatchInput now ex bt = Ret (ex', bt') -> same_frame ex ex'.
Proof.
  unfold GetBatchInput.
  destruct (finish_time now ex (batch_size_limit ex)) as [finish|e]; [|discriminate].
  unfold mbind, result_bind. apply batch_loop_frame.
Qed.

Lemma fan_out_frame (outs : list Output) :
  forall (tasks : list ptr) (ex ex' : ModelExecutor),
    fan_out outs tasks ex = Ret ex' -> same_frame ex ex'.
Proof.
  induction outs as [|output outs IH]; intros tasks ex ex'; cbn [fan_out].
  - intros [= <-]. apply same_frame_refl.
  - destruct tasks as [|task tasks]; [discriminate|].
    unfold deref. destruct (heap ex !! task) as [t|]; [|discriminate].
    unfold mbind at 1, result_bind at 1.
    destruct (AddOutput output t) as [t' complete].
    destruct complete.
    + destruct (RemoveTask task _) as [ex1|e] eqn:Hrm;
        unfold mbind, result_bind; [|discriminate].
      intros Hrest.
      apply RemoveTask_frame in Hrm. destruct Hrm as [Hrm _].
      apply IH in Hrest. eapply same_frame_trans; [|exact Hrest]. exact Hrm.
    + unfold mbind, result_bind. intros Hrest. apply IH in Hrest. exact Hrest.
Qed.

(** ** The query of the profile on an empty queue *)

(** C5 (what the code does).  With a profile and an empty input queue,
    [batch_size] is [min(0, model.batch) = 0], and the first thing
    [GetBatchInput] does is [profile_->GetForwardLatency(0)], outside
    [1, max_known_batch]: the query fails with [ProfileOutOfRange 0], and so
    does the [Execute] that called it. *)
Theorem GetBatchInput_empty_queue (now : TimePoint) (ex : ModelExecutor)
    (p : ModelProfile) (bt : BatchTask) :
  profile_ ex = Some p ->
  input_queue_ ex = [] ->
  0 <= m_batch (model_ ex) ->
  batch_size_limit ex = 0 /\
  ~ in_profile_range p 0 /\
  GetBatchInput now ex bt = Throw (ProfileOutOfRange 0) /\
  Execute now ex = Throw (ProfileOutOfRange 0).
Proof.
  intros Hp Hq Hb.
  assert (Hsize : batch_size_limit ex = 0).
  { unfold batch_size_limit. rewrite Hq. change (Z.of_nat (length [])) with 0.
    rewrite Z.gtb_ltb.
    destruct (Z.ltb_spec (m_batch (model_ ex)) 0); [lia|reflexivity]. }
  assert (Hget : forall ex0 bt0,
             profile_ ex0 = Some p -> batch_size_limit ex0 = 0 ->
             GetBatchInput now ex0 bt0 = Throw (ProfileOutOfRange 0)).
  { intros ex0 bt0 Hp0 Hs0. unfold GetBatchInput, finish_time. rewrite Hs0, Hp0.
    reflexivity. }
  split; [exact Hsize|]. split; [unfold in_profile_range; lia|].
  split; [apply Hget; assumption|].
  unfold Execute, allocate_batch. rewrite Hget; [reflexivity|exact Hp|exact Hsize].
Qed.

(** ** Well-formed executors *)

Lemma pending_cons_eq (k : Z) (x : Input) (l : list Input) :
  in_tid x = k -> pending k (x :: l) = S (pending k l).
Proof. intros H. unfold pending. rewrite filter_cons_True by exact H. reflexivity. Qed.

Lemma pending_cons_ne (k : Z) (x : Input) (l : list Input) :
  in_tid x <> k -> pending k (x :: l) = pending k l.
Proof. intros H. unfold pending. rewrite filter_cons_False by exact H. reflexivity. Qed.

Lemma pending_app (k : Z) (l1 l2 : list Input) :
  pending k (l1 ++ l2) = (pending k l1 + pending k l2)%nat.
Proof. unfold pending. rewrite filter_app, length_app. reflexivity. Qed.

Lemma pending_zero (k : Z) (l : list Input) (i : Input) :
  pending k l = 0%nat -> i ∈ l -> in_tid i <> k.
Proof.
  unfold pending. intros H Hin Hk. apply nil_length_inv in H.
  exact (filter_nil_not_elem_of _ _ _ H Hk Hin).
Qed.

Lemma pending_perm (k : Z) (l1 l2 : list Input) :
  l1 ≡ₚ l2 -> pending k l1 = pending k l2.
Proof. intros H. unfold pending. rewrite H. reflexivity. Qed.

Ltac simpl_state :=
  cbn [processing_tasks_ heap input_queue_ task_queue_ set_processing_tasks
       set_task_queue set_heap set_input_queue store bt_items AppendInput
       outputs inputs tid set_outputs set_stage Record_timer];
  rewrite ?insert_insert_eq.

(** One turn of the loop keeps the accounting and returns. *)
Lemma process_input_accounted (finish : TimePoint) (input : Input)
    (rest : list Input) (ex : ModelExecutor) (bt : BatchTask) :
  input_queue_ ex = input :: rest ->
  accounted ex (bt_items bt) ->
  exists ex' bt',
    process_input finish input (set_input_queue rest ex) bt = Ret (ex', bt') /\
    input_queue_ ex' = rest /\
    accounted ex' (bt_items bt').
Proof.
  intros Hq [Htasks Hinj Hqueue Hitems].
  destruct (Hqueue input) as [p Hp]; [rewrite Hq; left|].
  destruct (Htasks _ _ Hp) as (t & Ht & Htid & Hcount).
  rewrite Hq, (pending_cons_eq _ _ _ eq_refl) in Hcount.
  assert (Hother : forall k' p', k' <> in_tid input ->
            processing_tasks_ ex !! k' = Some p' -> p' <> p).
  { intros k' p' Hne Hp' ->. apply Hne. eapply Hinj; eassumption. }
  assert (Hrest : forall k' p', k' <> in_tid input ->
            processing_tasks_ ex !! k' = Some p' ->
            forall (h : Task), exists t',
              <[p := h]> (heap ex) !! p' = Some t' /\ tid t' = k' /\
              (pending k' rest + pending k' ((bt_items bt).*1) + length (outputs t')
               = length (inputs t'))%nat).
  { intros k' p' Hne Hp' h. destruct (Htasks _ _ Hp') as (t' & Ht' & Htid' & Hc').
    exists t'. rewrite lookup_insert_ne by (apply not_eq_sym; eauto).
    rewrite Hq, pending_cons_ne in Hc' by congruence. auto. }
  unfold process_input. cbn [processing_tasks_ set_input_queue]. rewrite Hp.
  unfold deref. cbn [heap set_input_queue]. rewrite Ht.
  run_bind.
  destruct (dropped _ finish _ input).
  - unfold AddVirtualOutput, AddOutput. cbv zeta.
    cbn [outputs inputs set_outputs Record_timer].
    destruct (Nat.eqb_spec (length (outputs t ++ [VirtualOutput (in_index input)]))
                           (length (inputs t))) as [Hdone|Hmore];
      rewrite length_app in *; cbn [length] in *.
    + unfold RemoveTask, deref, store. cbn [heap set_heap].
      rewrite lookup_insert_eq. run_binds.
      eexists _, _. split; [reflexivity|]. split; [reflexivity|].
      split; simpl_state; rewrite ?Htid.
      * intros k' p' Hk'. apply lookup_delete_Some in Hk'. destruct Hk' as [Hne Hk'].
        apply (Hrest k' p'); auto.
      * intros k1 k2 p' H1 H2. apply lookup_delete_Some in H1, H2.
        eapply Hinj; [apply H1 | apply H2].
      * intros i Hi. assert (Hne : in_tid i <> in_tid input)
          by (apply (pending_zero _ rest); [lia | exact Hi]).
        rewrite lookup_delete_ne by congruence.
        apply Hqueue. rewrite Hq. right. exact Hi.
      * intros i p' Hi.
        assert (Hne : in_tid i <> in_tid input).
        { apply (pending_zero _ ((bt_items bt).*1)); [lia|].
          apply list_elem_of_fmap. exists (i, p'). split; [reflexivity | exact Hi]. }
        rewrite lookup_delete_ne by congruence. apply Hitems. exact Hi.
    + eexists _, _. split; [reflexivity|]. split; [reflexivity|].
      split; simpl_state.
      * intros k' p' Hk'. destruct (Z.eq_dec k' (in_tid input)) as [->|Hne].
        -- rewrite Hp in Hk'. injection Hk' as <-.
           eexists. rewrite lookup_insert_eq. split; [reflexivity|].
           simpl_state. rewrite length_app. cbn [length].
           split; [exact Htid | lia].
        -- apply (Hrest k' p'); auto.
      * exact Hinj.
      * intros i Hi. apply Hqueue. rewrite Hq. right. exact Hi.
      * exact Hitems.
  - eexists _, _. split; [reflexivity|]. split; [reflexivity|].
    split; simpl_state.
    + intros k' p' Hk'. rewrite fmap_app, pending_app. cbn [fmap list_fmap fst].
      destruct (Z.eq_dec k' (in_tid input)) as [->|Hne].
      * rewrite Hp in Hk'. injection Hk' as <-.
        eexists. rewrite lookup_insert_eq. split; [reflexivity|].
        simpl_state. rewrite (pending_cons_eq _ _ _ eq_refl).
        unfold pending at 3. cbn [filter list_filter length].
        split; [exact Htid | lia].
      * destruct (Hrest k' p' Hne Hk' (Record_timer "exec" t))
          as (t' & Ht' & Htid' & Hc').
        exists t'. rewrite pending_cons_ne by congruence.
        unfold pending at 3. cbn [filter list_filter length].
        split; [exact Ht'|]. split; [exact Htid' | lia].
    + exact Hinj.
    + intros i Hi. apply Hqueue. rewrite Hq. right. exact Hi.
    + intros i p' Hi. apply elem_of_app in Hi. destruct Hi as [Hi|Hi].
      * apply Hitems. exact Hi.
      * apply list_elem_of_singleton in Hi. injection Hi as -> ->. exact Hp.
Qed.

Lemma batch_loop_accounted (queue : list Input) (size : Z) (finish : TimePoint) :
  forall (ex : ModelExecutor) (bt : BatchTask),
    input_queue_ ex = queue ->
    accounted ex (bt_items bt) ->
    exists ex' bt',
      batch_loop queue size finish ex bt = Ret (ex', bt') /\
      accounted ex' (bt_items bt').
Proof.
  induction queue as [|input rest IH]; intros ex bt Hq Hacc; cbn [batch_loop].
  - eauto.
  - destruct (batch_size bt <? size); [|eauto].
    destruct (process_input_accounted finish input rest ex bt Hq Hacc)
      as (ex1 & bt1 & Hstep & Hq1 & Hacc1).
    rewrite Hstep. unfold mbind, result_bind. cbn [fst snd].
    apply IH; assumption.
Qed.

(** The loop over the outputs hands every input of the batch its output. *)
Lemma fan_out_accounted (items : list (Input * ptr)) :
  forall (outs : list Output) (ex : ModelExecutor),
    length outs = length items ->
    accounted ex items ->
    exists ex', fan_out outs (items.*2) ex = Ret ex' /\ accounted ex' [].
Proof.
  induction items as [|[input p] items IH]; intros outs ex Hlen Hacc.
  - destruct outs; [|discriminate Hlen]. cbn. eauto.
  - destruct outs as [|output outs]; [discriminate Hlen|].
    injection Hlen as Hlen. cbn [fan_out fmap list_fmap snd].
    destruct Hacc as [Htasks Hinj Hqueue Hitems].
    assert (Hp : processing_tasks_ ex !! in_tid input = Some p)
      by (apply Hitems; left).
    destruct (Htasks _ _ Hp) as (t & Ht & Htid & Hcount).
    cbn [fmap list_fmap fst] in Hcount.
    rewrite (pending_cons_eq _ _ _ eq_refl) in Hcount.
    assert (Hrest : forall k' p', k' <> in_tid input ->
              processing_tasks_ ex !! k' = Some p' ->
              forall (h : Task), exists t',
                <[p := h]> (heap ex) !! p' = Some t' /\ tid t' = k' /\
                (pending k' (input_queue_ ex) + pending k' (items.*1)
                 + length (outputs t') = length (inputs t'))%nat).
    { intros k' p' Hne Hp' h. destruct (Htasks _ _ Hp') as (t' & Ht' & Htid' & Hc').
      exists t'. rewrite lookup_insert_ne
        by (intros ->; apply Hne; eapply Hinj; eassumption).
      cbn [fmap list_fmap fst] in Hc'.
      rewrite pending_cons_ne in Hc' by congruence. auto. }
    unfold deref. rewrite Ht. unfold mbind at 1, result_bind at 1.
    unfold AddOutput. cbv zeta. cbn [outputs inputs set_outputs].
    destruct (Nat.eqb_spec (length (outputs t ++ [output])) (length (inputs t)))
      as [Hdone|Hmore]; rewrite length_app in *; cbn [length] in *.
    + unfold RemoveTask, deref, store. cbn [heap set_heap].
      rewrite lookup_insert_eq. unfold mbind at 1 2, result_bind at 1 2. cbv zeta.
      apply IH; [exact Hlen|].
      split; simpl_state; rewrite ?Htid.
      * intros k' p' Hk'. apply lookup_delete_Some in Hk'. destruct Hk' as [Hne Hk'].
        apply (Hrest k' p'); auto.
      * intros k1 k2 p' H1 H2. apply lookup_delete_Some in H1, H2.
        eapply Hinj; [apply H1 | apply H2].
      * intros i Hi. assert (Hne : in_tid i <> in_tid input)
          by (apply (pending_zero _ (input_queue_ ex)); [lia | exact Hi]).
        rewrite lookup_delete_ne by congruence. apply Hqueue. exact Hi.
      * intros i p' Hi.
        assert (Hne : in_tid i <> in_tid input).
        { apply (pending_zero _ (items.*1)); [lia|].
          apply list_elem_of_fmap. exists (i, p'). split; [reflexivity | exact Hi]. }
        rewrite lookup_delete_ne by congruence. apply Hitems. right. exact Hi.
    + unfold mbind at 1, result_bind at 1.
      apply IH; [exact Hlen|].
      split; simpl_state.
      * intros k' p' Hk'. destruct (Z.eq_dec k' (in_tid input)) as [->|Hne].
        -- rewrite Hp in Hk'. injection Hk' as <-.
           eexists. rewrite lookup_insert_eq. split; [reflexivity|].
           simpl_state. rewrite length_app. cbn [length].
           split; [exact Htid | lia].
        -- apply (Hrest k' p'); auto.
      * exact Hinj.
      * exact Hqueue.
      * intros i p' Hi. apply Hitems. right. exact Hi.
Qed.

Lemma GetBatchInput_returns (now : TimePoint) (ex : ModelExecutor) (bt : BatchTask) :
  well_formed ex -> bt_items bt = [] -> finish_defined now ex ->
  exists ex' bt',
    GetBatchInput now ex bt = Ret (ex', bt') /\ accounted ex' (bt_items bt').
Proof.
  intros Hwf Hbt [finish Hfin]. unfold GetBatchInput. rewrite Hfin.
  unfold mbind, result_bind. apply batch_loop_accounted; [reflexivity|].
  rewrite Hbt. exact Hwf.
Qed.

Lemma accounted_log (e : Event) (ex : ModelExecutor) (items : list (Input * ptr)) :
  accounted ex items -> accounted (log_event e ex) items.
Proof. intros [H1 H2 H3 H4]. split; assumption. Qed.

Lemma Execute_returns (now : TimePoint) (ex : ModelExecutor) :
  well_formed ex -> finish_defined now ex -> forward_total ex ->
  exists ex', Execute now ex = Ret ex' /\ well_formed ex'.
Proof.
  intros Hwf Hfin Hfwd. unfold Execute, allocate_batch. cbv zeta.
  match goal with
  | |- context [GetBatchInput now ?e ?b] =>
      destruct (GetBatchInput_returns now e b) as (ex1 & bt1 & Hget & Hacc)
  end.
  - destruct Hwf as [H1 H2 H3 H4]. split; assumption.
  - reflexivity.
  - exact Hfin.
  - rewrite Hget. unfold mbind, result_bind.
    destruct (Z.eqb_spec (batch_size bt1) 0) as [Hempty|Hsome].
    + exists ex1. split; [reflexivity|].
      unfold batch_size in Hempty.
      destruct (bt_items bt1); [exact Hacc | discriminate Hempty].
    + cbn [bt_outputs set_bt_outputs bt_items].
      apply fan_out_accounted.
      * pose proof (GetBatchInput_frame _ _ _ _ _ Hget) as (Hm & _).
        cbn [model_ log_event set_batch_id] in Hm |- *.
        rewrite Hm, Hfwd, length_fmap. reflexivity.
      * apply accounted_log. exact Hacc.
Qed.

Lemma pending_none (k : Z) (l : list Input) :
  (forall i, i ∈ l -> in_tid i <> k) -> pending k l = 0%nat.
Proof.
  induction l as [|x l IH]; intros H; [reflexivity|].
  rewrite pending_cons_ne by (apply H; left). apply IH.
  intros i Hi. apply H. right. exact Hi.
Qed.

Lemma pending_all (k : Z) (l : list Input) :
  (forall i, i ∈ l -> in_tid i = k) -> pending k l = length l.
Proof.
  induction l as [|x l IH]; intros H; [reflexivity|].
  rewrite pending_cons_eq by (apply H; left). cbn. f_equal. apply IH.
  intros i Hi. apply H. right. exact Hi.
Qed.

Lemma new_executor_well_formed (model : ModelInstance)
    (profile : option ModelProfile) (queue : list ptr) (h : gmap ptr Task) :
  well_formed (new_executor model profile queue h).
Proof.
  split; cbn.
  - intros k p Hk. rewrite lookup_empty in Hk. discriminate Hk.
  - intros k1 k2 p Hk. rewrite lookup_empty in Hk. discriminate Hk.
  - intros i Hi. apply elem_of_nil in Hi. destruct Hi.
  - intros i p Hi. apply elem_of_nil in Hi. destruct Hi.
Qed.

(** [AddTask] of a task that is new to the executor (its id and its pointer
    are not in the processing map), has no output yet and whose inputs carry
    its id. *)
Lemma AddTask_well_formed (task : ptr) (ex : ModelExecutor) (t : Task) :
  well_formed ex ->
  heap ex !! task = Some t ->
  processing_tasks_ ex !! tid t = None ->
  (forall k, processing_tasks_ ex !! k <> Some task) ->
  outputs t = [] ->
  (forall i, i ∈ inputs t -> in_tid i = tid t) ->
  exists ex', AddTask task ex = Ret ex' /\ well_formed ex'.
Proof.
  intros [Htasks Hinj Hqueue _] Ht Hfresh Hnew Hout Hin.
  unfold AddTask, deref. rewrite Ht. run_binds.
  eexists. split; [reflexivity|].
  unfold emplace. rewrite Hfresh.
  assert (Hold : forall i, i ∈ input_queue_ ex -> in_tid i <> tid t).
  { intros i Hi Heq. destruct (Hqueue i Hi) as [p Hp].
    rewrite Heq, Hfresh in Hp. discriminate Hp. }
  split; simpl_state.
  - intros k p Hk. rewrite (pending_perm _ _ _ (push_all_perm _ _)), pending_app.
    cbn [fmap list_fmap]. unfold pending at 3. cbn [filter list_filter length].
    apply lookup_insert_Some in Hk. destruct Hk as [[<- <-]|[Hne Hk]].
    + exists t. split; [exact Ht|]. split; [reflexivity|].
      rewrite (pending_none _ _ Hold), (pending_all _ _ Hin), Hout. cbn. lia.
    + destruct (Htasks _ _ Hk) as (t' & Ht' & Htid' & Hc').
      exists t'. split; [exact Ht'|]. split; [exact Htid'|].
      rewrite (pending_none k (inputs t)).
      * cbn [fmap list_fmap] in Hc'. unfold pending at 2 in Hc'.
        cbn [filter list_filter length] in Hc'. lia.
      * intros i Hi. rewrite (Hin i Hi). exact Hne.
  - intros k1 k2 p H1 H2.
    apply lookup_insert_Some in H1, H2.
    destruct H1 as [[<- <-]|[Hne1 H1]], H2 as [[<- Hp2]|[Hne2 H2]];
      try reflexivity.
    + destruct (Hnew _ H2).
    + subst p. destruct (Hnew _ H1).
    + eapply Hinj; eassumption.
  - intros i Hi. rewrite (push_all_perm _ _) in Hi.
    apply elem_of_app in Hi. destruct Hi as [Hi|Hi].
    + rewrite lookup_insert_ne by (apply not_eq_sym, Hold, Hi). apply Hqueue, Hi.
    + rewrite (Hin i Hi), lookup_insert_eq. eauto.
  - intros i p Hi. apply elem_of_nil in Hi. destruct Hi.
Qed.

(** ** Batch formation *)

Lemma process_input_spec (finish : TimePoint) (input : Input)
    (ex ex' : ModelExecutor) (bt bt' : BatchTask) :
  process_input finish input ex bt = Ret (ex', bt') ->
  popped_input_outcome finish input ex bt ex' bt'.
Proof.
  unfold process_input, popped_input_outcome.
  destruct (processing_tasks_ ex !! in_tid input) as [task|] eqn:Htask;
    [|discriminate].
  unfold deref. destruct (heap ex !! task) as [t|] eqn:Ht; [|discriminate].
  run_bind.
  intros H. exists task, t. split; [reflexivity|]. split; [exact Ht|].
  unfold dropped in H. cbn [status Record_timer profile_ store set_heap] in H.
  destruct (negb (CtrlStatus_eqb (status t) CTRL_OK)
            || bool_decide (is_Some (profile_ ex)) && (deadline input <? finish)).
  - unfold AddVirtualOutput, AddOutput in H. cbv zeta in H.
    cbn [outputs inputs set_outputs Record_timer] in H |- *.
    destruct (length (outputs t ++ [VirtualOutput (in_index input)])
              =? length (inputs t))%nat.
    + unfold RemoveTask, deref, store in H.
      cbn [heap set_heap] in H. rewrite lookup_insert_eq in H.
      unfold mbind, result_bind in H. cbv zeta in H.
      injection H as <- <-. split; [reflexivity|].
      cbn. rewrite !insert_insert_eq. repeat split; reflexivity.
    + injection H as <- <-. split; [reflexivity|].
      cbn. rewrite !insert_insert_eq. repeat split; reflexivity.
  - injection H as <- <-. repeat split; reflexivity.
Qed.

Lemma batch_loop_included (queue : list Input) (size : Z) (finish : TimePoint) :
  forall (ex ex' : ModelExecutor) (bt bt' : BatchTask),
    batch_loop queue size finish ex bt = Ret (ex', bt') ->
    exists added,
      bt_items bt' = bt_items bt ++ added /\
      forall input task, (input, task) ∈ added ->
        input ∈ queue /\
        (is_Some (profile_ ex) -> finish <= deadline input).
Proof.
  induction queue as [|input rest IH]; intros ex ex' bt bt'; cbn [batch_loop].
  - intros [= <- <-]. exists []. rewrite app_nil_r. split; [reflexivity|].
    intros i k Hin. apply elem_of_nil in Hin. destruct Hin.
  - destruct (batch_size bt <? size).
    2:{ intros [= <- <-]. exists []. rewrite app_nil_r. split; [reflexivity|].
        intros i k Hin. apply elem_of_nil in Hin. destruct Hin. }
    destruct (process_input finish input (set_input_queue rest ex) bt)
      as [[ex1 bt1]|e] eqn:Hstep; unfold mbind, result_bind; [|discriminate].
    cbn [fst snd]. intros Hloop.
    pose proof (process_input_frame _ _ _ _ _ _ Hstep) as [(_ & Hprof & _) _].
    cbn [profile_ set_input_queue] in Hprof.
    apply process_input_spec in Hstep.
    destruct Hstep as (task & t & _ & _ & Hcase). cbv zeta in Hcase.
    cbn [profile_ set_input_queue] in Hcase.
    destruct (IH _ _ _ _ Hloop) as (added & Hitems & Hadded).
    rewrite Hprof in Hadded.
    destruct (negb (CtrlStatus_eqb (status t) CTRL_OK)
              || bool_decide (is_Some (profile_ ex)) && (deadline input <? finish))
      eqn:Hdrop.
    + destruct Hcase as [-> _]. exists added. split; [exact Hitems|].
      intros i k Hin. destruct (Hadded i k Hin) as [Hq Hd].
      split; [right; exact Hq | exact Hd].
    + destruct Hcase as [-> _]. exists ((input, task) :: added).
      split.
      { rewrite Hitems. cbn [bt_items AppendInput].
        rewrite <- app_assoc. reflexivity. }
      intros i k Hin. apply elem_of_cons in Hin. destruct Hin as [Heq|Hin].
      * injection Heq as -> ->. split; [left|].
        intros Hsome. apply orb_false_iff in Hdrop. destruct Hdrop as [_ Hd].
        rewrite (bool_decide_eq_true_2 _ Hsome) in Hd. cbn in Hd.
        apply Z.ltb_ge in Hd. exact Hd.
      * destruct (Hadded i k Hin) as [Hq Hd]. split; [right; exact Hq | exact Hd].
Qed.

(** The loop pops a prefix of the queue and handles it, turn by turn, at the
    cutoff it is given; it stops on a full batch or on an empty queue. *)
Lemma batch_loop_handled (queue : list Input) (size : Z) (finish : TimePoint) :
  forall (ex ex' : ModelExecutor) (bt bt' : BatchTask),
    input_queue_ ex = queue ->
    batch_loop queue size finish ex bt = Ret (ex', bt') ->
    exists popped,
      queue = popped ++ input_queue_ ex' /\
      handled size finish popped ex bt ex' bt' /\
      (size <= batch_size bt' \/ input_queue_ ex' = []).
Proof.
  induction queue as [|input rest IH]; intros ex ex' bt bt' Hq; cbn [batch_loop].
  - intros [= <- <-]. exists []. rewrite Hq. cbn. auto 6.
  - destruct (Z.ltb_spec (batch_size bt) size) as [Hlt|Hge].
    2:{ intros [= <- <-]. exists []. rewrite Hq. cbn. auto 6. }
    destruct (process_input finish input (set_input_queue rest ex) bt)
      as [[ex1 bt1]|e] eqn:Hstep; unfold mbind, result_bind; [|discriminate].
    cbn [fst snd]. intros Hloop.
    pose proof (process_input_frame _ _ _ _ _ _ Hstep) as [(_ & Hprof & _) Hq1].
    cbn [profile_ input_queue_ set_input_queue] in Hprof, Hq1.
    apply process_input_spec in Hstep.
    destruct (IH _ _ _ _ Hq1 Hloop) as (popped & Hsplit & Hrun & Hexit).
    exists (input :: popped). split; [cbn; congruence|]. split; [|exact Hexit].
    cbn [handled]. split; [exact Hlt|]. exists ex1, bt1.
    split; [exact Hstep|]. split; [exact Hprof | exact Hrun].
Qed.

(** Without a profile the cutoff is not read. *)
Lemma handled_no_profile (size : Z) (finish finish' : TimePoint)
    (popped : list Input) :
  forall (ex ex' : ModelExecutor) (bt bt' : BatchTask),
    profile_ ex = None ->
    handled size finish popped ex bt ex' bt' ->
    handled size finish' popped ex bt ex' bt'.
Proof.
  induction popped as [|input rest IH]; intros ex ex' bt bt' Hnone; cbn [handled];
    [auto|].
  intros (Hlt & ex1 & bt1 & Hstep & Hprof & Hrun).
  split; [exact Hlt|]. exists ex1, bt1. split; [|split; [exact Hprof|]].
  - unfold popped_input_outcome in Hstep |- *.
    destruct Hstep as (task & t & Hlook & Ht & Hcase). exists task, t.
    split; [exact Hlook|]. split; [exact Ht|].
    rewrite Hnone in Hcase |- *. exact Hcase.
  - apply IH; [congruence | exact Hrun].
Qed.

(** C4 (amended).  [GetBatchInput] pops a prefix [popped] of the input queue
    and leaves the rest queued; it stops on a batch of
    [min(queue length, batch)] inputs or on an empty queue.  It handles the
    popped inputs one after the other, each at the same cutoff: with a
    profile, [finish = now + us] for [us = int(forward_latency(batch_size))],
    the forward latency of [batch_size = min(queue length, batch)] cut to
    whole microseconds; without a profile no cutoff is read.  For every input
    so handled [popped_input_outcome] holds: when the status of the owning
    task is not OK, or a profile is present and the deadline is before
    [finish], a virtual output is recorded at the input's index and the task
    is removed to postprocess if that completes its outputs; otherwise the
    input is appended to the batch.  Hence every input that [GetBatchInput]
    adds to the batch comes from the input queue and, when a profile is
    present, is due no earlier than [now + us].  On a well-formed executor
    whose query of the profile succeeds, [GetBatchInput] returns. *)
Theorem GetBatchInput_spec :
  (forall (finish : TimePoint) (input : Input) (ex ex' : ModelExecutor)
          (bt bt' : BatchTask),
      process_input finish input ex bt = Ret (ex', bt') ->
      popped_input_outcome finish input ex bt ex' bt') /\
  (forall (now : TimePoint) (ex ex' : ModelExecutor) (bt bt' : BatchTask),
      GetBatchInput now ex bt = Ret (ex', bt') ->
      exists popped,
        input_queue_ ex = popped ++ input_queue_ ex' /\
        (batch_size_limit ex <= batch_size bt' \/ input_queue_ ex' = []) /\
        (forall p, profile_ ex = Some p ->
           exists latency us,
             GetForwardLatency p (batch_size_limit ex) = Ret latency /\
             f_to_int latency = Ret us /\
             handled (batch_size_limit ex) (now + us) popped ex bt ex' bt') /\
        (profile_ ex = None ->
           forall finish,
             handled (batch_size_limit ex) finish popped ex bt ex' bt')) /\
  (forall (now : TimePoint) (ex ex' : ModelExecutor) (bt bt' : BatchTask),
      GetBatchInput now ex bt = Ret (ex', bt') ->
      exists added,
        bt_items bt' = bt_items bt ++ added /\
        forall input task, (input, task) ∈ added ->
          input ∈ input_queue_ ex /\
          forall p, profile_ ex = Some p ->
            exists latency us,
              GetForwardLatency p (batch_size_limit ex) = Ret latency /\
              f_to_int latency = Ret us /\
              now + us <= deadline input) /\
  (forall (now : TimePoint) (ex : ModelExecutor) (bt : BatchTask),
      well_formed ex -> bt_items bt = [] -> finish_defined now ex ->
      returns (GetBatchInput now ex bt)).
Proof.
  split; [exact process_input_spec|]. split; [|split].
  3:{ intros now ex bt Hwf Hbt Hfin.
      destruct (GetBatchInput_returns now ex bt Hwf Hbt Hfin)
        as (ex' & bt' & Hret & _).
      exists (ex', bt'). exact Hret. }
  - intros now ex ex' bt bt'. unfold GetBatchInput.
    destruct (finish_time now ex (batch_size_limit ex)) as [finish|e] eqn:Hfin;
      unfold mbind, result_bind; [|discriminate].
    intros Hloop.
    destruct (batch_loop_handled _ _ _ _ _ _ _ eq_refl Hloop)
      as (popped & Hsplit & Hrun & Hexit).
    exists popped. split; [exact Hsplit|]. split; [exact Hexit|].
    unfold finish_time in Hfin. split.
    + intros p Hp. rewrite Hp in Hfin.
      destruct (GetForwardLatency p (batch_size_limit ex)) as [latency|] eqn:Hlat;
        unfold mbind at 1, result_bind at 1 in Hfin; [|discriminate].
      destruct (f_to_int latency) as [us|] eqn:Hus;
        unfold mbind, result_bind in Hfin; [|discriminate].
      injection Hfin as <-. exists latency, us.
      split; [reflexivity|]. split; [exact Hus | exact Hrun].
    + intros Hnone finish'.
      exact (handled_no_profile _ finish finish' popped ex ex' bt bt' Hnone Hrun).
  - intros now ex ex' bt bt'. unfold GetBatchInput.
    destruct (finish_time now ex (batch_size_limit ex)) as [finish|e] eqn:Hfin;
      unfold mbind, result_bind; [|discriminate].
    intros Hloop. apply batch_loop_included in Hloop.
    destruct Hloop as (added & Hitems & Hadded).
    exists added. split; [exact Hitems|].
    intros input task Hin. destruct (Hadded input task Hin) as [Hq Hd].
    split; [exact Hq|]. intros p Hp.
    unfold finish_time in Hfin. rewrite Hp in Hfin.
    destruct (GetForwardLatency p (batch_size_limit ex)) as [latency|] eqn:Hlat;
      unfold mbind at 1, result_bind at 1 in Hfin; [|discriminate].
    destruct (f_to_int latency) as [us|] eqn:Hus;
      unfold mbind, result_bind in Hfin; [|discriminate].
    injection Hfin as <-. exists latency, us.
    split; [reflexivity|]. split; [exact Hus|]. apply Hd. rewrite Hp. eauto.
Qed.

(** ** Batch ids *)

Lemma AddTask_frame (task : ptr) (ex ex' : ModelExecutor) :
  AddTask task ex = Ret ex' -> same_frame ex ex'.
Proof.
  unfold AddTask, deref. destruct (heap ex !! task) as [t|]; [|discriminate].
  run_binds. intros [= <-]. repeat split.
Qed.

Lemma wrap64_succ (z : Z) : wrap64 (wrap64 z + 1) = wrap64 (z + 1).
Proof. unfold wrap64. apply Zplus_mod_idemp_l. Qed.

Lemma Execute_allocates (now : TimePoint) (ex ex' : ModelExecutor) :
  Execute now ex = Ret ex' ->
  batch_id_ ex' = wrap64 (batch_id_ ex + 1) /\
  created_ids (events ex') = created_ids (events ex) ++ [batch_id_ ex].
Proof.
  unfold Execute, allocate_batch. cbv zeta.
  destruct (GetBatchInput now _ _) as [[ex1 bt1]|e] eqn:Hget;
    unfold mbind, result_bind; [|discriminate].
  apply GetBatchInput_frame in Hget. destruct Hget as (_ & _ & Hid & Hev).
  cbn in Hid, Hev.
  destruct (batch_size bt1 =? 0).
  - intros [= <-]. rewrite Hid, Hev. split; [reflexivity|].
    unfold created_ids. rewrite omap_app. reflexivity.
  - intros Hfan. apply fan_out_frame in Hfan.
    destruct Hfan as (_ & _ & Hid' & Hev'). cbn in Hid', Hev'.
    rewrite Hid', Hev', Hid, Hev. split; [reflexivity|].
    unfold created_ids. rewrite !omap_app. cbn. rewrite app_nil_r. reflexivity.
Qed.

Lemma reachable_ids (ex : ModelExecutor) :
  reachable ex ->
  exists n : nat,
    created_ids (events ex) = map (fun k => wrap64 (Z.of_nat k)) (seq 0 n) /\
    batch_id_ ex = wrap64 (Z.of_nat n).
Proof.
  induction 1 as [model profile queue h
                 |task ex ex' _ IH Hop
                 |now ex ex' _ IH Hop
                 |task ex ex' _ IH Hop
                 |queue h ex _ IH].
  - exists 0%nat. split; reflexivity.
  - apply AddTask_frame in Hop. destruct Hop as (_ & _ & Hid & Hev).
    rewrite Hid, Hev. exact IH.
  - destruct IH as (n & Hids & Hid).
    apply Execute_allocates in Hop. destruct Hop as [Hid' Hids'].
    exists (S n). rewrite Hids', Hids, Hid', Hid. split.
    + rewrite seq_S, map_app. reflexivity.
    + rewrite wrap64_succ. f_equal. lia.
  - apply RemoveTask_frame in Hop. destruct Hop as [(_ & _ & Hid & Hev) _].
    rewrite Hid, Hev. exact IH.
  - exact IH.
Qed.

(** C9 (amended).  In every state an executor reaches, the batch ids
    allocated so far are 0, 1, ..., n - 1 in this order (as long as the 64-bit
    counter has not wrapped).  An [Execute] whose batch is empty after batch
    formation runs no forward pass and returns the state that batch formation
    left, which differs from the state before by the allocation of the batch
    id and by what [GetBatchInput] did: inputs popped, virtual outputs
    recorded, completed tasks removed to postprocess.  With an empty input
    queue and no profile the allocation of the batch id is the only effect.
    On a well-formed executor whose query of the profile succeeds and whose
    model answers every input, [Execute] returns, with or without a forward
    pass, and leaves a well-formed executor. *)
Theorem Execute_batch_ids :
  (forall ex : ModelExecutor,
      reachable ex ->
      let n := length (created_ids (events ex)) in
      Z.of_nat n <= 2 ^ 64 ->
      created_ids (events ex) = map Z.of_nat (seq 0 n)) /\
  (forall (now : TimePoint) (ex ex1 : ModelExecutor) (bt : BatchTask),
      GetBatchInput now (fst (allocate_batch ex)) (snd (allocate_batch ex))
        = Ret (ex1, bt) ->
      batch_size bt = 0 ->
      Execute now ex = Ret ex1 /\
      events ex1 = events ex ++ [BatchCreated (batch_id_ ex)]) /\
  (forall (now : TimePoint) (ex : ModelExecutor),
      input_queue_ ex = [] -> profile_ ex = None ->
      Execute now ex = Ret (fst (allocate_batch ex))) /\
  (forall (now : TimePoint) (ex : ModelExecutor),
      well_formed ex -> finish_defined now ex -> forward_total ex ->
      exists ex', Execute now ex = Ret ex' /\ well_formed ex').
Proof.
  split; [|split; [|split; [|exact Execute_returns]]].
  - intros ex Hreach n Hn.
    destruct (reachable_ids ex Hreach) as (k & Hids & _).
    assert (Hk : n = k) by (subst n; rewrite Hids, length_map, length_seq; reflexivity).
    rewrite Hids. rewrite <- Hk. apply map_ext_in.
    intros i Hi. apply in_seq in Hi. unfold wrap64. apply Z.mod_small. lia.
  - intros now ex ex1 bt Hget Hempty.
    unfold Execute. destruct (allocate_batch ex) as [ex0 bt0] eqn:Halloc.
    cbn [fst snd] in Hget. rewrite Hget. unfold mbind, result_bind.
    rewrite Hempty. split; [reflexivity|].
    apply GetBatchInput_frame in Hget. destruct Hget as (_ & _ & _ & Hev).
    rewrite Hev. unfold allocate_batch in Halloc. injection Halloc as <- _.
    reflexivity.
  - intros now ex Hq Hp. unfold Execute.
    destruct (allocate_batch ex) as [ex0 bt0] eqn:Halloc.
    unfold allocate_batch in Halloc. injection Halloc as <- <-.
    unfold GetBatchInput, finish_time. cbn. rewrite Hp, Hq. reflexivity.
Qed.

(** ** Instances *)

Lemma single_executor_well_formed (profile : option ModelProfile)
    (st : CtrlStatus) (d : TimePoint) :
  well_formed (Examples.single_executor profile st d).
Proof.
  split; cbn.
  - intros k p Hk. apply lookup_insert_Some in Hk.
    destruct Hk as [[<- <-]|[_ Hk]]; [|rewrite lookup_empty in Hk; discriminate Hk].
    eexists. split; [reflexivity|]. split; reflexivity.
  - intros k1 k2 p H1 H2. apply lookup_insert_Some in H1, H2.
    destruct H1 as [[<- _]|[_ H1]]; [|rewrite lookup_empty in H1; discriminate H1].
    destruct H2 as [[<- _]|[_ H2]]; [|rewrite lookup_empty in H2; discriminate H2].
    reflexivity.
  - intros i Hi. apply list_elem_of_singleton in Hi. subst i. cbn.
    rewrite lookup_insert_eq. eauto.
  - intros i p Hi. apply elem_of_nil in Hi. destruct Hi.
Qed.

Lemma half_finish_defined (st : CtrlStatus) (d : TimePoint) :
  finish_defined 0 (Examples.single_executor (Some Examples.half_profile) st d).
Proof. exists 10000. reflexivity. Qed.

Lemma forward_total_echo (profile : option ModelProfile) (st : CtrlStatus)
    (d : TimePoint) :
  forward_total (Examples.single_executor profile st d).
Proof. intros ins. cbn. apply length_map. Qed.

Lemma GetBatchInput_spec_witness :
  (exists ex' bt',
     process_input 10000 (Examples.input_of 7 20000)
       (Examples.single_executor (Some Examples.half_profile) CTRL_OK 20000)
       (new_BatchTask 0 1) = Ret (ex', bt') /\
     popped_input_outcome 10000 (Examples.input_of 7 20000)
       (Examples.single_executor (Some Examples.half_profile) CTRL_OK 20000)
       (new_BatchTask 0 1) ex' bt') /\
  (exists ex' bt',
     GetBatchInput 0 (Examples.single_executor (Some Examples.half_profile)
                        CTRL_OK 20000)
       (new_BatchTask 0 1) = Ret (ex', bt') /\
     exists popped,
       [Examples.input_of 7 20000] = popped ++ input_queue_ ex' /\
       (1 <= batch_size bt' \/ input_queue_ ex' = []) /\
       (forall p, Some Examples.half_profile = Some p ->
          exists latency us,
            GetForwardLatency p 1 = Ret latency /\
            f_to_int latency = Ret us /\
            handled 1 (0 + us) popped
              (Examples.single_executor (Some Examples.half_profile)
                 CTRL_OK 20000)
              (new_BatchTask 0 1) ex' bt') /\
       (Some Examples.half_profile = None ->
          forall finish,
            handled 1 finish popped
              (Examples.single_executor (Some Examples.half_profile)
                 CTRL_OK 20000)
              (new_BatchTask 0 1) ex' bt')) /\
  (exists ex' bt',
     GetBatchInput 0 (Examples.single_executor None (CTRL_ERROR 1) 100)
       (new_BatchTask 0 1) = Ret (ex', bt') /\
     task_queue_ ex' = [1%positive] /\
     exists popped,
       [Examples.input_of 7 100] = popped ++ input_queue_ ex' /\
       (1 <= batch_size bt' \/ input_queue_ ex' = []) /\
       (forall p, @None ModelProfile = Some p ->
          exists latency us,
            GetForwardLatency p 1 = Ret latency /\
            f_to_int latency = Ret us /\
            handled 1 (0 + us) popped
              (Examples.single_executor None (CTRL_ERROR 1) 100)
              (new_BatchTask 0 1) ex' bt') /\
       (@None ModelProfile = None ->
          forall finish,
            handled 1 finish popped
              (Examples.single_executor None (CTRL_ERROR 1) 100)
              (new_BatchTask 0 1) ex' bt')) /\
  (exists ex' bt',
     GetBatchInput 0 (Examples.single_executor (Some Examples.half_profile)
                        CTRL_OK 20000)
       (new_BatchTask 0 1) = Ret (ex', bt') /\
     exists added,
       bt_items bt' = [] ++ added /\
       forall input task, (input, task) ∈ added ->
         input ∈ [Examples.input_of 7 20000] /\
         forall p, Some Examples.half_profile = Some p ->
           exists latency us,
             GetForwardLatency p 1 = Ret latency /\
             f_to_int latency = Ret us /\
             0 + us <= deadline input) /\
  (well_formed (Examples.single_executor (Some Examples.half_profile)
                  CTRL_OK 20000) /\
   finish_defined 0 (Examples.single_executor (Some Examples.half_profile)
                       CTRL_OK 20000) /\
   returns (GetBatchInput 0 (Examples.single_executor (Some Examples.half_profile)
                               CTRL_OK 20000)
              (new_BatchTask 0 1))).
Proof.
  split; [|split; [|split; [|split]]].
  - eexists _, _. split; [reflexivity|].
    apply (proj1 GetBatchInput_spec). reflexivity.
  - eexists _, _. split; [reflexivity|].
    exact (proj1 (proj2 GetBatchInput_spec) 0
             (Examples.single_executor (Some Examples.half_profile)
                CTRL_OK 20000)
             _ (new_BatchTask 0 1) _ eq_refl).
  - eexists _, _. split; [reflexivity|]. split; [reflexivity|].
    exact (proj1 (proj2 GetBatchInput_spec) 0
             (Examples.single_executor None (CTRL_ERROR 1) 100)
             _ (new_BatchTask 0 1) _ eq_refl).
  - eexists _, _. split; [reflexivity|].
    exact (proj1 (proj2 (proj2 GetBatchInput_spec)) 0
             (Examples.single_executor (Some Examples.half_profile)
                CTRL_OK 20000)
             _ (new_BatchTask 0 1) _ eq_refl).
  - split; [apply single_executor_well_formed|].
    split; [apply half_finish_defined|].
    apply (proj2 (proj2 (proj2 GetBatchInput_spec)));
      [apply single_executor_well_formed | reflexivity | apply half_finish_defined].
Defined.

(** C4 as stated fails by the fraction that [int(latency)] drops.  The
    cutoff is a whole number of microseconds: with a forward latency of
    10000.5 an input due at 10000 is taken into a batch that starts at 0. *)
Lemma GetBatchInput_truncates_latency :
  (exists ex' bt',
     GetBatchInput 0 (Examples.single_executor (Some Examples.half_profile)
                        CTRL_OK 10000)
       (new_BatchTask 0 1) = Ret (ex', bt') /\
     bt_items bt' = [(Examples.input_of 7 10000, 1%positive)]) /\
  GetForwardLatency Examples.half_profile 1 = Ret (f32_round 20001 (-1)) /\
  f_to_int (f32_round 20001 (-1)) = Ret 10000 /\
  ~ plus_f_le 0 (f32_round 20001 (-1)) 10000 /\
  ~ batch_meets_forward_latency.
Proof.
  split; [eexists _, _; split; reflexivity|].
  split; [reflexivity|]. split; [reflexivity|].
  assert (Hnot : ~ plus_f_le 0 (f32_round 20001 (-1)) 10000)
    by (vm_compute; intros H; apply H; reflexivity).
  split; [exact Hnot|].
  intros H. apply Hnot.
  apply (H 0 (Examples.single_executor (Some Examples.half_profile)
                CTRL_OK 10000)
           _ (new_BatchTask 0 1) _ Examples.half_profile _
           eq_refl eq_refl eq_refl eq_refl
           (Examples.input_of 7 10000) 1%positive).
  left.
Qed.

Lemma GetBatchInput_empty_queue_witness :
  (profile_ (new_executor (Examples.echo_model 4)
               (Some Examples.half_profile) [] ∅)
     = Some Examples.half_profile /\
   0 <= m_batch (Examples.echo_model 4)) /\
  Execute 0 (new_executor (Examples.echo_model 4)
               (Some Examples.half_profile) [] ∅)
    = Throw (ProfileOutOfRange 0).
Proof.
  split; [split; [reflexivity | discriminate]|].
  apply (GetBatchInput_empty_queue 0
           (new_executor (Examples.echo_model 4)
              (Some Examples.half_profile) [] ∅)
           Examples.half_profile (new_BatchTask 0 4));
    [reflexivity | reflexivity | discriminate].
Defined.

Lemma Execute_batch_ids_witness :
  (reachable Examples.idle_executor /\
   exists ex1 ex2,
     Execute 0 Examples.idle_executor = Ret ex1 /\
     Execute 5 ex1 = Ret ex2 /\
     created_ids (events ex2) = [0; 1]) /\
  (exists ex1 bt,
     GetBatchInput 0
       (fst (allocate_batch (Examples.single_executor None (CTRL_ERROR 1) 100)))
       (snd (allocate_batch (Examples.single_executor None (CTRL_ERROR 1) 100)))
       = Ret (ex1, bt) /\
     batch_size bt = 0 /\
     Execute 0 (Examples.single_executor None (CTRL_ERROR 1) 100) = Ret ex1 /\
     events ex1 = [BatchCreated 0]) /\
  Execute 0 Examples.idle_executor
    = Ret (fst (allocate_batch Examples.idle_executor)) /\
  (well_formed (Examples.single_executor (Some Examples.half_profile) CTRL_OK 20000) /\
   exists ex',
     Execute 0 (Examples.single_executor (Some Examples.half_profile) CTRL_OK 20000)
       = Ret ex' /\
     well_formed ex').
Proof.
  split; [|split; [|split]].
  - split; [constructor|].
    exists (fst (allocate_batch Examples.idle_executor)),
           (fst (allocate_batch (fst (allocate_batch Examples.idle_executor)))).
    split; [reflexivity|]. split; [reflexivity|].
    apply (proj1 Execute_batch_ids).
    + apply (reach_Execute 5 (fst (allocate_batch Examples.idle_executor)));
        [|reflexivity].
      apply (reach_Execute 0 Examples.idle_executor); [|reflexivity].
      apply reach_new.
    + discriminate.
  - eexists _, _. split; [reflexivity|]. split; [reflexivity|].
    eapply (proj1 (proj2 Execute_batch_ids) 0
              (Examples.single_executor None (CTRL_ERROR 1) 100));
      reflexivity.
  - apply (proj1 (proj2 (proj2 Execute_batch_ids))); reflexivity.
  - split; [apply single_executor_well_formed|].
    apply (proj2 (proj2 (proj2 Execute_batch_ids)));
      [apply single_executor_well_formed | apply half_finish_defined
      | apply forward_total_echo].
Defined.

(** C9 as stated fails when batch formation drops inputs.  The one queued
    input belongs to a task that has failed: it is popped and answered with a
    virtual output, the task goes to postprocess, and the batch stays
    empty. *)
Lemma Execute_empty_batch_has_effects :
  (exists ex',
     Execute 0 (Examples.single_executor None (CTRL_ERROR 1) 100) = Ret ex' /\
     events ex' = [BatchCreated 0] /\
     input_queue_ ex' = [] /\
     task_queue_ ex' = [1%positive] /\
     processing_tasks_ ex' !! 7 = None /\
     (outputs <$> heap ex' !! 1%positive) = Some [VirtualOutput 0]) /\
  ~ empty_Execute_only_allocates.
Proof.
  split.
  - eexists. split; [reflexivity|]. repeat split; reflexivity.
  - intros H.
    specialize (H 0 (Examples.single_executor None (CTRL_ERROR 1) 100)
                  _ eq_refl eq_refl).
    apply (f_equal task_queue_) in H. discriminate H.
Qed.

(** * More of the scheduler *)

(** ** Liveness *)

(** X1.  [IsAlive] within [timeout] of the last sign of life answers true,
    sends nothing and changes nothing.  Past it, one [CheckAlive] request
    goes out, for a backend node and with the id of this backend: when the
    transport fails the answer is false and the record is as before; when a
    reply comes the answer is true and [last_time_] is the clock after the
    RPC, whatever status the reply carries. *)
Theorem IsAlive_spec (timeout : Z) (stub : CheckAliveStub) (now now' : Z)
    (c : BackendRpcClient) :
  let request := {| ca_node_type := BACKEND_NODE; ca_node_id := node_id c |} in
  let '(c', alive, sent) := IsAlive timeout stub now now' c in
  (now - last_time c < timeout -> c' = c /\ alive = true /\ sent = []) /\
  (timeout <= now - last_time c ->
   sent = [request] /\
   match stub request with
   | RpcFailed _ => alive = false /\ c' = c
   | RpcReplied _ => alive = true /\ c' = set_last_time now' c
   end).
Proof.
  cbv zeta. unfold IsAlive. cbv zeta.
  destruct (Z.ltb_spec (now - last_time c) timeout) as [Hlt|Hge].
  - split; [auto | lia].
  - destruct (stub _) as [code|status]; (split; [lia | auto]).
Qed.

Lemma IsAlive_spec_witness :
  (10 - last_time Examples.idle_client < 30 /\
   30 <= 50 - last_time Examples.idle_client) /\
  IsAlive 30 (fun _ => RpcFailed 14) 10 11 Examples.idle_client
    = (Examples.idle_client, true, []) /\
  fst (IsAlive 30 (fun _ => RpcFailed 14) 50 51 Examples.idle_client)
    = (Examples.idle_client, false) /\
  fst (IsAlive 30 (fun _ => RpcReplied (CTRL_ERROR 3)) 50 51 Examples.idle_client)
    = (set_last_time 51 Examples.idle_client, true).
Proof.
  split; [split; [reflexivity | discriminate]|].
  pose proof (IsAlive_spec 30 (fun _ => RpcFailed 14) 10 11 Examples.idle_client) as H1.
  pose proof (IsAlive_spec 30 (fun _ => RpcFailed 14) 50 51 Examples.idle_client) as H2.
  pose proof (IsAlive_spec 30 (fun _ => RpcReplied (CTRL_ERROR 3)) 50 51
                Examples.idle_client) as H3.
  cbv zeta in H1, H2, H3.
  destruct (IsAlive 30 (fun _ => RpcFailed 14) 10 11 _) as [[c1 a1] s1].
  destruct (IsAlive 30 (fun _ => RpcFailed 14) 50 51 _) as [[c2 a2] s2].
  destruct (IsAlive 30 (fun _ => RpcReplied (CTRL_ERROR 3)) 50 51 _) as [[c3 a3] s3].
  destruct H1 as [H1 _]. destruct (H1 eq_refl) as (-> & -> & ->).
  destruct H2 as [_ H2]. destruct (H2 ltac:(discriminate)) as (_ & -> & ->).
  destruct H3 as [_ H3]. destruct (H3 ltac:(discriminate)) as (_ & -> & ->).
  repeat split.
Defined.

Lemma IsAlive_fresh (timeout : Z) (stub : CheckAliveStub) (now now' : Z)
    (c : BackendRpcClient) :
  now - last_time c < timeout -> IsAlive timeout stub now now' c = (c, true, []).
Proof.
  intros H. unfold IsAlive. cbv zeta.
  destruct (Z.ltb_spec (now - last_time c) timeout); [reflexivity | lia].
Qed.

Lemma IsAlive_replied (timeout : Z) (stub : CheckAliveStub) (now now' : Z)
    (c : BackendRpcClient) (status : CtrlStatus) :
  timeout <= now - last_time c ->
  stub {| ca_node_type := BACKEND_NODE; ca_node_id := node_id c |}
    = RpcReplied status ->
  fst (fst (IsAlive timeout stub now now' c)) = set_last_time now' c.
Proof.
  intros H Hreply. unfold IsAlive. cbv zeta.
  destruct (Z.ltb_spec (now - last_time c) timeout); [lia|].
  rewrite Hreply. reflexivity.
Qed.

(** X2.  What refreshes [last_time_] at time [t] makes [IsAlive] answer true
    without an RPC for the next [timeout]: [UpdateStats], a [CheckAlive]
    that went through, and an [UpdateModelTable] that went through, whatever
    status its reply carries.  An [UpdateModelTable] whose transport failed
    refreshes nothing: [IsAlive] decides as it would have before. *)
Theorem liveness_refresh (timeout : Z) (t now now' : Z) (c : BackendRpcClient)
    (alive_stub : CheckAliveStub) :
  now - t < timeout ->
  (forall (Stats : Type) (stats : Stats),
      IsAlive timeout alive_stub now now' (UpdateStats stats t c)
        = (UpdateStats stats t c, true, [])) /\
  (forall (stub : CheckAliveStub) (t0 : Z) (status : CtrlStatus),
      timeout <= t0 - last_time c ->
      stub {| ca_node_type := BACKEND_NODE; ca_node_id := node_id c |}
        = RpcReplied status ->
      IsAlive timeout alive_stub now now' (fst (fst (IsAlive timeout stub t0 t c)))
        = (fst (fst (IsAlive timeout stub t0 t c)), true, [])) /\
  (forall (stub : BackendStub) (status : CtrlStatus),
      dirty_model_table c = true ->
      stub (model_table_config c) = RpcReplied status ->
      IsAlive timeout alive_stub now now' (fst (fst (UpdateModelTable stub t c)))
        = (fst (fst (UpdateModelTable stub t c)), true, [])) /\
  (forall (stub : BackendStub) (code : Z),
      stub (model_table_config c) = RpcFailed code ->
      IsAlive timeout alive_stub now now' (fst (fst (UpdateModelTable stub t c)))
        = IsAlive timeout alive_stub now now' c).
Proof.
  intros Hfresh. split; [|split; [|split]].
  - intros Stats stats. apply IsAlive_fresh. exact Hfresh.
  - intros stub t0 status Hstale Hreply.
    rewrite (IsAlive_replied _ _ _ _ _ _ Hstale Hreply).
    apply IsAlive_fresh. exact Hfresh.
  - intros stub status Hdirty Hreply.
    apply IsAlive_fresh. unfold UpdateModelTable.
    rewrite Hdirty, GetModelTableNoLock_empty, Hreply. exact Hfresh.
  - intros stub code Hfail. unfold UpdateModelTable.
    destruct (dirty_model_table c); cbn [negb fst]; [|reflexivity].
    rewrite GetModelTableNoLock_empty, Hfail. reflexivity.
Qed.

Lemma liveness_refresh_witness :
  15 - 10 < 30 /\
  IsAlive 30 (fun _ => RpcFailed 14) 15 16
    (UpdateStats tt 10 Examples.idle_client)
    = (UpdateStats tt 10 Examples.idle_client, true, []) /\
  snd (fst (IsAlive 30 (fun _ => RpcFailed 14) 15 16
              (fst (fst (UpdateModelTable (fun _ => RpcReplied (CTRL_ERROR 2)) 10
                           Examples.loaded_client))))) = true.
Proof.
  split; [reflexivity|].
  destruct (liveness_refresh 30 10 15 16 Examples.idle_client
              (fun _ => RpcFailed 14) eq_refl) as (H1 & _).
  destruct (liveness_refresh 30 10 15 16 Examples.loaded_client
              (fun _ => RpcFailed 14) eq_refl) as (_ & _ & H3 & _).
  split; [apply H1|].
  rewrite (H3 (fun _ => RpcReplied (CTRL_ERROR 2)) (CTRL_ERROR 2) eq_refl eq_refl).
  reflexivity.
Defined.

(** ** The dirty flag *)

(** X3.  An [UpdateModelTable] that returned [CTRL_OK] leaves a clean table:
    the next call sends nothing, changes nothing and returns [CTRL_OK],
    whatever the backend would answer.  One that found the table dirty and
    returned another status leaves it dirty: the next call sends the same
    table again. *)
Theorem UpdateModelTable_again (stub stub' : BackendStub) (now now' : Z)
    (c : BackendRpcClient) :
  let '(c1, status, sent) := UpdateModelTable stub now c in
  (status = CTRL_OK -> UpdateModelTable stub' now' c1 = (c1, CTRL_OK, [])) /\
  (dirty_model_table c = true -> status <> CTRL_OK ->
   snd (UpdateModelTable stub' now' c1) = [model_table_config c]).
Proof.
  unfold UpdateModelTable at 1. rewrite GetModelTableNoLock_empty.
  destruct (dirty_model_table c) eqn:Hd; cbn [negb].
  - destruct (stub (model_table_config c)) as [code|status].
    + split; [discriminate|]. intros _ _.
      unfold UpdateModelTable. rewrite Hd, GetModelTableNoLock_empty. cbn [negb].
      destruct (stub' _); reflexivity.
    + split.
      * intros ->. unfold UpdateModelTable. reflexivity.
      * intros _ Hne. unfold UpdateModelTable.
        cbn [dirty_model_table model_table_config].
        destruct (CtrlStatus_eqb status CTRL_OK) eqn:E;
          [apply CtrlStatus_eqb_eq in E; contradiction|].
        cbn [negb]. unfold GetModelTableNoLock.
        cbn [model_table_config]. rewrite fold_left_snoc.
        destruct (stub' _); reflexivity.
  - split; [|discriminate]. intros _. unfold UpdateModelTable. rewrite Hd.
    reflexivity.
Qed.

Lemma UpdateModelTable_again_witness :
  dirty_model_table Examples.loaded_client = true /\
  UpdateModelTable (fun _ => RpcFailed 14) 9
    (fst (fst (UpdateModelTable (fun _ => RpcReplied CTRL_OK) 7
                 Examples.loaded_client)))
    = (fst (fst (UpdateModelTable (fun _ => RpcReplied CTRL_OK) 7
                   Examples.loaded_client)), CTRL_OK, []) /\
  snd (UpdateModelTable (fun _ => RpcReplied CTRL_OK) 9
         (fst (fst (UpdateModelTable (fun _ => RpcFailed 14) 7
                      Examples.loaded_client))))
    = [model_table_config Examples.loaded_client].
Proof.
  split; [reflexivity|].
  pose proof (UpdateModelTable_again (fun _ => RpcReplied CTRL_OK)
                (fun _ => RpcFailed 14) 7 9 Examples.loaded_client) as H1.
  pose proof (UpdateModelTable_again (fun _ => RpcFailed 14)
                (fun _ => RpcReplied CTRL_OK) 7 9 Examples.loaded_client) as H2.
  split.
  - destruct (UpdateModelTable (fun _ => RpcReplied CTRL_OK) 7 _)
      as [[c1 status] sent] eqn:E.
    assert (Hs : status = CTRL_OK) by (vm_compute in E; congruence).
    cbn [fst]. apply (proj1 H1 Hs).
  - destruct (UpdateModelTable (fun _ => RpcFailed 14) 7 _)
      as [[c1 status] sent] eqn:E.
    assert (Hs : status <> CTRL_OK) by (vm_compute in E; congruence).
    cbn [fst]. apply (proj2 H2 eq_refl Hs).
Defined.

(** ** Loading and reading the table *)

Lemma GetModelTable_app (c : BackendRpcClient) (msg : list ModelInstanceConfig) :
  GetModelTable c msg = msg ++ model_table_config c.
Proof. unfold GetModelTable, GetModelTableNoLock. apply fold_left_snoc. Qed.

(** X4.  [GetModelTable] appends the configs of the table, in order, to the
    message it is handed and leaves what the message held.  After a dynamic
    [LoadModel] on a backend whose exec cycle is not positive, the next
    [UpdateModelTable] sends one request, the table read into an empty message:
    the configs held before followed by the one just loaded, whether the
    table was dirty before or not. *)
Theorem LoadModel_then_UpdateModelTable (config : ModelInstanceConfig)
    (c : BackendRpcClient) (stub : BackendStub) (now : Z)
    (msg : list ModelInstanceConfig) :
  f_gtb (exec_cycle_us c) fzero = false ->
  GetModelTable c msg = msg ++ model_table_config c /\
  GetModelTable (LoadModel config c) [] = model_table_config c ++ [config] /\
  snd (UpdateModelTable stub now (LoadModel config c))
    = [GetModelTable (LoadModel config c) []].
Proof.
  intros Hidle. split; [apply GetModelTable_app|].
  rewrite GetModelTable_app. unfold LoadModel. rewrite Hidle.
  cbn [model_table_config app]. split; [reflexivity|].
  unfold UpdateModelTable. cbn [dirty_model_table negb].
  rewrite GetModelTableNoLock_empty. cbn [model_table_config].
  destruct (stub _); reflexivity.
Qed.

Lemma LoadModel_then_UpdateModelTable_witness :
  f_gtb (exec_cycle_us Examples.idle_client) fzero = false /\
  snd (UpdateModelTable (fun _ => RpcFailed 14) 3
         (LoadModel empty_config Examples.idle_client))
    = [[empty_config]].
Proof.
  split; [reflexivity|].
  destruct (LoadModel_then_UpdateModelTable empty_config Examples.idle_client
              (fun _ => RpcFailed 14) 3 [] eq_refl) as (_ & Hget & Hsent).
  rewrite Hsent, Hget. reflexivity.
Defined.

(** ** Idle and loaded backends *)

(** X5.  Once a dynamic [LoadModel] has loaded a plan with a positive forward
    latency, the backend is no longer idle and refuses what follows: another
    [LoadModel] leaves the record as it is, and [PrepareLoadModel] answers
    with [batch = 0], for every workload, leaving the other fields of the
    config (but the session) and the occupancy as the caller passed them. *)
Theorem loaded_backend_refuses (db : ModelDatabase) (c : BackendRpcClient)
    (config config2 : ModelInstanceConfig) (model_sess : ModelSession)
    (workload : float) (plan : ModelInstanceConfig) (occupancy : float)
    (profile : ModelProfile) (max_throughput : Z) :
  f_gtb (exec_cycle_us c) fzero = false ->
  f_gtb (forward_latency config) fzero = true ->
  db (gpu_device c) (ModelSessionToProfileID model_sess) = Some profile ->
  f_to_uint32 (snd (GetMaxThroughput profile (latency_sla model_sess)))
    = Ret max_throughput ->
  let c1 := LoadModel config c in
  IsIdle c1 = false /\
  LoadModel config2 c1 = c1 /\
  PrepareLoadModel db c1 model_sess workload plan occupancy
    = Ret (set_batch 0 (set_model_session model_sess plan), occupancy).
Proof.
  intros Hidle Hpos Hdb Htp. cbv zeta.
  assert (Hexec : exec_cycle_us (LoadModel config c) = forward_latency config)
    by (unfold LoadModel; rewrite Hidle; reflexivity).
  assert (Hgpu : gpu_device (LoadModel config c) = gpu_device c)
    by (unfold LoadModel; rewrite Hidle; reflexivity).
  assert (Hne : f_eqb (forward_latency config) fzero = false)
    by (apply f_ltb_not_eqb; exact Hpos).
  split; [unfold IsIdle; rewrite Hexec; exact Hne|].
  split; [unfold LoadModel at 1; rewrite Hexec, Hpos; reflexivity|].
  unfold PrepareLoadModel. rewrite Hgpu, Hdb, Hexec.
  destruct (GetMaxThroughput profile (latency_sla model_sess)) as [mb tp].
  cbn [snd] in Htp. rewrite Htp. unfold mbind, result_bind. rewrite Hne.
  destruct (f_eqb workload fzero); reflexivity.
Qed.

Lemma loaded_backend_refuses_witness :
  (f_gtb (exec_cycle_us Examples.idle_client) fzero = false /\
   f_gtb (forward_latency (set_forward_latency (f32_of_Z 5000) empty_config)) fzero
     = true) /\
  IsIdle Examples.loaded_client = false /\
  LoadModel empty_config Examples.loaded_client = Examples.loaded_client /\
  PrepareLoadModel Examples.scenario_db Examples.loaded_client
    (Examples.session 50) (f32_of_Z 50) empty_config fzero
    = Ret (set_batch 0 (set_model_session (Examples.session 50) empty_config), fzero).
Proof.
  split; [split; reflexivity|].
  apply (loaded_backend_refuses Examples.scenario_db Examples.idle_client
           (set_forward_latency (f32_of_Z 5000) empty_config) empty_config
           (Examples.session 50) (f32_of_Z 50) empty_config fzero
           Examples.scenario_profile 160); reflexivity.
Defined.

(** X6.  A plan whose forward latency is not positive, such as the
    [batch = 0] answer of [PrepareLoadModel], is loaded all the same and
    leaves the backend looking free: the next [LoadModel] is accepted too,
    and the table then holds both configs, with the cycles of the second. *)
Theorem LoadModel_idle_plan (config config2 : ModelInstanceConfig)
    (c : BackendRpcClient) :
  f_gtb (exec_cycle_us c) fzero = false ->
  f_gtb (forward_latency config) fzero = false ->
  let c2 := LoadModel config2 (LoadModel config c) in
  model_table_config c2 = model_table_config c ++ [config; config2] /\
  exec_cycle_us c2 = forward_latency config2 /\
  duty_cycle_us c2 = sla_minus_exec (model_session config2) (forward_latency config2) /\
  dirty_model_table c2 = true.
Proof.
  intros Hidle Hzero. cbv zeta. unfold LoadModel. rewrite Hidle.
  cbn [exec_cycle_us]. rewrite Hzero. cbn. rewrite <- app_assoc.
  repeat split; reflexivity.
Qed.

Lemma LoadModel_idle_plan_witness :
  (f_gtb (exec_cycle_us Examples.idle_client) fzero = false /\
   f_gtb (forward_latency (set_batch 0 empty_config)) fzero = false) /\
  model_table_config
    (LoadModel (set_forward_latency (f32_of_Z 5000) empty_config)
       (LoadModel (set_batch 0 empty_config) Examples.idle_client))
    = [set_batch 0 empty_config; set_forward_latency (f32_of_Z 5000) empty_config].
Proof.
  split; [split; reflexivity|].
  apply (LoadModel_idle_plan (set_batch 0 empty_config)
           (set_forward_latency (f32_of_Z 5000) empty_config)
           Examples.idle_client); reflexivity.
Defined.

(** ** The static loader *)

Lemma refresh_throughput_fields (duty : float) (cfg : ModelInstanceConfig) :
  forward_latency (refresh_throughput duty cfg) = forward_latency cfg /\
  batch (refresh_throughput duty cfg) = batch cfg /\
  throughput (refresh_throughput duty cfg) = batch_throughput (batch cfg) duty /\
  workload (refresh_throughput duty cfg) = batch_throughput (batch cfg) duty.
Proof. repeat split. Qed.

(** X7.  The record the constructor leaves satisfies [static_invariant], and
    the static [LoadModel] keeps it: for an entry whose session is well
    formed, whose profile is present and has a row for the entry's batch,
    the call returns, the table is one config longer and dirty, its last
    config has the entry's batch as [batch] and [max_batch] and the
    profile's forward latency, the configs before keep their batches, and
    afterwards the exec cycle is again the sum of the forward latencies, the
    duty cycle equals it, and every config, old or new, has throughput and
    workload [batch * 1e6 / duty_cycle_us] for the new duty cycle. *)
Theorem LoadModel_yaml_static_invariant :
  (forall (id : Z) (gpu : string) (now : Z),
      static_invariant (new_client id gpu now)) /\
  (forall (db : ModelDatabase) (model_info : WorkloadEntry) (c : BackendRpcClient)
          (sess : ModelSession) (profile : ModelProfile),
      static_invariant c ->
      entry_session model_info = Ret sess ->
      db (gpu_device c) (ModelSessionToProfileID sess) = Some profile ->
      in_profile_range profile (y_batch model_info) ->
      exists c' cfg,
        LoadModel_yaml db model_info c = Ret c' /\
        static_invariant c' /\
        dirty_model_table c' = true /\
        map batch (model_table_config c')
          = map batch (model_table_config c) ++ [y_batch model_info] /\
        last (model_table_config c') = Some cfg /\
        max_batch cfg = y_batch model_info /\
        model_session cfg = sess /\
        GetForwardLatency profile (y_batch model_info)
          = Ret (forward_latency cfg) /\
        exec_cycle_us c' = f32_add (exec_cycle_us c) (forward_latency cfg)).
Proof.
  split.
  - intros id gpu now. repeat split. constructor.
  - intros db model_info c sess profile (Hsum & Hduty & _) Hsess Hdb Hrange.
    destruct (GetForwardLatency_in_range profile _ Hrange) as [fwd Hfwd].
    destruct (GetMemoryUsage_in_range profile _ Hrange) as [mem Hmem].
    unfold LoadModel_yaml. rewrite Hsess. run_bind.
    rewrite Hdb, Hmem. run_bind. rewrite Hfwd. run_binds.
    eexists _, _. split; [reflexivity|].
    unfold static_invariant.
    cbn [exec_cycle_us duty_cycle_us model_table_config dirty_model_table].
    split; [split; [|split]|].
    + rewrite map_map.
      rewrite (map_ext _ forward_latency)
        by (intros cfg; apply refresh_throughput_fields).
      rewrite map_app, fold_left_app, <- Hsum. reflexivity.
    + rewrite Hduty. reflexivity.
    + apply Forall_forall. intros cfg Hin. apply list_elem_of_In in Hin.
      apply in_map_iff in Hin. destruct Hin as (cfg0 & <- & _).
      split; reflexivity.
    + split; [reflexivity|]. split.
      { rewrite map_map.
        rewrite (map_ext _ batch) by (intros cfg; apply refresh_throughput_fields).
        rewrite map_app. reflexivity. }
      split.
      { rewrite map_app. cbn [map]. apply last_snoc. }
      split; [reflexivity|]. split; [reflexivity|].
      split; reflexivity.
Qed.

Lemma in_range_scenario_2 : in_profile_range Examples.scenario_profile 2.
Proof. unfold in_profile_range, max_known_batch. simpl. lia. Qed.

Lemma LoadModel_yaml_static_invariant_witness :
  (static_invariant Examples.idle_client /\
   in_profile_range Examples.scenario_profile 1 /\
   in_profile_range Examples.scenario_profile 2) /\
  exists c1 c2,
    LoadModel_yaml Examples.scenario_db (Examples.entry 50 1)
      Examples.idle_client = Ret c1 /\
    LoadModel_yaml Examples.scenario_db (Examples.entry 50 2) c1 = Ret c2 /\
    static_invariant c2 /\
    map batch (model_table_config c2) = [1; 2].
Proof.
  pose proof (proj1 LoadModel_yaml_static_invariant 1 "gpu0"%string 0) as H0.
  split; [split; [exact H0 | split;
          [apply in_range_scenario_1 | apply in_range_scenario_2]]|].
  destruct (proj2 LoadModel_yaml_static_invariant Examples.scenario_db
              (Examples.entry 50 1) Examples.idle_client (Examples.session 50)
              Examples.scenario_profile H0 eq_refl eq_refl in_range_scenario_1)
    as (c1 & cfg1 & Hret1 & Hinv1 & _ & Hb1 & _).
  assert (Hgpu : gpu_device c1 = "gpu0"%string)
    by (vm_compute in Hret1; injection Hret1 as <-; reflexivity).
  destruct (proj2 LoadModel_yaml_static_invariant Examples.scenario_db
              (Examples.entry 50 2) c1 (Examples.session 50)
              Examples.scenario_profile Hinv1 eq_refl)
    as (c2 & cfg2 & Hret2 & Hinv2 & _ & Hb2 & _).
  - rewrite Hgpu. reflexivity.
  - apply in_range_scenario_2.
  - exists c1, c2. split; [exact Hret1|]. split; [exact Hret2|].
    split; [exact Hinv2|]. rewrite Hb2, Hb1. reflexivity.
Defined.

(** * The profiler's statistics *)

Lemma f32_sqrt_div_zero (v : float) :
  f_is_finite (f32_sqrt (f32_div v (f32_of_Z 0))) = false.
Proof. destruct v as [s|s| |s m e]; try destruct s; reflexivity. Qed.

(** X8.  [GetStats] needs two samples: of no sample the mean is 0/0, not a
    number; of one sample the deviation is the square root of a sum divided
    by [size - 1 = 0], which is infinite or not a number whatever the sample
    is.  So with fewer than two samples the pair returned is never a pair of
    two finite numbers. *)
Theorem GetStats_too_few (lats : list Z) :
  (length lats <= 1)%nat ->
  f_is_finite (fst (GetStats lats)) && f_is_finite (snd (GetStats lats)) = false.
Proof.
  intros Hlen. destruct lats as [|x [|y lats]]; [reflexivity| |cbn in Hlen; lia].
  apply andb_false_iff. right. unfold GetStats. cbv zeta. cbn [snd length].
  change (wrap64 (Z.of_nat 1 - 1)) with 0. apply f32_sqrt_div_zero.
Qed.

Lemma GetStats_too_few_witness :
  (length [5000] <= 1)%nat /\
  f_is_finite (fst (GetStats [5000])) && f_is_finite (snd (GetStats [5000])) = false.
Proof. split; [cbn; lia|]. apply GetStats_too_few. cbn. lia. Defined.

(** * More on the executor *)

(** ** The shape of a batch *)

Lemma later_refl (ex : ModelExecutor) : later ex ex.
Proof. repeat split; auto. Qed.

Lemma later_insert (ex0 ex ex' : ModelExecutor) (task : ptr) (t t' : Task) :
  later ex0 ex ->
  heap ex !! task = Some t -> status t' = status t ->
  profile_ ex' = profile_ ex ->
  (forall k p, processing_tasks_ ex' !! k = Some p ->
               processing_tasks_ ex !! k = Some p) ->
  heap ex' = <[task := t']> (heap ex) ->
  later ex0 ex'.
Proof.
  intros (Hprof & Hmap & Hst) Ht Hstatus Hprof' Hmap' Hheap.
  split; [congruence|]. split; [auto|].
  intros p. rewrite Hheap, <- Hst.
  destruct (decide (p = task)) as [->|Hne].
  - rewrite lookup_insert_eq, Ht. cbn. congruence.
  - rewrite lookup_insert_ne by congruence. reflexivity.
Qed.

(** One turn of the loop, seen from the state [ex0] the loop started in. *)
Lemma process_input_later (ex0 : ModelExecutor) (finish : TimePoint)
    (input : Input) (ex ex' : ModelExecutor) (bt bt' : BatchTask) :
  later ex0 ex ->
  process_input finish input ex bt = Ret (ex', bt') ->
  later ex0 ex' /\
  input_queue_ ex' = input_queue_ ex /\
  bt_items bt' = bt_items bt ++ omap (batch_item ex0 finish) [input] /\
  registered ex0 input /\
  (is_Some (batch_item ex0 finish input) ->
   task_queue_ ex' = task_queue_ ex /\
   processing_tasks_ ex' = processing_tasks_ ex).
Proof.
  intros Hlater Hstep.
  pose proof (process_input_frame _ _ _ _ _ _ Hstep) as [(_ & Hprof & _) Hq].
  apply process_input_spec in Hstep.
  destruct Hstep as (task & t & Hlook & Ht & Hcase). cbv zeta in Hcase.
  assert (Hreg : exists t0, processing_tasks_ ex0 !! in_tid input = Some task /\
                   heap ex0 !! task = Some t0 /\ status t0 = status t).
  { destruct Hlater as (_ & Hmap & Hst). specialize (Hst task).
    rewrite Ht in Hst. destruct (heap ex0 !! task) as [t0|]; [|discriminate Hst].
    injection Hst as Hst. exists t0. auto. }
  destruct Hreg as (t0 & Hlook0 & Ht0 & Hst0).
  assert (Hitem : batch_item ex0 finish input
                  = if negb (CtrlStatus_eqb (status t) CTRL_OK)
                       || bool_decide (is_Some (profile_ ex))
                          && (deadline input <? finish)
                    then None else Some (input, task)).
  { unfold batch_item. rewrite Hlook0, Ht0. unfold dropped.
    rewrite Hst0, (proj1 Hlater). reflexivity. }
  cbn [omap list_omap]. rewrite Hitem.
  destruct (negb (CtrlStatus_eqb (status t) CTRL_OK)
            || bool_decide (is_Some (profile_ ex)) && (deadline input <? finish)).
  - destruct Hcase as [-> Hcase]. rewrite app_nil_r.
    split; [|split; [exact Hq|split; [reflexivity|split]]].
    + destruct (length _ =? length _)%nat;
        destruct Hcase as (Hheap & _ & Hmap');
        (eapply later_insert;
         [exact Hlater | exact Ht | | exact Hprof | | exact Hheap]);
        try reflexivity.
      * intros k p Hk. rewrite Hmap' in Hk.
        apply lookup_delete_Some in Hk. apply Hk.
      * intros k p Hk. rewrite Hmap' in Hk. exact Hk.
    + exists task, t0. auto.
    + intros [x Hx]. discriminate Hx.
  - destruct Hcase as (-> & Hheap & Htq & Hmap').
    split; [|split; [exact Hq|split; [reflexivity|split]]].
    + eapply later_insert;
        [exact Hlater | exact Ht | | exact Hprof | | exact Hheap]; [reflexivity|].
      intros k p Hk. rewrite Hmap' in Hk. exact Hk.
    + exists task, t0. auto.
    + intros _. auto.
Qed.

(** The loop pops a prefix of the queue and appends, in order, the batch
    items of the prefix; it stops on a full batch or on an empty queue. *)
Lemma batch_loop_shape (ex0 : ModelExecutor) (size : Z) (finish : TimePoint)
    (queue : list Input) :
  forall (ex ex' : ModelExecutor) (bt bt' : BatchTask),
    later ex0 ex ->
    input_queue_ ex = queue ->
    batch_loop queue size finish ex bt = Ret (ex', bt') ->
    later ex0 ex' /\
    exists popped,
      queue = popped ++ input_queue_ ex' /\
      bt_items bt' = bt_items bt ++ omap (batch_item ex0 finish) popped /\
      Forall (registered ex0) popped /\
      (size <= batch_size bt' \/ input_queue_ ex' = []) /\
      (batch_size bt <= size -> batch_size bt' <= size) /\
      (Forall (fun i => is_Some (batch_item ex0 finish i)) popped ->
       task_queue_ ex' = task_queue_ ex /\
       processing_tasks_ ex' = processing_tasks_ ex).
Proof.
  induction queue as [|input rest IH]; intros ex ex' bt bt' Hlater Hq;
    cbn [batch_loop].
  - intros [= <- <-]. split; [exact Hlater|]. exists [].
    rewrite Hq. cbn [omap list_omap]. rewrite !app_nil_r. repeat split; auto.
  - destruct (Z.ltb_spec (batch_size bt) size) as [Hlt|Hge].
    2:{ intros [= <- <-]. split; [exact Hlater|]. exists [].
        rewrite Hq. cbn [omap list_omap]. rewrite !app_nil_r.
        repeat split; auto. }
    destruct (process_input finish input (set_input_queue rest ex) bt)
      as [[ex1 bt1]|e] eqn:Hstep; unfold mbind, result_bind; [|discriminate].
    cbn [fst snd]. intros Hloop.
    destruct (process_input_later ex0 _ _ (set_input_queue rest ex) _ _ _
                Hlater Hstep)
      as (Hlater1 & Hq1 & Hitems1 & Hreg1 & Hsame1).
    cbn [input_queue_ task_queue_ processing_tasks_ set_input_queue]
      in Hq1, Hsame1.
    destruct (IH _ _ _ _ Hlater1 Hq1 Hloop)
      as (Hlater' & popped & Hsplit & Hitems & Hreg & Hexit & Hbound & Hsame).
    split; [exact Hlater'|]. exists (input :: popped).
    split; [cbn; congruence|].
    split; [|split; [constructor; assumption|split; [exact Hexit|split]]].
    + change (input :: popped) with ([input] ++ popped).
      rewrite omap_app, Hitems, Hitems1, <- app_assoc. reflexivity.
    + intros _. apply Hbound. unfold batch_size in *. rewrite Hitems1.
      rewrite length_app. cbn [omap list_omap].
      destruct (batch_item ex0 finish input); cbn [length]; lia.
    + intros Hall. apply Forall_cons in Hall. destruct Hall as [H1 Hall].
      destruct (Hsame1 H1) as [E1 E2]. destruct (Hsame Hall) as [E3 E4].
      split; congruence.
Qed.

Lemma batch_size_limit_bounds (ex : ModelExecutor) :
  0 <= m_batch (model_ ex) ->
  0 <= batch_size_limit ex <= m_batch (model_ ex) /\
  batch_size_limit ex <= Z.of_nat (length (input_queue_ ex)).
Proof.
  intros H. unfold batch_size_limit. cbv zeta.
  destruct (Z.gtb_spec (Z.of_nat (length (input_queue_ ex))) (m_batch (model_ ex)));
    lia.
Qed.

Lemma GetBatchInput_shape (now : TimePoint) (ex ex' : ModelExecutor)
    (bt bt' : BatchTask) :
  bt_items bt = [] ->
  GetBatchInput now ex bt = Ret (ex', bt') ->
  exists finish popped,
    finish_time now ex (batch_size_limit ex) = Ret finish /\
    later ex ex' /\
    input_queue_ ex = popped ++ input_queue_ ex' /\
    bt_items bt' = omap (batch_item ex finish) popped /\
    Forall (registered ex) popped /\
    (batch_size_limit ex <= batch_size bt' \/ input_queue_ ex' = []) /\
    (0 <= m_batch (model_ ex) -> batch_size bt' <= batch_size_limit ex) /\
    (Forall (fun i => is_Some (batch_item ex finish i)) popped ->
     task_queue_ ex' = task_queue_ ex /\
     processing_tasks_ ex' = processing_tasks_ ex).
Proof.
  intros Hbt. unfold GetBatchInput.
  destruct (finish_time now ex (batch_size_limit ex)) as [finish|e] eqn:Hfin;
    unfold mbind, result_bind; [|discriminate].
  intros Hloop.
  destruct (batch_loop_shape ex _ _ _ _ _ _ _ (later_refl ex) eq_refl Hloop)
    as (Hlater & popped & Hsplit & Hitems & Hreg & Hexit & Hbound & Hsame).
  rewrite Hbt in Hitems. cbn in Hitems.
  exists finish, popped. split; [reflexivity|]. split; [exact Hlater|].
  split; [exact Hsplit|]. split; [exact Hitems|]. split; [exact Hreg|].
  split; [exact Hexit|]. split; [|exact Hsame].
  intros Hbatch. apply Hbound. unfold batch_size. rewrite Hbt. cbn.
  apply batch_size_limit_bounds. exact Hbatch.
Qed.

(** X9.  What [GetBatchInput] makes of the queue, for a planned batch that
    is not negative and a batch task that starts empty.  It pops a prefix of
    the input queue and leaves the rest in place.  Every popped input was
    registered: its id led to a task on the heap.  The batch holds, in the
    order of the queue, exactly the popped inputs that are not dropped (the
    task has status OK and, with a profile, the deadline is not before
    [finish]), each with the task registered under its id.  The batch is
    never larger than [min(queue length, batch)], and the loop stops short
    of that size only when the queue is empty. *)
Theorem GetBatchInput_batch (now : TimePoint) (ex ex' : ModelExecutor)
    (bt bt' : BatchTask) :
  0 <= m_batch (model_ ex) ->
  bt_items bt = [] ->
  GetBatchInput now ex bt = Ret (ex', bt') ->
  exists finish popped,
    finish_time now ex (batch_size_limit ex) = Ret finish /\
    input_queue_ ex = popped ++ input_queue_ ex' /\
    Forall (registered ex) popped /\
    bt_items bt' = omap (batch_item ex finish) popped /\
    batch_size bt' <= batch_size_limit ex /\
    batch_size_limit ex <= m_batch (model_ ex) /\
    batch_size_limit ex <= Z.of_nat (length (input_queue_ ex)) /\
    (batch_size bt' = batch_size_limit ex \/ input_queue_ ex' = []).
Proof.
  intros Hbatch Hbt Hget.
  destruct (GetBatchInput_shape _ _ _ _ _ Hbt Hget)
    as (finish & popped & Hfin & _ & Hsplit & Hitems & Hreg & Hexit & Hle & _).
  specialize (Hle Hbatch).
  pose proof (batch_size_limit_bounds ex Hbatch) as [[_ H1] H2].
  exists finish, popped. repeat split; try assumption.
  destruct Hexit as [Hfull|Hempty]; [left; lia | right; exact Hempty].
Qed.

Lemma GetBatchInput_batch_witness :
  exists ex' bt',
    GetBatchInput 0 (Scenes.trio_executor 2 (CTRL_ERROR 1) None) (new_BatchTask 0 2)
      = Ret (ex', bt') /\
    0 <= m_batch (model_ (Scenes.trio_executor 2 (CTRL_ERROR 1) None)) /\
    bt_items bt'
      = [(Scenes.input_at 9 0 200, 3%positive);
         (Scenes.input_at 7 0 300, 1%positive)] /\
    input_queue_ ex' = [Scenes.input_at 9 1 400] /\
    exists finish popped,
      finish_time 0 (Scenes.trio_executor 2 (CTRL_ERROR 1) None)
        (batch_size_limit (Scenes.trio_executor 2 (CTRL_ERROR 1) None)) = Ret finish /\
      input_queue_ (Scenes.trio_executor 2 (CTRL_ERROR 1) None) = popped ++ input_queue_ ex' /\
      Forall (registered (Scenes.trio_executor 2 (CTRL_ERROR 1) None)) popped /\
      bt_items bt' = omap (batch_item (Scenes.trio_executor 2 (CTRL_ERROR 1) None) finish) popped /\
      batch_size bt' <= batch_size_limit (Scenes.trio_executor 2 (CTRL_ERROR 1) None) /\
      batch_size_limit (Scenes.trio_executor 2 (CTRL_ERROR 1) None)
        <= m_batch (model_ (Scenes.trio_executor 2 (CTRL_ERROR 1) None)) /\
      batch_size_limit (Scenes.trio_executor 2 (CTRL_ERROR 1) None)
        <= Z.of_nat (length (input_queue_ (Scenes.trio_executor 2 (CTRL_ERROR 1) None))) /\
      (batch_size bt' = batch_size_limit (Scenes.trio_executor 2 (CTRL_ERROR 1) None) \/
       input_queue_ ex' = []).
Proof.
  eexists _, _. split; [vm_compute; reflexivity|].
  split; [discriminate|]. split; [reflexivity|]. split; [reflexivity|].
  apply (GetBatchInput_batch 0 (Scenes.trio_executor 2 (CTRL_ERROR 1) None) _
           (new_BatchTask 0 2));
    [discriminate | reflexivity | vm_compute; reflexivity].
Defined.

(** ** Earliest deadline first *)

Lemma deadline_strongly_sorted (q : list Input) :
  deadline_sorted q <->
  StronglySorted (fun a b => deadline a <= deadline b) q.
Proof.
  split; [|apply StronglySorted_Sorted].
  apply Sorted_StronglySorted. intros a b c. lia.
Qed.

Lemma strongly_sorted_app {A : Type} (R : A -> A -> Prop) (l1 l2 : list A) :
  StronglySorted R (l1 ++ l2) ->
  StronglySorted R l1 /\ StronglySorted R l2 /\
  forall x y, x ∈ l1 -> y ∈ l2 -> R x y.
Proof.
  induction l1 as [|a l1 IH]; cbn [app]; intros H.
  - split; [constructor|]. split; [exact H|].
    intros x y Hx. apply elem_of_nil in Hx. destruct Hx.
  - apply StronglySorted_inv in H. destruct H as [H Ha].
    destruct (IH H) as (H1 & H2 & H12).
    rewrite List.Forall_forall in Ha.
    split; [|split; [exact H2|]].
    + constructor; [exact H1|]. apply List.Forall_forall.
      intros x Hx. apply Ha. apply in_or_app. left. exact Hx.
    + intros x y Hx Hy. apply elem_of_cons in Hx. destruct Hx as [->|Hx].
      * apply Ha. apply in_or_app. right. apply list_elem_of_In. exact Hy.
      * apply H12; assumption.
Qed.

Lemma strongly_sorted_omap {A B : Type} (R : A -> A -> Prop) (f : A -> option B)
    (g : B -> A) (l : list A) :
  (forall a b, f a = Some b -> g b = a) ->
  StronglySorted R l -> StronglySorted R (g <$> omap f l).
Proof.
  intros Hfg. induction 1 as [|a l Hl IH Ha]; cbn [omap list_omap].
  - constructor.
  - destruct (f a) as [b|] eqn:Hb; [|exact IH].
    cbn [fmap list_fmap]. rewrite (Hfg _ _ Hb). constructor; [exact IH|].
    rewrite List.Forall_forall in Ha |- *. intros x Hx.
    apply list_elem_of_In, list_elem_of_fmap in Hx. destruct Hx as (y & -> & Hy).
    apply list_elem_of_omap in Hy. destruct Hy as (a' & Ha' & Hfa').
    rewrite (Hfg _ _ Hfa'). apply Ha. apply list_elem_of_In. exact Ha'.
Qed.

Lemma batch_item_fst (ex : ModelExecutor) (finish : TimePoint) (input : Input)
    (item : Input * ptr) :
  batch_item ex finish input = Some item -> fst item = input.
Proof.
  unfold batch_item.
  destruct (processing_tasks_ ex !! in_tid input) as [task|]; [|discriminate].
  destruct (heap ex !! task) as [t|]; [|discriminate].
  destruct (dropped ex finish t input); [discriminate|].
  intros [= <-]. reflexivity.
Qed.

(** X10.  On an input queue in deadline order, [GetBatchInput] works
    earliest deadline first: the queue it leaves and the batch it forms are in
    deadline order, and nothing left in the queue is due before an input of
    the batch. *)
Theorem GetBatchInput_earliest_first (now : TimePoint) (ex ex' : ModelExecutor)
    (bt bt' : BatchTask) :
  deadline_sorted (input_queue_ ex) ->
  bt_items bt = [] ->
  GetBatchInput now ex bt = Ret (ex', bt') ->
  deadline_sorted (input_queue_ ex') /\
  deadline_sorted ((bt_items bt').*1) /\
  forall i j, i ∈ (bt_items bt').*1 -> j ∈ input_queue_ ex' ->
    deadline i <= deadline j.
Proof.
  intros Hsorted Hbt Hget.
  destruct (GetBatchInput_shape _ _ _ _ _ Hbt Hget)
    as (finish & popped & _ & _ & Hsplit & Hitems & _).
  apply deadline_strongly_sorted in Hsorted. rewrite Hsplit in Hsorted.
  apply strongly_sorted_app in Hsorted. destruct Hsorted as (Hpop & Hrest & Hcross).
  split; [apply deadline_strongly_sorted; exact Hrest|].
  split.
  - apply deadline_strongly_sorted. rewrite Hitems.
    apply strongly_sorted_omap; [|exact Hpop].
    intros a b. apply batch_item_fst.
  - intros i j Hi Hj. apply Hcross; [|exact Hj].
    rewrite Hitems in Hi. apply list_elem_of_fmap in Hi.
    destruct Hi as (item & -> & Hitem).
    apply list_elem_of_omap in Hitem. destruct Hitem as (a & Ha & Hfa).
    rewrite (batch_item_fst _ _ _ _ Hfa). exact Ha.
Qed.

Lemma trio_sorted (b : Z) (st : CtrlStatus) (profile : option ModelProfile) :
  deadline_sorted (input_queue_ (Scenes.trio_executor b st profile)).
Proof. cbn. repeat constructor; cbn; lia. Qed.

Lemma GetBatchInput_earliest_first_witness :
  exists ex' bt',
    GetBatchInput 0 (Scenes.trio_executor 2 (CTRL_ERROR 1) None) (new_BatchTask 0 2)
      = Ret (ex', bt') /\
    deadline_sorted (input_queue_ (Scenes.trio_executor 2 (CTRL_ERROR 1) None)) /\
    deadline_sorted (input_queue_ ex') /\
    deadline_sorted ((bt_items bt').*1) /\
    forall i j, i ∈ (bt_items bt').*1 -> j ∈ input_queue_ ex' ->
      deadline i <= deadline j.
Proof.
  eexists _, _. split; [vm_compute; reflexivity|].
  split; [apply trio_sorted|].
  apply (GetBatchInput_earliest_first 0 (Scenes.trio_executor 2 (CTRL_ERROR 1) None) _
           (new_BatchTask 0 2));
    [apply trio_sorted | reflexivity | vm_compute; reflexivity].
Defined.

(** ** Without a profile *)

Lemma omap_all_Some {A B : Type} (f : A -> option B) (l : list A) :
  Forall (fun a => is_Some (f a)) l -> length (omap f l) = length l.
Proof.
  induction 1 as [|a l [b Hb] _ IH]; cbn [omap list_omap]; [reflexivity|].
  rewrite Hb. cbn. f_equal. exact IH.
Qed.

Lemma GetBatchInput_fill (now : TimePoint) (ex ex' : ModelExecutor)
    (bt bt' : BatchTask) :
  profile_ ex = None ->
  healthy ex ->
  0 <= m_batch (model_ ex) ->
  bt_items bt = [] ->
  GetBatchInput now ex bt = Ret (ex', bt') ->
  input_queue_ ex = (bt_items bt').*1 ++ input_queue_ ex' /\
  batch_size bt' = batch_size_limit ex /\
  (forall input task, (input, task) ∈ bt_items bt' ->
     processing_tasks_ ex !! in_tid input = Some task) /\
  task_queue_ ex' = task_queue_ ex /\
  processing_tasks_ ex' = processing_tasks_ ex.
Proof.
  intros Hprof Hok Hbatch Hbt Hget.
  destruct (GetBatchInput_shape _ _ _ _ _ Hbt Hget)
    as (finish & popped & _ & _ & Hsplit & Hitems & Hreg & Hexit & Hle & Hsame).
  specialize (Hle Hbatch).
  assert (Hitem : forall i, registered ex i ->
            exists task, processing_tasks_ ex !! in_tid i = Some task /\
                         batch_item ex finish i = Some (i, task)).
  { intros i (task & t & Hlook & Ht). exists task. split; [exact Hlook|].
    unfold batch_item, dropped. rewrite Hlook, Ht, Hprof, (Hok _ _ Ht).
    reflexivity. }
  assert (Hall : Forall (fun i => is_Some (batch_item ex finish i)) popped).
  { eapply Forall_impl; [exact Hreg|]. intros i Hi.
    destruct (Hitem i Hi) as (task & _ & ->). eauto. }
  assert (Hfst : (bt_items bt').*1 = popped).
  { rewrite Hitems. clear -Hreg Hitem.
    induction Hreg as [|i l Hi _ IH]; [reflexivity|].
    destruct (Hitem i Hi) as (task & _ & Hb).
    cbn [omap list_omap]. rewrite Hb. cbn. f_equal. exact IH. }
  assert (Hlen : batch_size bt' = Z.of_nat (length popped)).
  { unfold batch_size. rewrite Hitems, omap_all_Some by exact Hall. reflexivity. }
  pose proof (batch_size_limit_bounds ex Hbatch) as [[Hl0 _] Hlq].
  assert (Hn : batch_size bt' = batch_size_limit ex).
  { destruct Hexit as [Hfull|Hempty]; [lia|].
    rewrite Hsplit, Hempty, app_nil_r in Hlq. lia. }
  destruct (Hsame Hall) as [Htq Hmap].
  rewrite Hfst. repeat split; try assumption.
  intros input task Hin. rewrite Hitems in Hin.
  apply list_elem_of_omap in Hin. destruct Hin as (i & Hi & Hb).
  rewrite List.Forall_forall in Hreg.
  destruct (Hitem i (Hreg i (proj1 (list_elem_of_In _ _) Hi))) as (task' & Hlook & Hb').
  rewrite Hb' in Hb. injection Hb as -> ->. exact Hlook.
Qed.

(** X11.  Without a profile and with every task healthy nothing is dropped:
    [GetBatchInput] moves exactly the first [min(queue length, batch)] inputs
    of the queue into the batch, each with its task, and leaves the
    postprocess queue and the processing map as they are. *)
Theorem GetBatchInput_no_profile (now : TimePoint) (ex ex' : ModelExecutor)
    (bt bt' : BatchTask) :
  profile_ ex = None ->
  healthy ex ->
  0 <= m_batch (model_ ex) ->
  bt_items bt = [] ->
  GetBatchInput now ex bt = Ret (ex', bt') ->
  let n := Z.to_nat (batch_size_limit ex) in
  (bt_items bt').*1 = take n (input_queue_ ex) /\
  input_queue_ ex' = drop n (input_queue_ ex) /\
  (forall input task, (input, task) ∈ bt_items bt' ->
     processing_tasks_ ex !! in_tid input = Some task) /\
  task_queue_ ex' = task_queue_ ex /\
  processing_tasks_ ex' = processing_tasks_ ex.
Proof.
  intros Hprof Hok Hbatch Hbt Hget n.
  destruct (GetBatchInput_fill now ex ex' bt bt' Hprof Hok Hbatch Hbt Hget)
    as (Hsplit & Hsize & Hlook & Htq & Hmap).
  assert (Hn : n = length ((bt_items bt').*1)).
  { subst n. rewrite <- Hsize. unfold batch_size.
    rewrite length_fmap, Nat2Z.id. reflexivity. }
  rewrite Hsplit at 1 2. rewrite Hn, take_app_length, drop_app_length.
  repeat split; assumption.
Qed.

Lemma trio_healthy (b : Z) (profile : option ModelProfile) :
  healthy (Scenes.trio_executor b CTRL_OK profile).
Proof.
  intros p t. cbn. unfold Scenes.trio_heap. intros H.
  repeat (apply lookup_insert_Some in H; destruct H as [[_ <-]|[_ H]];
          [reflexivity|]).
  rewrite lookup_empty in H. discriminate H.
Qed.

Lemma GetBatchInput_no_profile_witness :
  exists ex' bt',
    GetBatchInput 0 (Scenes.trio_executor 2 CTRL_OK None) (new_BatchTask 0 2)
      = Ret (ex', bt') /\
    (bt_items bt').*1 = [Scenes.input_at 8 0 100; Scenes.input_at 9 0 200] /\
    (profile_ (Scenes.trio_executor 2 CTRL_OK None) = None /\
     0 <= m_batch (model_ (Scenes.trio_executor 2 CTRL_OK None))) /\
    (bt_items bt').*1
      = take (Z.to_nat (batch_size_limit (Scenes.trio_executor 2 CTRL_OK None)))
             (input_queue_ (Scenes.trio_executor 2 CTRL_OK None)) /\
    input_queue_ ex'
      = drop (Z.to_nat (batch_size_limit (Scenes.trio_executor 2 CTRL_OK None)))
             (input_queue_ (Scenes.trio_executor 2 CTRL_OK None)) /\
    (forall input task, (input, task) ∈ bt_items bt' ->
       processing_tasks_ (Scenes.trio_executor 2 CTRL_OK None) !! in_tid input
         = Some task) /\
    task_queue_ ex' = task_queue_ (Scenes.trio_executor 2 CTRL_OK None) /\
    processing_tasks_ ex' = processing_tasks_ (Scenes.trio_executor 2 CTRL_OK None).
Proof.
  eexists _, _. split; [vm_compute; reflexivity|].
  split; [reflexivity|]. split; [split; [reflexivity | discriminate]|].
  apply (GetBatchInput_no_profile 0 (Scenes.trio_executor 2 CTRL_OK None) _
           (new_BatchTask 0 2));
    [reflexivity | apply trio_healthy | discriminate | reflexivity
    | vm_compute; reflexivity].
Defined.

(** ** The turns of [Execute] *)

Lemma accounted_tidy (ex : ModelExecutor) (items : list (Input * ptr)) :
  accounted ex items -> tidy ex.
Proof.
  intros [Htasks Hinj _ _]. split; [|exact Hinj].
  intros k p Hk. destruct (Htasks k p Hk) as (t & Ht & Htid & _). eauto.
Qed.

(** A turn of the loop of [GetBatchInput]. *)
Lemma process_input_effect (finish : TimePoint) (input : Input)
    (rest : list Input) (ex ex' : ModelExecutor) (bt bt' : BatchTask) :
  input_queue_ ex = input :: rest ->
  accounted ex (bt_items bt) ->
  process_input finish input (set_input_queue rest ex) bt = Ret (ex', bt') ->
  step_effect ex ex'.
Proof.
  intros Hq [Htasks _ _ _] Hstep. apply process_input_spec in Hstep.
  destruct Hstep as (task & t & Hlook & Ht & Hcase). cbv zeta in Hcase.
  cbn [processing_tasks_ heap task_queue_ profile_ set_input_queue]
    in Hlook, Ht, Hcase.
  destruct (Htasks _ _ Hlook) as (t0 & Ht0 & Htid & Hcount).
  rewrite Ht in Ht0. injection Ht0 as <-.
  rewrite Hq, (pending_cons_eq _ _ _ eq_refl) in Hcount.
  assert (Hwait : ~ complete t) by (unfold complete; lia).
  destruct (negb (CtrlStatus_eqb (status t) CTRL_OK)
            || bool_decide (is_Some (profile_ ex)) && (deadline input <? finish)).
  - destruct Hcase as [_ Hcase].
    destruct (Nat.eqb_spec
                (length (outputs (set_outputs
                                    (outputs t ++ [VirtualOutput (in_index input)])
                                    (Record_timer "exec" t))))
                (length (inputs t))) as [Hdone|Hmore];
      destruct Hcase as (Hheap & Htq & Hmap);
      eexists (in_tid input), task, t, _;
      (split; [exact Hlook|]); (split; [exact Ht|]); (split; [exact Htid|]);
      (split; [exact Hwait|]); (split; [exact Hheap|]); (split; [exact Htid|]).
    + right. rewrite Hmap, Htid. repeat split; [exact Htq | exact Hdone].
    + left. repeat split; assumption.
  - destruct Hcase as (_ & Hheap & Htq & Hmap).
    exists (in_tid input), task, t, (Record_timer "exec" t).
    split; [exact Hlook|]. split; [exact Ht|]. split; [exact Htid|].
    split; [exact Hwait|]. split; [exact Hheap|]. split; [exact Htid|].
    left. repeat split; assumption.
Qed.

(** A turn of the loop over the outputs, for the first item of the batch. *)
Lemma fan_out_step (input : Input) (p : ptr) (items : list (Input * ptr))
    (output : Output) (outs : list Output) (ex ex' : ModelExecutor) :
  accounted ex ((input, p) :: items) ->
  fan_out (output :: outs) (p :: items.*2) ex = Ret ex' ->
  exists ex1,
    step_effect ex ex1 /\ accounted ex1 items /\
    input_queue_ ex1 = input_queue_ ex /\
    fan_out outs (items.*2) ex1 = Ret ex'.
Proof.
  intros Hacc. cbn [fan_out].
  destruct Hacc as [Htasks Hinj Hqueue Hitems].
  assert (Hp : processing_tasks_ ex !! in_tid input = Some p)
    by (apply Hitems; left).
  destruct (Htasks _ _ Hp) as (t & Ht & Htid & Hcount).
  cbn [fmap list_fmap fst] in Hcount.
  rewrite (pending_cons_eq _ _ _ eq_refl) in Hcount.
  assert (Hwait : ~ complete t) by (unfold complete; lia).
  assert (Hrest : forall k' p', k' <> in_tid input ->
            processing_tasks_ ex !! k' = Some p' ->
            forall (h : Task), exists t',
              <[p := h]> (heap ex) !! p' = Some t' /\ tid t' = k' /\
              (pending k' (input_queue_ ex) + pending k' (items.*1)
               + length (outputs t') = length (inputs t'))%nat).
  { intros k' p' Hne Hp' h. destruct (Htasks _ _ Hp') as (t' & Ht' & Htid' & Hc').
    exists t'. rewrite lookup_insert_ne
      by (intros ->; apply Hne; eapply Hinj; eassumption).
    cbn [fmap list_fmap fst] in Hc'.
    rewrite pending_cons_ne in Hc' by congruence. auto. }
  unfold deref. rewrite Ht. unfold mbind at 1, result_bind at 1.
  unfold AddOutput. cbv zeta. cbn [outputs inputs set_outputs].
  destruct (Nat.eqb_spec (length (outputs t ++ [output])) (length (inputs t)))
    as [Hdone|Hmore].
  - unfold RemoveTask, deref, store. cbn [heap set_heap].
    rewrite lookup_insert_eq. unfold mbind at 1 2, result_bind at 1 2. cbv zeta.
    intros Hfan. eexists. split; [|split; [|split; [|exact Hfan]]].
    + exists (in_tid input), p, t, (set_stage kPostprocess
                                       (set_outputs (outputs t ++ [output]) t)).
      split; [exact Hp|]. split; [exact Ht|]. split; [exact Htid|].
      split; [exact Hwait|]. simpl_state.
      split; [reflexivity|]. split; [exact Htid|]. right.
      rewrite Htid. repeat split. exact Hdone.
    + rewrite length_app in Hdone. cbn [length] in Hdone.
      split; simpl_state; rewrite ?Htid.
      * intros k' p' Hk'. apply lookup_delete_Some in Hk'. destruct Hk' as [Hne Hk'].
        apply (Hrest k' p'); auto.
      * intros k1 k2 p' H1 H2. apply lookup_delete_Some in H1, H2.
        eapply Hinj; [apply H1 | apply H2].
      * intros i Hi. assert (Hne : in_tid i <> in_tid input)
          by (apply (pending_zero _ (input_queue_ ex)); [lia | exact Hi]).
        rewrite lookup_delete_ne by congruence. apply Hqueue. exact Hi.
      * intros i p' Hi.
        assert (Hne : in_tid i <> in_tid input).
        { apply (pending_zero _ (items.*1)); [lia|].
          apply list_elem_of_fmap. exists (i, p'). split; [reflexivity | exact Hi]. }
        rewrite lookup_delete_ne by congruence. apply Hitems. right. exact Hi.
    + reflexivity.
  - unfold mbind at 1, result_bind at 1.
    intros Hfan. eexists. split; [|split; [|split; [|exact Hfan]]].
    + exists (in_tid input), p, t, (set_outputs (outputs t ++ [output]) t).
      split; [exact Hp|]. split; [exact Ht|]. split; [exact Htid|].
      split; [exact Hwait|]. simpl_state.
      split; [reflexivity|]. split; [exact Htid|]. left.
      repeat split. exact Hmore.
    + rewrite length_app in Hmore. cbn [length] in Hmore.
      split; simpl_state.
      * intros k' p' Hk'. destruct (Z.eq_dec k' (in_tid input)) as [->|Hne].
        -- rewrite Hp in Hk'. injection Hk' as <-.
           eexists. rewrite lookup_insert_eq. split; [reflexivity|].
           simpl_state. rewrite length_app. cbn [length].
           split; [exact Htid | lia].
        -- apply (Hrest k' p'); auto.
      * exact Hinj.
      * exact Hqueue.
      * intros i p' Hi. apply Hitems. right. exact Hi.
    + reflexivity.
Qed.

(** A property of the processing map, the heap and the postprocess queue
    that every turn keeps is kept by [Execute]. *)
Section Rule.

Variable Q : gmap Z ptr -> gmap ptr Task -> list ptr -> Prop.

Hypothesis Q_step : forall ex ex' : ModelExecutor,
  tidy ex ->
  Q (processing_tasks_ ex) (heap ex) (task_queue_ ex) ->
  step_effect ex ex' ->
  Q (processing_tasks_ ex') (heap ex') (task_queue_ ex').

Lemma batch_loop_rule (queue : list Input) (size : Z) (finish : TimePoint) :
  forall (ex ex' : ModelExecutor) (bt bt' : BatchTask),
    input_queue_ ex = queue ->
    accounted ex (bt_items bt) ->
    Q (processing_tasks_ ex) (heap ex) (task_queue_ ex) ->
    batch_loop queue size finish ex bt = Ret (ex', bt') ->
    accounted ex' (bt_items bt') /\
    Q (processing_tasks_ ex') (heap ex') (task_queue_ ex').
Proof.
  induction queue as [|input rest IH]; intros ex ex' bt bt' Hq Hacc HQ;
    cbn [batch_loop].
  - intros [= <- <-]. auto.
  - destruct (batch_size bt <? size); [|intros [= <- <-]; auto].
    destruct (process_input_accounted finish input rest ex bt Hq Hacc)
      as (ex1 & bt1 & Hstep & Hq1 & Hacc1).
    rewrite Hstep. unfold mbind, result_bind. cbn [fst snd].
    apply IH; [exact Hq1 | exact Hacc1|].
    exact (Q_step ex ex1 (accounted_tidy _ _ Hacc) HQ
             (process_input_effect _ _ _ _ _ _ _ Hq Hacc Hstep)).
Qed.

Lemma fan_out_rule (items : list (Input * ptr)) :
  forall (outs : list Output) (ex ex' : ModelExecutor),
    accounted ex items ->
    Q (processing_tasks_ ex) (heap ex) (task_queue_ ex) ->
    fan_out outs (items.*2) ex = Ret ex' ->
    Q (processing_tasks_ ex') (heap ex') (task_queue_ ex') /\
    input_queue_ ex' = input_queue_ ex.
Proof.
  induction items as [|[input p] items IH]; intros outs ex ex' Hacc HQ.
  - destruct outs; cbn; [intros [= <-]; auto | discriminate].
  - destruct outs as [|output outs]; [cbn; intros [= <-]; auto|].
    cbn [fmap list_fmap snd]. intros Hfan.
    destruct (fan_out_step _ _ _ _ _ _ _ Hacc Hfan)
      as (ex1 & Heff & Hacc1 & Hq1 & Hfan1).
    rewrite <- Hq1. apply (IH outs); [exact Hacc1 | | exact Hfan1].
    exact (Q_step ex ex1 (accounted_tidy _ _ Hacc) HQ Heff).
Qed.

Lemma Execute_rule (now : TimePoint) (ex ex' : ModelExecutor) :
  well_formed ex ->
  Q (processing_tasks_ ex) (heap ex) (task_queue_ ex) ->
  Execute now ex = Ret ex' ->
  Q (processing_tasks_ ex') (heap ex') (task_queue_ ex').
Proof.
  intros Hwf HQ. unfold Execute, allocate_batch. cbv zeta.
  destruct (GetBatchInput now _ _) as [[ex1 bt1]|e] eqn:Hget;
    unfold mbind, result_bind; [|discriminate].
  unfold GetBatchInput in Hget.
  destruct (finish_time now _ _) as [finish|e];
    unfold mbind, result_bind in Hget; [|discriminate Hget].
  apply batch_loop_rule in Hget;
    [|reflexivity | destruct Hwf; split; assumption | exact HQ].
  destruct Hget as [Hacc1 HQ1].
  destruct (batch_size bt1 =? 0); [intros [= <-]; exact HQ1|].
  cbn [bt_outputs set_bt_outputs bt_items]. intros Hfan.
  apply fan_out_rule in Hfan; [apply Hfan | apply accounted_log, Hacc1 | exact HQ1].
Qed.

End Rule.

(** ** What [Execute] hands to postprocessing *)

Lemma Execute_handed_over (now : TimePoint) (ex ex' : ModelExecutor) :
  well_formed ex -> Execute now ex = Ret ex' ->
  exists pushed, handed_over ex ex' pushed.
Proof.
  intros Hwf Hexec.
  pose (Q := fun (m : gmap Z ptr) (h : gmap ptr Task) (q : list ptr) =>
    exists pushed,
      q = task_queue_ ex ++ pushed /\ NoDup pushed /\
      (forall k p, m !! k = Some p ->
         processing_tasks_ ex !! k = Some p /\ p ∉ pushed) /\
      (forall p, p ∈ pushed ->
         exists k t, processing_tasks_ ex !! k = Some p /\ m !! k = None /\
           h !! p = Some t /\ tid t = k /\ stage t = kPostprocess /\ complete t) /\
      (forall k p, processing_tasks_ ex !! k = Some p -> m !! k = None ->
         p ∈ pushed)).
  apply (Execute_rule Q) with (now := now) (ex := ex); [|exact Hwf| |exact Hexec].
  - clear ex' Hexec. intros e e' [_ Hinj]
      (pushed & Hq & Hnd & Hsub & Hdone & Hgone)
      (k' & p' & t & t' & Hk' & Ht & Htid & Hwait & Hheap & Htid' & Hcase).
    destruct (Hsub _ _ Hk') as [Hk0 Hnew].
    assert (Hold : forall p, p ∈ pushed -> <[p' := t']> (heap e) !! p = heap e !! p).
    { intros p Hp. apply lookup_insert_ne. intros ->. exact (Hnew Hp). }
    destruct Hcase as [(Hmap & Htq & _)|(Hmap & Htq & Hstage & Hcomplete)];
      rewrite Hmap, Htq, Hheap.
    + exists pushed. split; [exact Hq|]. split; [exact Hnd|].
      split; [exact Hsub|]. split; [|exact Hgone].
      intros p Hp. rewrite (Hold p Hp). apply Hdone. exact Hp.
    + exists (pushed ++ [p']). split; [rewrite Hq, app_assoc; reflexivity|].
      split; [|split; [|split]].
      * apply NoDup_app. split; [exact Hnd|]. split; [|apply NoDup_singleton].
        intros x Hx Hx'. apply list_elem_of_singleton in Hx'. subst x. exact (Hnew Hx).
      * intros k p Hk. apply lookup_delete_Some in Hk. destruct Hk as [Hne Hk].
        destruct (Hsub _ _ Hk) as [Hk1 Hp]. split; [exact Hk1|].
        intros Hin. apply elem_of_app in Hin. destruct Hin as [Hin|Hin];
          [exact (Hp Hin)|].
        apply list_elem_of_singleton in Hin. subst p. apply Hne.
        eapply Hinj; eassumption.
      * intros p Hp. apply elem_of_app in Hp. destruct Hp as [Hp|Hp].
        -- rewrite (Hold p Hp).
           destruct (Hdone p Hp) as (k & t0 & H1 & H2 & H3).
           exists k, t0. split; [exact H1|]. split; [|exact H3].
           apply lookup_delete_None. right. exact H2.
        -- apply list_elem_of_singleton in Hp. subst p.
           exists k', t'. split; [exact Hk0|]. rewrite lookup_delete_eq.
           split; [reflexivity|]. rewrite lookup_insert_eq. auto.
      * intros k p Hk Hnone. apply lookup_delete_None in Hnone.
        apply elem_of_app. destruct Hnone as [->|Hnone].
        -- right. rewrite Hk0 in Hk. injection Hk as <-.
           apply list_elem_of_singleton. reflexivity.
        -- left. eapply Hgone; eassumption.
  - exists []. rewrite app_nil_r. split; [reflexivity|].
    split; [apply NoDup_nil_2|]. split; [|split].
    + intros k p Hk. split; [exact Hk | apply not_elem_of_nil].
    + intros p Hp. apply elem_of_nil in Hp. destruct Hp.
    + intros k p Hk Hnone. rewrite Hk in Hnone. discriminate Hnone.
Qed.

(** X12.  What [Execute] hands to postprocessing, on a well-formed
    executor: the postprocess queue grows at its end by tasks [pushed], none
    twice; these are exactly the tasks that left the processing map, which
    gains no entry; and every one of them has as many outputs as inputs and
    is in stage [kPostprocess]. *)
Theorem Execute_hands_over (now : TimePoint) (ex ex' : ModelExecutor) :
  well_formed ex ->
  Execute now ex = Ret ex' ->
  exists pushed,
    task_queue_ ex' = task_queue_ ex ++ pushed /\
    NoDup pushed /\
    (forall p, p ∈ pushed <->
       exists k, processing_tasks_ ex !! k = Some p /\
                 processing_tasks_ ex' !! k = None) /\
    (forall k p, processing_tasks_ ex' !! k = Some p ->
       processing_tasks_ ex !! k = Some p) /\
    (forall p, p ∈ pushed ->
       exists t, heap ex' !! p = Some t /\ stage t = kPostprocess /\
         length (outputs t) = length (inputs t)).
Proof.
  intros Hwf Hexec.
  destruct (Execute_handed_over now ex ex' Hwf Hexec)
    as (pushed & Hq & Hnd & Hsub & Hdone & Hgone).
  exists pushed. split; [exact Hq|]. split; [exact Hnd|]. split; [|split].
  - intros p. split.
    + intros Hp. destruct (Hdone p Hp) as (k & t & H1 & H2 & _). eauto.
    + intros (k & H1 & H2). eapply Hgone; eassumption.
  - intros k p Hk. apply (Hsub k p Hk).
  - intros p Hp. destruct (Hdone p Hp) as (k & t & _ & _ & Ht & _ & Hs & Hc).
    eauto.
Qed.

(** ** Tasks are not forgotten *)

Lemma Execute_busy (now : TimePoint) (ex ex' : ModelExecutor) :
  well_formed ex -> busy ex -> Execute now ex = Ret ex' -> busy ex'.
Proof.
  intros Hwf Hbusy Hexec.
  refine (Execute_rule
            (fun (m : gmap Z ptr) (h : gmap ptr Task) (q : list ptr) =>
               forall (k : Z) (p : ptr) (t : Task),
                 m !! k = Some p -> h !! p = Some t -> ~ complete t)
            _ now ex ex' Hwf Hbusy Hexec).
  clear. intros e e' [_ Hinj] HQ
    (k' & p' & t & t' & Hk' & Ht & Htid & Hwait & Hheap & Htid' & Hcase)
    k p t1 Hk Hp.
  rewrite Hheap in Hp.
  assert (Hk0 : processing_tasks_ e !! k = Some p /\
                (k = k' -> processing_tasks_ e' = processing_tasks_ e /\
                           ~ complete t')).
  { destruct Hcase as [(Hmap & _ & Hc)|(Hmap & _)]; rewrite Hmap in Hk.
    - split; [exact Hk | auto].
    - apply lookup_delete_Some in Hk. destruct Hk as [Hne Hk].
      split; [exact Hk | congruence]. }
  destruct Hk0 as [Hk0 Hsame].
  destruct (decide (p = p')) as [->|Hne].
  - rewrite lookup_insert_eq in Hp. injection Hp as <-.
    apply Hsame. eapply Hinj; eassumption.
  - rewrite lookup_insert_ne in Hp by congruence. eapply HQ; eassumption.
Qed.

Lemma in_service_drained (ex : ModelExecutor) :
  in_service ex -> input_queue_ ex = [] -> processing_tasks_ ex = ∅.
Proof.
  intros [[Htasks _ _ _] Hbusy] Hq. apply map_empty. intros k.
  destruct (processing_tasks_ ex !! k) as [p|] eqn:Hk; [|reflexivity].
  destruct (Htasks _ _ Hk) as (t & Ht & _ & Hcount).
  rewrite Hq in Hcount. destruct (Hbusy _ _ _ Hk Ht). exact Hcount.
Qed.

(** X13.  No task is forgotten.  An executor is in service when it is well
    formed and every task of its processing map still waits for an output.
    The constructor leaves an executor in service; [AddTask] of a new task
    with at least one input keeps it in service; so does [Execute], which
    returns when its query of the profile succeeds and the model answers
    every input.  In service, an empty input queue means an empty processing
    map: every task added has gone to postprocessing. *)
Theorem executor_in_service :
  (forall model profile queue h, in_service (new_executor model profile queue h)) /\
  (forall (task : ptr) (ex : ModelExecutor) (t : Task),
      in_service ex ->
      heap ex !! task = Some t ->
      processing_tasks_ ex !! tid t = None ->
      (forall k, processing_tasks_ ex !! k <> Some task) ->
      outputs t = [] -> inputs t <> [] ->
      (forall i, i ∈ inputs t -> in_tid i = tid t) ->
      exists ex', AddTask task ex = Ret ex' /\ in_service ex') /\
  (forall (now : TimePoint) (ex : ModelExecutor),
      in_service ex -> finish_defined now ex -> forward_total ex ->
      exists ex', Execute now ex = Ret ex' /\ in_service ex') /\
  (forall ex, in_service ex -> input_queue_ ex = [] ->
      processing_tasks_ ex = ∅).
Proof.
  split; [|split; [|split; [|exact in_service_drained]]].
  - intros model profile queue h. split; [apply new_executor_well_formed|].
    intros k p t Hk. cbn in Hk. rewrite lookup_empty in Hk. discriminate Hk.
  - intros task ex t [Hwf Hbusy] Ht Hfresh Hnew Hout Hin Hids.
    destruct (AddTask_well_formed task ex t Hwf Ht Hfresh Hnew Hout Hids)
      as (ex' & Hadd & Hwf').
    exists ex'. split; [exact Hadd|]. split; [exact Hwf'|].
    unfold AddTask, deref in Hadd. rewrite Ht in Hadd.
    unfold mbind, result_bind in Hadd. cbv zeta in Hadd. injection Hadd as <-.
    unfold emplace. rewrite Hfresh. intros k p t1. simpl_state.
    intros Hk Hp. apply lookup_insert_Some in Hk. destruct Hk as [[<- <-]|[_ Hk]].
    + rewrite Ht in Hp. injection Hp as <-. unfold complete. rewrite Hout.
      destruct (inputs t); [congruence | discriminate].
    + eapply Hbusy; eassumption.
  - intros now ex [Hwf Hbusy] Hfin Hfwd.
    destruct (Execute_returns now ex Hwf Hfin Hfwd) as (ex' & Hexec & Hwf').
    exists ex'. split; [exact Hexec|]. split; [exact Hwf'|].
    exact (Execute_busy now ex ex' Hwf Hbusy Hexec).
Qed.

(** ** A task without inputs *)

Lemma Execute_stuck (now : TimePoint) (ex ex' : ModelExecutor) (k : Z)
    (p : ptr) (t : Task) :
  well_formed ex ->
  processing_tasks_ ex !! k = Some p -> heap ex !! p = Some t -> complete t ->
  Execute now ex = Ret ex' ->
  processing_tasks_ ex' !! k = Some p /\ heap ex' !! p = Some t /\
  exists pushed, task_queue_ ex' = task_queue_ ex ++ pushed /\ p ∉ pushed.
Proof.
  intros Hwf Hk Hp Hdone Hexec.
  refine (Execute_rule
            (fun (m : gmap Z ptr) (h : gmap ptr Task) (q : list ptr) =>
               m !! k = Some p /\ h !! p = Some t /\
               exists pushed, q = task_queue_ ex ++ pushed /\ p ∉ pushed)
            _ now ex ex' Hwf _ Hexec).
  - clear -Hdone. intros e e' [_ Hinj] (Hk & Hp & pushed & Hq & Hnew)
      (k' & p' & t0 & t' & Hk' & Ht & Htid & Hwait & Hheap & Htid' & Hcase).
    assert (Hne : p <> p').
    { intros ->. rewrite Hp in Ht. injection Ht as <-. exact (Hwait Hdone). }
    assert (Hnek : k <> k') by congruence.
    rewrite Hheap, lookup_insert_ne by congruence.
    destruct Hcase as [(-> & -> & _)|(-> & -> & _)].
    + eauto.
    + rewrite lookup_delete_ne by congruence. split; [exact Hk|].
      split; [exact Hp|]. exists (pushed ++ [p']).
      split; [rewrite Hq, app_assoc; reflexivity|].
      intros Hin. apply elem_of_app in Hin. destruct Hin as [Hin|Hin];
        [exact (Hnew Hin)|].
      apply list_elem_of_singleton in Hin. exact (Hne Hin).
  - split; [exact Hk|]. split; [exact Hp|]. exists [].
    rewrite app_nil_r. split; [reflexivity | apply not_elem_of_nil].
Qed.

(** X14.  A task without inputs is never handed on.  [AddTask] of a new
    task that has no input registers it and queues nothing; and a task of the
    processing map that has as many outputs as inputs, as this one has, stays
    in the map through [Execute], untouched, and is not pushed to the
    postprocess queue. *)
Theorem task_without_inputs :
  (forall (task : ptr) (ex : ModelExecutor) (t : Task),
      well_formed ex ->
      heap ex !! task = Some t ->
      processing_tasks_ ex !! tid t = None ->
      (forall k, processing_tasks_ ex !! k <> Some task) ->
      outputs t = [] -> inputs t = [] ->
      exists ex',
        AddTask task ex = Ret ex' /\ well_formed ex' /\
        processing_tasks_ ex' !! tid t = Some task /\
        input_queue_ ex' = input_queue_ ex /\
        heap ex' = heap ex /\ task_queue_ ex' = task_queue_ ex) /\
  (forall (now : TimePoint) (ex ex' : ModelExecutor) (k : Z) (p : ptr) (t : Task),
      well_formed ex ->
      processing_tasks_ ex !! k = Some p -> heap ex !! p = Some t ->
      length (outputs t) = length (inputs t) ->
      Execute now ex = Ret ex' ->
      processing_tasks_ ex' !! k = Some p /\ heap ex' !! p = Some t /\
      exists pushed, task_queue_ ex' = task_queue_ ex ++ pushed /\ p ∉ pushed).
Proof.
  split; [|exact Execute_stuck].
  intros task ex t Hwf Ht Hfresh Hnew Hout Hin.
  destruct (AddTask_well_formed task ex t Hwf Ht Hfresh Hnew Hout)
    as (ex' & Hadd & Hwf').
  { rewrite Hin. intros i Hi. apply elem_of_nil in Hi. destruct Hi. }
  exists ex'. split; [exact Hadd|]. split; [exact Hwf'|].
  unfold AddTask, deref in Hadd. rewrite Ht in Hadd.
  unfold mbind, result_bind in Hadd. cbv zeta in Hadd. injection Hadd as <-.
  unfold emplace. rewrite Hfresh, Hin. simpl_state.
  rewrite lookup_insert_eq. repeat split.
Qed.

(** ** A missing task *)

Lemma Execute_head_missing (now : TimePoint) (ex : ModelExecutor)
    (input : Input) (rest : list Input) :
  input_queue_ ex = input :: rest ->
  processing_tasks_ ex !! in_tid input = None ->
  1 <= m_batch (model_ ex) ->
  finish_defined now ex ->
  Execute now ex = Throw OutOfRange.
Proof.
  intros Hq Hnone Hbatch [finish Hfin].
  unfold Execute, allocate_batch, GetBatchInput. cbv zeta.
  change (finish_time now (log_event _ _) (batch_size_limit (log_event _ _)))
    with (finish_time now ex (batch_size_limit ex)).
  rewrite Hfin. run_bind.
  cbn [input_queue_ log_event set_batch_id]. rewrite Hq. cbn [batch_loop].
  assert (Hlimit : 0 < batch_size_limit ex).
  { unfold batch_size_limit. rewrite Hq. cbn [length].
    destruct (Z.gtb_spec (Z.of_nat (S (length rest))) (m_batch (model_ ex))); lia. }
  change (batch_size (new_BatchTask _ _)) with 0.
  change (batch_size_limit (log_event _ _)) with (batch_size_limit ex).
  destruct (Z.ltb_spec 0 (batch_size_limit ex)) as [_|Hge]; [|lia].
  unfold process_input. cbn [processing_tasks_ set_input_queue log_event set_batch_id].
  rewrite Hnone. reflexivity.
Qed.

(** X15.  [Execute] needs the owner of the earliest input.  When the id of
    the input at the head of the queue is not in the processing map,
    [processing_tasks_.at] throws and [Execute] ends in [std::out_of_range]
    (for a planned batch of at least one and a successful query of the
    profile).  [RemoveTask] of a task that still has its input at the head of
    the queue leads there: the task goes to postprocessing, the input stays
    queued, and the next [Execute] throws. *)
Theorem Execute_missing_task :
  (forall (now : TimePoint) (ex : ModelExecutor) (input : Input)
          (rest : list Input),
      input_queue_ ex = input :: rest ->
      processing_tasks_ ex !! in_tid input = None ->
      1 <= m_batch (model_ ex) ->
      finish_defined now ex ->
      Execute now ex = Throw OutOfRange) /\
  (forall (now : TimePoint) (ex : ModelExecutor) (task : ptr) (t : Task)
          (input : Input) (rest : list Input),
      heap ex !! task = Some t ->
      input_queue_ ex = input :: rest ->
      in_tid input = tid t ->
      1 <= m_batch (model_ ex) ->
      finish_defined now ex ->
      exists ex1,
        RemoveTask task ex = Ret ex1 /\
        input_queue_ ex1 = input :: rest /\
        Execute now ex1 = Throw OutOfRange).
Proof.
  split; [exact Execute_head_missing|].
  intros now ex task t input rest Ht Hq Hid Hbatch Hfin.
  unfold RemoveTask, deref. rewrite Ht. run_binds.
  eexists. split; [reflexivity|]. split; [exact Hq|].
  apply (Execute_head_missing now _ input rest).
  - exact Hq.
  - simpl_state. rewrite Hid. apply lookup_delete_eq.
  - exact Hbatch.
  - exact Hfin.
Qed.

Lemma Execute_missing_task_witness :
  (input_queue_ (Examples.single_executor None CTRL_OK 100)
     = [Examples.input_of 7 100] /\
   exists ex1,
     RemoveTask 1%positive (Examples.single_executor None CTRL_OK 100) = Ret ex1 /\
     processing_tasks_ ex1 !! 7 = None /\
     Execute 0 ex1 = Throw OutOfRange) /\
  (exists ex1,
     RemoveTask 1%positive (Examples.single_executor None CTRL_OK 100) = Ret ex1 /\
     input_queue_ ex1 = [Examples.input_of 7 100] /\
     Execute 0 ex1 = Throw OutOfRange).
Proof.
  split.
  - split; [reflexivity|]. eexists. split; [reflexivity|].
    split; [reflexivity|].
    apply (proj1 Execute_missing_task 0 _ (Examples.input_of 7 100) []);
      [reflexivity | reflexivity | cbn; lia | exists 0; reflexivity].
  - apply (proj2 Execute_missing_task 0 (Examples.single_executor None CTRL_OK 100)
             1%positive (Examples.task_of 7 CTRL_OK 100)
             (Examples.input_of 7 100) []);
      [reflexivity | reflexivity | reflexivity | cbn; lia | exists 0; reflexivity].
Defined.

(** ** One batch for the whole queue *)

Lemma fan_out_input_queue (outs : list Output) :
  forall (tasks : list ptr) (ex ex' : ModelExecutor),
    fan_out outs tasks ex = Ret ex' -> input_queue_ ex' = input_queue_ ex.
Proof.
  induction outs as [|output outs IH]; intros tasks ex ex'; cbn [fan_out].
  - intros [= <-]. reflexivity.
  - destruct tasks as [|task tasks]; [discriminate|].
    unfold deref. destruct (heap ex !! task) as [t|]; [|discriminate].
    unfold mbind at 1, result_bind at 1.
    destruct (AddOutput output t) as [t' complete].
    destruct complete.
    + destruct (RemoveTask task _) as [ex1|e] eqn:Hrm;
        unfold mbind, result_bind; [|discriminate].
      intros Hrest. apply RemoveTask_frame in Hrm. destruct Hrm as [_ Hrm].
      apply IH in Hrest. rewrite Hrest, Hrm. reflexivity.
    + unfold mbind, result_bind. intros Hrest. apply IH in Hrest. exact Hrest.
Qed.

Lemma batch_loop_batch_id (queue : list Input) (size : Z) (finish : TimePoint) :
  forall (ex ex' : ModelExecutor) (bt bt' : BatchTask),
    batch_loop queue size finish ex bt = Ret (ex', bt') ->
    bt_batch_id bt' = bt_batch_id bt.
Proof.
  induction queue as [|input rest IH]; intros ex ex' bt bt'; cbn [batch_loop].
  - intros [= <- <-]. reflexivity.
  - destruct (batch_size bt <? size); [|intros [= <- <-]; reflexivity].
    destruct (process_input finish input (set_input_queue rest ex) bt)
      as [[ex1 bt1]|e] eqn:Hstep; unfold mbind, result_bind; [|discriminate].
    cbn [fst snd]. intros Hloop. apply IH in Hloop. rewrite Hloop.
    apply process_input_spec in Hstep.
    destruct Hstep as (task & t & _ & _ & Hcase). cbv zeta in Hcase.
    destruct (negb _ || _); destruct Hcase as [-> _]; reflexivity.
Qed.

(** [Execute] without a profile and with every task healthy. *)
Lemma Execute_fill (now : TimePoint) (ex ex' : ModelExecutor) :
  profile_ ex = None -> healthy ex -> 0 <= m_batch (model_ ex) ->
  Execute now ex = Ret ex' ->
  let n := batch_size_limit ex in
  input_queue_ ex' = drop (Z.to_nat n) (input_queue_ ex) /\
  events ex' = events ex ++ BatchCreated (batch_id_ ex)
                 :: (if n =? 0 then [] else [ForwardRun (batch_id_ ex) n]).
Proof.
  intros Hprof Hok Hbatch. unfold Execute, allocate_batch. cbv zeta.
  destruct (GetBatchInput now _ _) as [[ex1 bt1]|e] eqn:Hget;
    unfold mbind, result_bind; [|discriminate].
  pose proof (GetBatchInput_frame _ _ _ _ _ Hget) as (_ & _ & _ & Hev).
  cbn [events log_event set_batch_id] in Hev.
  match type of Hget with
  | GetBatchInput _ ?e ?b = _ =>
      pose proof (GetBatchInput_fill now e ex1 b bt1 Hprof Hok Hbatch eq_refl Hget)
        as (Hsplit & Hsize & _)
  end.
  change (batch_size_limit (log_event _ _)) with (batch_size_limit ex) in Hsize.
  cbn [input_queue_ log_event set_batch_id] in Hsplit.
  assert (Hqueue : input_queue_ ex1
                   = drop (Z.to_nat (batch_size_limit ex)) (input_queue_ ex)).
  { rewrite Hsplit at 1. rewrite <- Hsize. unfold batch_size.
    rewrite Nat2Z.id, <- (length_fmap fst), drop_app_length. reflexivity. }
  assert (Hid : bt_batch_id bt1 = batch_id_ ex).
  { unfold GetBatchInput in Hget.
    destruct (finish_time now _ _) as [finish|e];
      unfold mbind, result_bind in Hget; [|discriminate Hget].
    apply batch_loop_batch_id in Hget. exact Hget. }
  rewrite Hsize.
  destruct (batch_size_limit ex =? 0).
  - intros [= <-]. split; [exact Hqueue | exact Hev].
  - cbn [bt_outputs set_bt_outputs bt_items bt_batch_id]. intros Hfan.
    pose proof (fan_out_frame _ _ _ _ Hfan) as (_ & _ & _ & Hev').
    apply fan_out_input_queue in Hfan.
    cbn [events input_queue_ log_event] in Hev', Hfan.
    change (batch_size (set_bt_outputs _ bt1)) with (batch_size bt1) in Hev'.
    rewrite Hsize in Hev'.
    rewrite Hfan, Hev', Hev, Hid, <- app_assoc. split; [exact Hqueue | reflexivity].
Qed.

(** X16.  An executor in service, without a profile, with every task
    healthy, whose queue fits in the planned batch and whose model answers
    every input, is drained by one [Execute]: the whole queue goes through
    one forward pass, the input queue and the processing map end up empty,
    and every task that was in the map is pushed to postprocessing, once,
    complete and in stage [kPostprocess]. *)
Theorem Execute_drains (now : TimePoint) (ex : ModelExecutor) :
  in_service ex ->
  profile_ ex = None ->
  healthy ex ->
  input_queue_ ex <> [] ->
  Z.of_nat (length (input_queue_ ex)) <= m_batch (model_ ex) ->
  forward_total ex ->
  exists ex' pushed,
    Execute now ex = Ret ex' /\
    events ex' = events ex ++ [BatchCreated (batch_id_ ex);
                               ForwardRun (batch_id_ ex)
                                 (Z.of_nat (length (input_queue_ ex)))] /\
    input_queue_ ex' = [] /\
    processing_tasks_ ex' = ∅ /\
    task_queue_ ex' = task_queue_ ex ++ pushed /\
    NoDup pushed /\
    (forall p, p ∈ pushed <-> exists k, processing_tasks_ ex !! k = Some p) /\
    (forall p, p ∈ pushed ->
       exists t, heap ex' !! p = Some t /\ stage t = kPostprocess /\
         length (outputs t) = length (inputs t)).
Proof.
  intros [Hwf Hbusy] Hprof Hok Hne Hfit Hfwd.
  assert (Hfin : finish_defined now ex).
  { exists 0. unfold finish_time. rewrite Hprof. reflexivity. }
  destruct (Execute_returns now ex Hwf Hfin Hfwd) as (ex' & Hexec & Hwf').
  assert (Hbatch : 0 <= m_batch (model_ ex)) by lia.
  assert (Hlimit : batch_size_limit ex = Z.of_nat (length (input_queue_ ex))).
  { unfold batch_size_limit. cbv zeta.
    destruct (Z.gtb_spec (Z.of_nat (length (input_queue_ ex)))
                         (m_batch (model_ ex))); lia. }
  destruct (Execute_fill now ex ex' Hprof Hok Hbatch Hexec) as [Hq Hev].
  rewrite Hlimit, Nat2Z.id, drop_all in Hq. rewrite Hlimit in Hev.
  destruct (Z.eqb_spec (Z.of_nat (length (input_queue_ ex))) 0) as [Hz|_].
  { destruct (input_queue_ ex); [congruence | discriminate Hz]. }
  pose proof (Execute_busy now ex ex' Hwf Hbusy Hexec) as Hbusy'.
  pose proof (in_service_drained ex' (conj Hwf' Hbusy') Hq) as Hmap.
  destruct (Execute_handed_over now ex ex' Hwf Hexec)
    as (pushed & Htq & Hnd & Hsub & Hdone & Hgone).
  exists ex', pushed. split; [exact Hexec|]. split; [exact Hev|].
  split; [exact Hq|]. split; [exact Hmap|]. split; [exact Htq|].
  split; [exact Hnd|]. split.
  - intros p. split.
    + intros Hp. destruct (Hdone p Hp) as (k & t & H1 & _). eauto.
    + intros (k & Hk). apply (Hgone k p Hk). rewrite Hmap. apply lookup_empty.
  - intros p Hp. destruct (Hdone p Hp) as (k & t & _ & _ & Ht & _ & Hs & Hc).
    eauto.
Qed.

(** ** Instances of the scenes *)

Lemma trio_well_formed (b : Z) (st : CtrlStatus) (profile : option ModelProfile) :
  well_formed (Scenes.trio_executor b st profile).
Proof.
  split; cbn; unfold Scenes.trio_heap.
  - intros k p Hk.
    repeat (apply lookup_insert_Some in Hk; destruct Hk as [[<- <-]|[_ Hk]];
            [eexists; split; [reflexivity|]; split; reflexivity|]).
    rewrite lookup_empty in Hk. discriminate Hk.
  - intros k1 k2 p H1 H2.
    repeat (apply lookup_insert_Some in H1; destruct H1 as [[<- <-]|[_ H1]]);
      try (rewrite lookup_empty in H1; discriminate H1);
      repeat (apply lookup_insert_Some in H2; destruct H2 as [[<- H2]|[_ H2]]);
      try (rewrite lookup_empty in H2; discriminate H2);
      try reflexivity; discriminate H2.
  - intros i Hi.
    repeat (apply elem_of_cons in Hi; destruct Hi as [->|Hi]; [cbn; eauto|]).
    apply elem_of_nil in Hi. destruct Hi.
  - intros i p Hi. apply elem_of_nil in Hi. destruct Hi.
Qed.

Lemma trio_in_service (b : Z) (st : CtrlStatus) (profile : option ModelProfile) :
  in_service (Scenes.trio_executor b st profile).
Proof.
  split; [apply trio_well_formed|].
  intros k p t Hk. cbn in Hk |- *. unfold Scenes.trio_heap.
  repeat (apply lookup_insert_Some in Hk; destruct Hk as [[<- <-]|[_ Hk]];
          [intros [= <-]; discriminate|]).
  rewrite lookup_empty in Hk. discriminate Hk.
Qed.

Lemma hollow_well_formed : well_formed Scenes.hollow_executor.
Proof.
  split; cbn.
  - intros k p Hk. apply lookup_insert_Some in Hk.
    destruct Hk as [[<- <-]|[_ Hk]]; [|rewrite lookup_empty in Hk; discriminate Hk].
    eexists. split; [reflexivity|]. split; reflexivity.
  - intros k1 k2 p H1 H2. apply lookup_insert_Some in H1, H2.
    destruct H1 as [[<- _]|[_ H1]]; [|rewrite lookup_empty in H1; discriminate H1].
    destruct H2 as [[<- _]|[_ H2]]; [|rewrite lookup_empty in H2; discriminate H2].
    reflexivity.
  - intros i Hi. apply elem_of_nil in Hi. destruct Hi.
  - intros i p Hi. apply elem_of_nil in Hi. destruct Hi.
Qed.

Lemma trio_forward_total (b : Z) (st : CtrlStatus) (profile : option ModelProfile) :
  forward_total (Scenes.trio_executor b st profile).
Proof. intros ins. cbn. apply length_map. Qed.

Lemma Execute_hands_over_witness :
  well_formed (Scenes.trio_executor 2 (CTRL_ERROR 1) None) /\
  exists ex',
    Execute 0 (Scenes.trio_executor 2 (CTRL_ERROR 1) None) = Ret ex' /\
    task_queue_ ex' = [2%positive; 1%positive] /\
    exists pushed,
      task_queue_ ex'
        = task_queue_ (Scenes.trio_executor 2 (CTRL_ERROR 1) None) ++ pushed /\
      NoDup pushed /\
      (forall p, p ∈ pushed <->
         exists k,
           processing_tasks_ (Scenes.trio_executor 2 (CTRL_ERROR 1) None) !! k
             = Some p /\
           processing_tasks_ ex' !! k = None) /\
      (forall k p, processing_tasks_ ex' !! k = Some p ->
         processing_tasks_ (Scenes.trio_executor 2 (CTRL_ERROR 1) None) !! k
           = Some p) /\
      (forall p, p ∈ pushed ->
         exists t, heap ex' !! p = Some t /\ stage t = kPostprocess /\
           length (outputs t) = length (inputs t)).
Proof.
  split; [apply trio_well_formed|].
  eexists. split; [vm_compute; reflexivity|]. split; [reflexivity|].
  apply (Execute_hands_over 0 (Scenes.trio_executor 2 (CTRL_ERROR 1) None));
    [apply trio_well_formed | vm_compute; reflexivity].
Defined.

Lemma executor_in_service_witness :
  in_service (new_executor (Examples.echo_model 2) None []
                (Scenes.trio_heap CTRL_OK)) /\
  (exists ex',
     AddTask 1%positive
       (new_executor (Examples.echo_model 2) None [] (Scenes.trio_heap CTRL_OK))
       = Ret ex' /\
     in_service ex') /\
  (exists ex',
     Execute 0 (Scenes.trio_executor 2 (CTRL_ERROR 1) None) = Ret ex' /\
     in_service ex') /\
  (exists ex',
     Execute 0 (Scenes.trio_executor 4 CTRL_OK None) = Ret ex' /\
     input_queue_ ex' = [] /\ processing_tasks_ ex' = ∅).
Proof.
  split; [apply (proj1 executor_in_service)|]. split; [|split].
  - apply (proj1 (proj2 executor_in_service) 1%positive
             (new_executor (Examples.echo_model 2) None []
                (Scenes.trio_heap CTRL_OK))
             (Scenes.task_with 7 CTRL_OK [Scenes.input_at 7 0 300])).
    + apply (proj1 executor_in_service).
    + reflexivity.
    + reflexivity.
    + intros k. cbn. rewrite lookup_empty. discriminate.
    + reflexivity.
    + discriminate.
    + intros i Hi. apply list_elem_of_singleton in Hi. subst i. reflexivity.
  - apply (proj1 (proj2 (proj2 executor_in_service)) 0
             (Scenes.trio_executor 2 (CTRL_ERROR 1) None)).
    + apply trio_in_service.
    + exists 0. reflexivity.
    + apply trio_forward_total.
  - destruct (proj1 (proj2 (proj2 executor_in_service)) 0
                (Scenes.trio_executor 4 CTRL_OK None)
                (trio_in_service _ _ _) (ex_intro _ 0 eq_refl)
                (trio_forward_total _ _ _)) as (ex' & Hexec & Hserv).
    exists ex'. split; [exact Hexec|].
    assert (Hq : input_queue_ ex' = []).
    { vm_compute in Hexec. injection Hexec as <-. reflexivity. }
    split; [exact Hq|].
    exact (proj2 (proj2 (proj2 executor_in_service)) ex' Hserv Hq).
Defined.

Lemma task_without_inputs_witness :
  (exists ex',
     AddTask 1%positive
       (new_executor (Examples.echo_model 2) None [] Scenes.hollow_heap)
       = Ret ex' /\
     well_formed ex' /\
     processing_tasks_ ex' !! 7 = Some 1%positive /\
     input_queue_ ex' = [] /\
     heap ex' = Scenes.hollow_heap /\ task_queue_ ex' = []) /\
  (well_formed Scenes.hollow_executor /\
   exists ex',
     Execute 0 Scenes.hollow_executor = Ret ex' /\
     processing_tasks_ ex' !! 7 = Some 1%positive /\
     heap ex' !! 1%positive = Some (Scenes.task_with 7 CTRL_OK []) /\
     exists pushed,
       task_queue_ ex' = task_queue_ Scenes.hollow_executor ++ pushed /\
       1%positive ∉ pushed).
Proof.
  split.
  - apply (proj1 task_without_inputs 1%positive
             (new_executor (Examples.echo_model 2) None [] Scenes.hollow_heap)
             (Scenes.task_with 7 CTRL_OK []));
      [apply new_executor_well_formed | reflexivity | reflexivity
      | intros k; cbn; rewrite lookup_empty; discriminate
      | reflexivity | reflexivity].
  - split; [apply hollow_well_formed|].
    eexists. split; [vm_compute; reflexivity|].
    apply (proj2 task_without_inputs 0 Scenes.hollow_executor _ 7 1%positive
             (Scenes.task_with 7 CTRL_OK []));
      [apply hollow_well_formed | reflexivity | reflexivity | reflexivity
      | vm_compute; reflexivity].
Defined.

Lemma Execute_drains_witness :
  (profile_ (Scenes.trio_executor 4 CTRL_OK None) = None /\
   input_queue_ (Scenes.trio_executor 4 CTRL_OK None) <> [] /\
   Z.of_nat (length (input_queue_ (Scenes.trio_executor 4 CTRL_OK None)))
     <= m_batch (model_ (Scenes.trio_executor 4 CTRL_OK None))) /\
  exists ex' pushed,
    Execute 0 (Scenes.trio_executor 4 CTRL_OK None) = Ret ex' /\
    events ex'
      = events (Scenes.trio_executor 4 CTRL_OK None)
        ++ [BatchCreated (batch_id_ (Scenes.trio_executor 4 CTRL_OK None));
            ForwardRun (batch_id_ (Scenes.trio_executor 4 CTRL_OK None))
              (Z.of_nat (length (input_queue_
                                   (Scenes.trio_executor 4 CTRL_OK None))))] /\
    input_queue_ ex' = [] /\
    processing_tasks_ ex' = ∅ /\
    task_queue_ ex' = task_queue_ (Scenes.trio_executor 4 CTRL_OK None) ++ pushed /\
    NoDup pushed /\
    (forall p, p ∈ pushed <->
       exists k, processing_tasks_ (Scenes.trio_executor 4 CTRL_OK None) !! k
                 = Some p) /\
    (forall p, p ∈ pushed ->
       exists t, heap ex' !! p = Some t /\ stage t = kPostprocess /\
         length (outputs t) = length (inputs t)).
Proof.
  split; [split; [reflexivity|split; [discriminate | cbn; lia]]|].
  apply (Execute_drains 0 (Scenes.trio_executor 4 CTRL_OK None));
    [apply trio_in_service | reflexivity | apply trio_healthy | discriminate
    | cbn; lia | apply trio_forward_total].
Defined.
